(** * Trading engine core: risk, order tracking, breakers and signal gates

    A shallow embedding of the decision core of the trading engine
    (namespace [trading]) and the properties of its specification.

    Conventions of the embedding.
    - A C++ [double] is an exact rational ([Q]) and a decimal constant
      denotes its exact value; comparisons are the boolean tests
      [Qlt_bool]/[Qle_bool].  Rounding, infinities and NaN of binary64 are
      outside this reading: a statement over [Q] is meant of the program
      as far as it survives reading each operation as the rounded one,
      that is, which branch is taken, which value is stored where, and
      which expression of the source a stored value is.
    - The running statistics of the pairs strategy, where the rounding is
      the point, are written over an arithmetic [Arith D] and run both on
      [Q] and on binary64 ([float], the kernel's IEEE 754 doubles).
    - A [TimePoint] is an integer count of nanoseconds ([Z]); every call
      of [Clock::now()] is an explicit argument [now] of the operation.
      [std::chrono::duration_cast] truncates toward zero ([Z.quot]).
    - [std::unordered_map] that the code iterates while accumulating is
      an association list in iteration order; maps and sets that are only
      looked up or maintained by key are stdpp's [gmap]/[gset].
    - Division by zero is 0 in [Q] where binary64 gives an infinity or a
      NaN; the model says nothing faithful about an input that makes the
      code divide by zero.
    - Locks and atomics are elided: every operation is modelled as the
      sequential state transformer it is under its own lock. *)

From Stdlib Require Import ZArith QArith Qabs Qminmax Lqa Lia List String Bool.
From stdpp Require Import base option list sorting strings gmap sets.
From Stdlib Require Import PrimFloat.
From Stdlib Require Uint63.

Set Warnings "-clear-no-such-hyp".
Set Warnings "-inexact-float".

Local Open Scope Z_scope.
Local Open Scope Q_scope.
Local Open Scope string_scope.
Local Open Scope list_scope.

(** ** Numeric helpers *)

Abbreviation double := Q (only parsing).
Abbreviation TimePoint := Z (only parsing).

Definition Qlt_bool (x y : Q) : bool := negb (Qle_bool y x).

(** [std::min] and [std::max] on doubles ([std::min(a,b)] is
    [(b < a) ? b : a], [std::max(a,b)] is [(a < b) ? b : a]). *)
Definition std_min (a b : Q) : Q := if Qlt_bool b a then b else a.
Definition std_max (a b : Q) : Q := if Qlt_bool a b then b else a.

(** The operations on [double] that the running statistics use: the
    constant [0.0], the four operations, the conversion of an [int] and
    [std::sqrt]. *)
Record Arith (D : Type) := mkArith {
  d_zero : D;
  d_add : D -> D -> D;
  d_sub : D -> D -> D;
  d_mul : D -> D -> D;
  d_div : D -> D -> D;
  d_of_int : Z -> D;
  d_sqrt : D -> D
}.

Arguments d_zero {D}.
Arguments d_add {D}.
Arguments d_sub {D}.
Arguments d_mul {D}.
Arguments d_div {D}.
Arguments d_of_int {D}.
Arguments d_sqrt {D}.

(** Exact arithmetic; [std::sqrt] has no counterpart on rationals and is
    a parameter. *)
Definition exact (sqrt : Q -> Q) : Arith Q :=
  mkArith Q 0 Qplus Qminus Qmult Qdiv inject_Z sqrt.

(** binary64 with round-to-nearest-even, as the compiled program computes.
    The conversion is exact on the range of a C++ [int]. *)
Definition float_of_int (z : Z) : float :=
  if (z <? 0)%Z then PrimFloat.opp (PrimFloat.of_uint63 (Uint63.of_Z (- z)))
  else PrimFloat.of_uint63 (Uint63.of_Z z).

Definition binary64 : Arith float :=
  mkArith float 0%float PrimFloat.add PrimFloat.sub PrimFloat.mul PrimFloat.div
    float_of_int PrimFloat.sqrt.

(** [duration_cast] of a difference of time points to a coarser unit. *)
Definition ns_per_s : Z := 1000000000%Z.
Definition ns_per_ms : Z := 1000000%Z.
Definition ns_per_us : Z := 1000%Z.
Definition duration_cast (unit_ns : Z) (later earlier : TimePoint) : Z :=
  Z.quot (later - earlier) unit_ns.

(** ** core/types.hpp *)

Inductive Venue := BINANCE | BYBIT | COINBASE | KRAKEN | FTX | UNKNOWN.
Inductive Side := BUY | SELL.
Inductive OrderType :=
  LIMIT | MARKET | LIMIT_MAKER | LIMIT_IOC | STOP_LOSS | STOP_LIMIT.
Inductive OrderStatus :=
  PENDING | NEW | PARTIALLY_FILLED | FILLED | CANCELED | REJECTED | EXPIRED.

#[global] Instance Venue_eq_dec : EqDecision Venue.
Proof. solve_decision. Defined.
#[global] Instance Side_eq_dec : EqDecision Side.
Proof. solve_decision. Defined.
#[global] Instance OrderStatus_eq_dec : EqDecision OrderStatus.
Proof. solve_decision. Defined.

Record Fill := mkFill {
  f_fill_id : string;
  f_order_id : string;
  f_client_order_id : string;
  f_symbol : string;
  f_side : Side;
  f_price : double;
  f_quantity : double;
  f_fee : double;
  f_fee_currency : string;
  f_is_maker : bool;
  f_venue : Venue;
  f_exchange_time : TimePoint;
  f_received_time : TimePoint;
  f_processed_time : TimePoint;
  f_latency_us : Z;
  f_bid_at_fill : double;
  f_ask_at_fill : double;
  f_mid_at_fill : double
}.

Record Order := mkOrder {
  o_order_id : string;
  o_client_order_id : string;
  o_symbol : string;
  o_venue : Venue;
  o_side : Side;
  o_type : OrderType;
  o_price : double;
  o_quantity : double;
  o_filled_quantity : double;
  o_remaining_quantity : double;
  o_status : OrderStatus;
  o_reject_reason : string;
  o_created_time : TimePoint;
  o_sent_time : TimePoint;
  o_ack_time : TimePoint;
  o_completed_time : TimePoint;
  o_strategy_name : string;
  o_signal_id : Z;
  o_risk_notional : double
}.

(** [Order::Order()]; the four time points are default-constructed. *)
Definition Order_default : Order :=
  mkOrder "" "" "" UNKNOWN BUY LIMIT 0 0 0 0 PENDING "" 0 0 0 0 "" 0 0.

Definition is_active (o : Order) : bool :=
  match o_status o with
  | NEW | PARTIALLY_FILLED => true
  | _ => false
  end.

Definition is_complete (o : Order) : bool :=
  match o_status o with
  | FILLED | CANCELED | REJECTED | EXPIRED => true
  | _ => false
  end.

(** ** core/risk_manager.hpp *)

Record Position := mkPosition {
  p_symbol : string;
  p_quantity : double;
  p_avg_price : double;
  p_realized_pnl : double;
  p_unrealized_pnl : double;
  p_total_fees_paid : double;
  p_notional_value : double;
  p_var_contribution : double;
  p_opened_time : TimePoint;
  p_last_update_time : TimePoint
}.

(** [Position::Position()], constructed at clock reading [now]. *)
Definition Position_default (now : TimePoint) : Position :=
  mkPosition "" 0 0 0 0 0 0 0 now now.

Definition is_flat (p : Position) : bool :=
  Qlt_bool (Qabs (p_quantity p)) 0.0000001.
Definition is_long (p : Position) : bool :=
  Qlt_bool 0.0000001 (p_quantity p).
Definition is_short (p : Position) : bool :=
  Qlt_bool (p_quantity p) (- 0.0000001).

Definition calculate_unrealized (p : Position) (current_price : double) : double :=
  if is_flat p then 0 else p_quantity p * (current_price - p_avg_price p).

Definition update_unrealized (p : Position) (current_price : double) : Position :=
  mkPosition (p_symbol p) (p_quantity p) (p_avg_price p) (p_realized_pnl p)
    (calculate_unrealized p current_price)
    (p_total_fees_paid p)
    (Qabs (p_quantity p * current_price))
    (p_var_contribution p) (p_opened_time p) (p_last_update_time p).

Record RiskLimits := mkRiskLimits {
  max_position_per_symbol : double;
  max_total_gross_exposure : double;
  max_total_net_exposure : double;
  max_daily_loss : double;
  max_daily_profit : double;
  trailing_stop_pct : double;
  max_order_size : double;
  max_orders_per_second : Z;
  max_single_symbol_pct : double;
  max_position_hold_seconds : Z
}.

(** [RiskLimits::RiskLimits()] *)
Definition RiskLimits_default : RiskLimits :=
  mkRiskLimits 50000 150000 100000 5000 20000 0.5 10000 50 0.4 300.

Record RiskCheckResult := mkRiskCheckResult {
  passed : bool;
  reason : string
}.

(** The state of a [RiskManager].  [positions_] lists the entries of the
    hash map in iteration order (keys are pairwise distinct); a key that
    [operator[]] creates is appended. *)
Record RiskManager := mkRiskManager {
  limits_ : RiskLimits;
  positions_ : list (string * Position);
  daily_realized_pnl_ : double;
  peak_daily_pnl_ : double;
  recent_fills_ : list Fill
}.

(** [RiskManager::RiskManager(limits, tracker)] *)
Definition RiskManager_new (limits : RiskLimits) : RiskManager :=
  mkRiskManager limits [] 0 0 [].

(** [m.find(key)] on an association list. *)
Fixpoint assoc_find {K V : Type} `{EqDecision K} (m : list (K * V)) (key : K)
  : option V :=
  match m with
  | [] => None
  | (k, v) :: tl => if decide (k = key) then Some v else assoc_find tl key
  end.

(** [m[key] = v]: overwrite in place, or append a new entry. *)
Fixpoint assoc_set {K V : Type} `{EqDecision K} (m : list (K * V)) (key : K) (v : V)
  : list (K * V) :=
  match m with
  | [] => [(key, v)]
  | (k, w) :: tl =>
      if decide (k = key) then (k, v) :: tl else (k, w) :: assoc_set tl key v
  end.

Definition get_position (rm : RiskManager) (symbol : string) : option Position :=
  assoc_find (positions_ rm) symbol.

(** The loops [for (auto& [symbol, pos] : positions_) total += pos.field]. *)
Definition sum_over (field : Position -> double) (ps : list (string * Position)) : double :=
  fold_left (fun acc sp => acc + field (snd sp)) ps 0.

Definition calculate_total_gross_exposure (rm : RiskManager) : double :=
  sum_over p_notional_value (positions_ rm).

Definition calculate_total_net_exposure (rm : RiskManager) : double :=
  sum_over (fun p => p_quantity p * p_avg_price p) (positions_ rm).

(** [get_total_pnl_internal(double generic_price)]: the price is unused. *)
Definition get_total_pnl_internal (rm : RiskManager) (generic_price : double) : double :=
  let realized := daily_realized_pnl_ rm in
  let unrealized := sum_over p_unrealized_pnl (positions_ rm) in
  realized + unrealized.

Definition check_order (rm : RiskManager) (order : Order) (current_price : double)
  : RiskCheckResult :=
  let lim := limits_ rm in
  (* Check 1: daily loss limit *)
  let current_pnl := get_total_pnl_internal rm current_price in
  if Qlt_bool current_pnl (- max_daily_loss lim) then
    mkRiskCheckResult false "Daily loss limit exceeded"
  else
  (* Check 2: trailing stop from peak *)
  let drawdown_from_peak := peak_daily_pnl_ rm - current_pnl in
  let max_drawdown := max_daily_loss lim * trailing_stop_pct lim in
  if Qlt_bool max_drawdown drawdown_from_peak then
    mkRiskCheckResult false "Trailing stop hit"
  else
  (* Check 3: order size limit *)
  let order_notional := o_quantity order * o_price order in
  if Qlt_bool (max_order_size lim) order_notional then
    mkRiskCheckResult false "Order size exceeds limit"
  else
  (* Check 4: position limit for this symbol *)
  let pos_it := assoc_find (positions_ rm) (o_symbol order) in
  let current_notional :=
    match pos_it with
    | Some pos => Qabs (p_quantity pos * current_price)
    | None => 0
    end in
  let new_quantity0 := match pos_it with Some pos => p_quantity pos | None => 0 end in
  let new_quantity :=
    match o_side order with
    | BUY => new_quantity0 + o_quantity order
    | SELL => new_quantity0 - o_quantity order
    end in
  let new_notional := Qabs (new_quantity * current_price) in
  if Qlt_bool (max_position_per_symbol lim) new_notional then
    mkRiskCheckResult false "Symbol position limit exceeded"
  else
  (* Check 5: total gross exposure *)
  let total_gross := calculate_total_gross_exposure rm in
  let order_impact :=
    match pos_it with
    | Some pos =>
        if (is_long pos && bool_decide (o_side order = SELL))
           || (is_short pos && bool_decide (o_side order = BUY))
        then std_max 0 (new_notional - current_notional)
        else order_notional
    | None => order_notional
    end in
  if Qlt_bool (max_total_gross_exposure lim) (total_gross + order_impact) then
    mkRiskCheckResult false "Total gross exposure limit exceeded"
  else
  (* Check 6: concentration limit *)
  let portfolio_value := total_gross + order_impact in
  if Qlt_bool 0 portfolio_value
     && Qlt_bool (max_single_symbol_pct lim) (new_notional / portfolio_value)
  then mkRiskCheckResult false "Concentration limit exceeded"
  else mkRiskCheckResult true "".

(** The three branches of [on_fill] on the position of the fill's symbol;
    returns the position and, from the closing branch, the amount that is
    added to [daily_realized_pnl_]. *)
Definition apply_fill (pos : Position) (fill : Fill) : Position * option double :=
  let signed_quantity :=
    match f_side fill with BUY => f_quantity fill | SELL => - f_quantity fill end in
  if is_flat pos then
    (* opening new position *)
    (mkPosition (f_symbol fill) signed_quantity (f_price fill)
       (p_realized_pnl pos) (p_unrealized_pnl pos) (f_fee fill)
       (p_notional_value pos) (p_var_contribution pos)
       (f_received_time fill) (p_last_update_time pos), None)
  else if (is_long pos && bool_decide (f_side fill = BUY))
          || (is_short pos && bool_decide (f_side fill = SELL)) then
    (* adding to position *)
    let total_cost :=
      (p_quantity pos * p_avg_price pos) + (signed_quantity * f_price fill) in
    let quantity' := p_quantity pos + signed_quantity in
    (mkPosition (p_symbol pos) quantity' (total_cost / quantity')
       (p_realized_pnl pos) (p_unrealized_pnl pos)
       (p_total_fees_paid pos + f_fee fill)
       (p_notional_value pos) (p_var_contribution pos)
       (p_opened_time pos) (p_last_update_time pos), None)
  else
    (* closing or reducing position *)
    let closed_quantity := std_min (Qabs signed_quantity) (Qabs (p_quantity pos)) in
    let pnl :=
      closed_quantity * (f_price fill - p_avg_price pos)
      * (if is_long pos then 1 else - (1)) in
    (mkPosition (p_symbol pos) (p_quantity pos + signed_quantity) (p_avg_price pos)
       (p_realized_pnl pos + (pnl - f_fee fill)) (p_unrealized_pnl pos)
       (p_total_fees_paid pos + f_fee fill)
       (p_notional_value pos) (p_var_contribution pos)
       (p_opened_time pos) (p_last_update_time pos), Some (pnl - f_fee fill)).

Definition touch (now : TimePoint) (p : Position) : Position :=
  mkPosition (p_symbol p) (p_quantity p) (p_avg_price p) (p_realized_pnl p)
    (p_unrealized_pnl p) (p_total_fees_paid p) (p_notional_value p)
    (p_var_contribution p) (p_opened_time p) now.

(** [recent_fills_.push_back(fill)] followed by the bound of 1000. *)
Definition push_recent (fills : list Fill) (fill : Fill) : list Fill :=
  let fills' := fills ++ [fill] in
  if (1000 <? length fills')%nat then tail fills' else fills'.

Definition on_fill (now : TimePoint) (rm : RiskManager) (fill : Fill) : RiskManager :=
  let pos :=
    match assoc_find (positions_ rm) (f_symbol fill) with
    | Some p => p
    | None => Position_default now
    end in
  let '(pos', realized_delta) := apply_fill pos fill in
  mkRiskManager (limits_ rm)
    (assoc_set (positions_ rm) (f_symbol fill) (touch now pos'))
    (match realized_delta with
     | Some delta => daily_realized_pnl_ rm + delta
     | None => daily_realized_pnl_ rm
     end)
    (peak_daily_pnl_ rm)
    (push_recent (recent_fills_ rm) fill).

(** The loop of [update_market_prices]: positions with a price are
    re-marked and their unrealized P&L is accumulated; the others are
    skipped. *)
Fixpoint mark_positions (prices : gmap string double)
    (ps : list (string * Position)) (total_unrealized : double)
  : list (string * Position) * double :=
  match ps with
  | [] => ([], total_unrealized)
  | (symbol, pos) :: tl =>
      match prices !! symbol with
      | Some price =>
          let pos' := update_unrealized pos price in
          let '(tl', total) :=
            mark_positions prices tl (total_unrealized + p_unrealized_pnl pos') in
          ((symbol, pos') :: tl', total)
      | None =>
          let '(tl', total) := mark_positions prices tl total_unrealized in
          ((symbol, pos) :: tl', total)
      end
  end.

(** The compare-and-set loop on [peak_daily_pnl_], run by one thread. *)
Definition raise_peak (current_peak total_pnl : double) : double :=
  if Qlt_bool current_peak total_pnl then total_pnl else current_peak.

Definition update_market_prices (rm : RiskManager) (prices : gmap string double)
  : RiskManager :=
  let '(positions', total_unrealized) := mark_positions prices (positions_ rm) 0 in
  let total_pnl := daily_realized_pnl_ rm + total_unrealized in
  mkRiskManager (limits_ rm) positions' (daily_realized_pnl_ rm)
    (raise_peak (peak_daily_pnl_ rm) total_pnl) (recent_fills_ rm).

Definition reset_daily (rm : RiskManager) : RiskManager :=
  mkRiskManager (limits_ rm)
    (map (fun sp =>
            let p := snd sp in
            (fst sp,
             mkPosition (p_symbol p) (p_quantity p) (p_avg_price p) 0 0
               (p_total_fees_paid p) (p_notional_value p) (p_var_contribution p)
               (p_opened_time p) (p_last_update_time p)))
         (positions_ rm))
    0 0 [].

Record RiskStats := mkRiskStats {
  total_realized_pnl : double;
  total_unrealized_pnl : double;
  total_pnl : double;
  gross_exposure : double;
  net_exposure : double;
  peak_pnl_today : double;
  drawdown_from_peak : double;
  num_positions : nat;
  num_fills : nat
}.

(** [get_stats(current_prices)]: the price map is unused. *)
Definition get_stats (rm : RiskManager) (current_prices : gmap string double)
  : RiskStats :=
  let realized := daily_realized_pnl_ rm in
  let unrealized := sum_over p_unrealized_pnl (positions_ rm) in
  let total := realized + unrealized in
  let peak := peak_daily_pnl_ rm in
  mkRiskStats realized unrealized total
    (calculate_total_gross_exposure rm) (calculate_total_net_exposure rm)
    peak (peak - total) (length (positions_ rm)) (length (recent_fills_ rm)).


(** [get_total_pnl_internal(const std::unordered_map&)]: realized P&L plus
    the unrealized P&L, recomputed at the given prices, of the positions
    that have a price; [get_total_pnl] is its public entry. *)
Definition get_total_pnl_internal_prices (rm : RiskManager)
    (prices : gmap string double) : double :=
  let realized := daily_realized_pnl_ rm in
  let unrealized :=
    fold_left
      (fun acc sp =>
         match prices !! sp.1 with
         | Some price => acc + calculate_unrealized sp.2 price
         | None => acc
         end)
      (positions_ rm) 0 in
  realized + unrealized.

Definition get_total_pnl (rm : RiskManager) (current_prices : gmap string double)
  : double :=
  get_total_pnl_internal_prices rm current_prices.

(** [get_all_positions]: the positions that are not flat. *)
Definition get_all_positions (rm : RiskManager) : list Position :=
  filter (fun p => negb (is_flat p)) (map snd (positions_ rm)).

(** ** core/order_tracker.hpp *)

Module OrderTracker.

Record t := mk {
  orders_ : gmap string Order;                  (* client id -> order *)
  order_id_to_client_id_ : gmap string string;  (* exchange id -> client id *)
  symbol_orders_ : gmap string (list string);   (* symbol -> client ids *)
  active_orders_ : gset string
}.

Definition empty : t := mk ∅ ∅ ∅ ∅.

Definition MAX_ORDERS : Z := 100000.

(** [vec.erase(std::remove(vec.begin(), vec.end(), id), vec.end())] on
    the entry of [symbol], when there is one. *)
Definition remove_from_symbol (so : gmap string (list string))
    (symbol id : string) : gmap string (list string) :=
  match so !! symbol with
  | Some vec => <[symbol := filter (fun c => c ≠ id) vec]> so
  | None => so
  end.

(** One removal of [cleanup_oldest_internal]: look the client id up and
    drop the order from the map and from the three indices. *)
Definition remove_by_client_id (tr : t) (client_id : string) : t :=
  match orders_ tr !! client_id with
  | Some order =>
      mk (delete client_id (orders_ tr))
         (delete (o_order_id order) (order_id_to_client_id_ tr))
         (remove_from_symbol (symbol_orders_ tr) (o_symbol order) client_id)
         (active_orders_ tr ∖ {[client_id]})
  | None => tr
  end.

(** The comparator of the [std::sort] call: by completion time.  The
    order [std::sort] gives to equal completion times is unspecified; the
    merge sort of the model keeps them in iteration order. *)
Definition older (a b : string * TimePoint) : Prop := (a.2 <= b.2)%Z.
#[global] Instance older_dec a b : Decision (older a b).
Proof. unfold older. apply _. Defined.

Definition completed_orders (tr : t) : list (string * TimePoint) :=
  omap (fun kv : string * Order =>
          if is_complete kv.2 then Some (kv.1, o_completed_time kv.2) else None)
       (map_to_list (orders_ tr)).

Definition cleanup_oldest_internal (tr : t) (n : nat) : t :=
  let sorted := merge_sort older (completed_orders tr) in
  foldl remove_by_client_id tr (map fst (take n sorted)).

Definition track_order (tr : t) (order : Order) : t :=
  let tr1 :=
    if decide (MAX_ORDERS ≤ Z.of_nat (size (orders_ tr)))%Z
    then cleanup_oldest_internal tr 1000 else tr in
  let client_id := o_client_order_id order in
  mk (<[client_id := order]> (orders_ tr1))
     (<[o_order_id order := client_id]> (order_id_to_client_id_ tr1))
     (<[o_symbol order :=
          default [] (symbol_orders_ tr1 !! o_symbol order) ++ [client_id]]>
        (symbol_orders_ tr1))
     (if is_active order
      then {[client_id]} ∪ active_orders_ tr1 else active_orders_ tr1).

Definition update_order (tr : t) (client_order_id : string) (updated : Order) : t :=
  match orders_ tr !! client_order_id with
  | None => tr
  | Some old =>
      let active' :=
        if is_active old && negb (is_active updated)
        then active_orders_ tr ∖ {[client_order_id]}
        else if negb (is_active old) && is_active updated
        then {[client_order_id]} ∪ active_orders_ tr
        else active_orders_ tr in
      mk (<[client_order_id := updated]> (orders_ tr))
         (order_id_to_client_id_ tr) (symbol_orders_ tr) active'
  end.

Definition get_order (tr : t) (client_order_id : string) : option Order :=
  orders_ tr !! client_order_id.

Definition get_active_orders (tr : t) : list Order :=
  omap (fun client_id => orders_ tr !! client_id) (elements (active_orders_ tr)).

(** One iteration of the loop of [cleanup_completed] at the entry
    [(key, order)]; [retention_period] is in seconds. *)
Definition cleanup_step (now : TimePoint) (retention_period : Z)
    (acc : t * nat) (kv : string * Order) : t * nat :=
  let '(tr, removed) := acc in
  let order := kv.2 in
  if is_complete order
     && (retention_period <? duration_cast ns_per_s now (o_completed_time order))%Z
  then
    (mk (delete kv.1 (orders_ tr))
        (delete (o_order_id order) (order_id_to_client_id_ tr))
        (remove_from_symbol (symbol_orders_ tr) (o_symbol order)
           (o_client_order_id order))
        (active_orders_ tr ∖ {[o_client_order_id order]}),
     S removed)
  else acc.

Definition cleanup_completed (now : TimePoint) (retention_period : Z) (tr : t)
  : t * nat :=
  foldl (cleanup_step now retention_period) (tr, 0%nat) (map_to_list (orders_ tr)).

(** [get_symbol(order_id)]: first through the exchange-id index, then
    with the argument taken as a client id. *)
Definition get_symbol (tr : t) (order_id : string) : option string :=
  let by_exchange_id :=
    match order_id_to_client_id_ tr !! order_id with
    | Some client_id =>
        match orders_ tr !! client_id with
        | Some order => Some (o_symbol order)
        | None => None
        end
    | None => None
    end in
  match by_exchange_id with
  | Some symbol => Some symbol
  | None =>
      match orders_ tr !! order_id with
      | Some order => Some (o_symbol order)
      | None => None
      end
  end.

Definition get_order_by_exchange_id (tr : t) (order_id : string) : option Order :=
  match order_id_to_client_id_ tr !! order_id with
  | Some client_id => get_order tr client_id
  | None => None
  end.

Definition get_orders_for_symbol (tr : t) (symbol : string) : list Order :=
  match symbol_orders_ tr !! symbol with
  | Some client_ids => omap (fun client_id => orders_ tr !! client_id) client_ids
  | None => []
  end.

Definition total_orders (tr : t) : nat := size (orders_ tr).
Definition active_count (tr : t) : nat := size (active_orders_ tr).

End OrderTracker.

(** ** core/circuit_breaker.hpp *)

Module CircuitBreaker.

Inductive CircuitState := CLOSED | OPEN | HALF_OPEN.

Record Config := mkConfig {
  failure_threshold : Z;
  success_threshold : Z;
  timeout : Z;        (* seconds *)
  test_period : Z     (* seconds *)
}.

Definition Config_default : Config := mkConfig 5 3 30 10.

Record t := mk {
  name_ : string;
  config_ : Config;
  state_ : CircuitState;
  failure_count_ : Z;
  success_count_ : Z;
  last_failure_time_ : TimePoint;
  half_open_start_ : TimePoint
}.

Definition new (name : string) (config : Config) : t :=
  mk name config CLOSED 0 0 0 0.

Definition set_state (cb : t) (s : CircuitState) : t :=
  mk (name_ cb) (config_ cb) s (failure_count_ cb) (success_count_ cb)
     (last_failure_time_ cb) (half_open_start_ cb).

(** [open(reason)]: trips the breaker and stamps the failure time,
    unless it is open already.  (The log line is not modelled.) *)
Definition open (now : TimePoint) (cb : t) (reason : string) : t :=
  match state_ cb with
  | OPEN => cb
  | _ => mk (name_ cb) (config_ cb) OPEN (failure_count_ cb) (success_count_ cb)
            now (half_open_start_ cb)
  end.

Definition close (cb : t) : t :=
  mk (name_ cb) (config_ cb) CLOSED 0 0 (last_failure_time_ cb) (half_open_start_ cb).

Definition allow_request (now : TimePoint) (cb : t) : bool * t :=
  match state_ cb with
  | OPEN =>
      let elapsed := duration_cast ns_per_s now (last_failure_time_ cb) in
      if (timeout (config_ cb) <=? elapsed)%Z then
        (* compare_exchange_strong(OPEN -> HALF_OPEN) succeeds *)
        (true, mk (name_ cb) (config_ cb) HALF_OPEN (failure_count_ cb)
                  (success_count_ cb) (last_failure_time_ cb) now)
      else (false, cb)
  | HALF_OPEN =>
      let elapsed := duration_cast ns_per_s now (half_open_start_ cb) in
      if (test_period (config_ cb) <=? elapsed)%Z
         && (success_count_ cb <? success_threshold (config_ cb))%Z
      then (false, open now cb "Test period failed")
      else (true, cb)
  | CLOSED => (true, cb)
  end.

Definition record_success (cb : t) : t :=
  match state_ cb with
  | HALF_OPEN =>
      let successes := (success_count_ cb + 1)%Z in
      if (success_threshold (config_ cb) <=? successes)%Z then
        (* compare_exchange_strong(HALF_OPEN -> CLOSED) succeeds *)
        mk (name_ cb) (config_ cb) CLOSED 0 0
           (last_failure_time_ cb) (half_open_start_ cb)
      else
        mk (name_ cb) (config_ cb) HALF_OPEN (failure_count_ cb) successes
           (last_failure_time_ cb) (half_open_start_ cb)
  | CLOSED =>
      let current := failure_count_ cb in
      if (0 <? current)%Z then
        mk (name_ cb) (config_ cb) CLOSED (current - 1)%Z (success_count_ cb)
           (last_failure_time_ cb) (half_open_start_ cb)
      else cb
  | OPEN => cb
  end.

Definition record_failure (now : TimePoint) (cb : t) (reason : string) : t :=
  match state_ cb with
  | HALF_OPEN => open now cb ("Failed during half-open: " ++ reason)%string
  | CLOSED =>
      let failures := (failure_count_ cb + 1)%Z in
      let cb' := mk (name_ cb) (config_ cb) CLOSED failures (success_count_ cb)
                    (last_failure_time_ cb) (half_open_start_ cb) in
      if (failure_threshold (config_ cb) <=? failures)%Z
      then open now cb' ("Threshold reached: " ++ reason)%string
      else cb'
  | OPEN => cb
  end.

Definition get_state (cb : t) : CircuitState := state_ cb.
Definition is_open (cb : t) : bool :=
  match state_ cb with OPEN => true | _ => false end.

End CircuitBreaker.

Module KillSwitch.

Section Handlers.
(** A shutdown handler acts on the state [W] of the rest of the system;
    it returns normally ([false]) or throws a [std::exception] ([true])
    after the effects it had. *)
Context {W : Type}.

Definition handler : Type := W -> W * bool.

Record t := mk {
  activated_ : bool;
  activation_reason_ : string;
  activation_time_ : TimePoint;
  shutdown_handlers_ : list handler
}.

Definition new : t := mk false "" 0 [].

(** [for (auto& handler : shutdown_handlers_) try { handler(); }
    catch (const std::exception&) { ... }]: returns the state the
    handlers leave and the number of handlers that threw. *)
Definition run_handlers (handlers : list handler) (w : W) : W * nat :=
  foldl (fun (acc : W * nat) (h : handler) =>
           let '(w', threw) := h acc.1 in
           (w', if threw then S acc.2 else acc.2))
        (w, 0%nat) handlers.

Definition activate (now : TimePoint) (ks : t) (reason : string) (w : W)
  : t * (W * nat) :=
  if activated_ ks then (ks, (w, 0%nat))
  else
    (mk true reason now (shutdown_handlers_ ks),
     run_handlers (shutdown_handlers_ ks) w).

Definition register_shutdown_handler (ks : t) (h : handler) : t :=
  mk (activated_ ks) (activation_reason_ ks) (activation_time_ ks)
     (shutdown_handlers_ ks ++ [h]).

Definition is_activated (ks : t) : bool := activated_ ks.
Definition get_reason (ks : t) : string := activation_reason_ ks.
Definition get_activation_time (ks : t) : TimePoint := activation_time_ ks.

Definition reset (ks : t) : t :=
  mk false "" (activation_time_ ks) (shutdown_handlers_ ks).

End Handlers.

Arguments t : clear implicits.
Arguments handler : clear implicits.

End KillSwitch.

Module ErrorRateTracker.

Record Config := mkConfig {
  window : Z;      (* seconds *)
  threshold : Z
}.

Definition Config_default : Config := mkConfig 60 10.

Record t := mk {
  config_ : Config;
  error_times_ : list TimePoint
}.

Definition new (config : Config) : t := mk config [].

(** The loop of [record_error] that erases from the front the errors
    older than the window, and stops at the first that is not. *)
Fixpoint evict_old (now : TimePoint) (window : Z) (times : list TimePoint)
  : list TimePoint :=
  match times with
  | [] => []
  | front :: rest =>
      if (window <? duration_cast ns_per_s now front)%Z
      then evict_old now window rest
      else times
  end.

Definition record_error (now : TimePoint) (s : t) : t :=
  mk (config_ s) (evict_old now (window (config_ s)) (error_times_ s) ++ [now]).

(** [static_cast<size_t>(int)] on a 64-bit target. *)
Definition to_size_t (n : Z) : Z := (n mod 2 ^ 64)%Z.

Definition threshold_exceeded (s : t) : bool :=
  (to_size_t (threshold (config_ s)) <=? Z.of_nat (length (error_times_ s)))%Z.

Definition get_error_count (s : t) : nat := length (error_times_ s).

Definition clear (s : t) : t := mk (config_ s) [].

End ErrorRateTracker.

(** ** market_data/order_book.hpp *)

Module OrderBook.

(** Each side lists its [(price, quantity)] levels in the iteration
    order of its [std::map]: bids by descending price, asks ascending. *)
Record t := mk {
  bids_ : list (double * double);
  asks_ : list (double * double)
}.

Definition get_bids (b : t) := bids_ b.
Definition get_asks (b : t) := asks_ b.

Definition get_best_bid (b : t) : double :=
  match bids_ b with [] => 0 | (price, _) :: _ => price end.

Definition get_best_ask (b : t) : double :=
  match asks_ b with [] => 0 | (price, _) :: _ => price end.

Definition get_mid_price (b : t) : double :=
  let bid := get_best_bid b in
  let ask := get_best_ask b in
  if Qeq_bool bid 0 || Qeq_bool ask 0 then 0 else (bid + ask) / 2.

Definition get_spread (b : t) : double := get_best_ask b - get_best_bid b.


Definition empty : t := mk [] [].

(** [levels[price] = quantity] and [levels.erase(price)] on one side of
    the book; [before] is the comparator of the map ([std::greater] for
    bids, [std::less] for asks), and two prices neither of which is
    before the other are the same key. *)
Fixpoint assign_level (before : double -> double -> bool)
    (levels : list (double * double)) (price quantity : double)
  : list (double * double) :=
  match levels with
  | [] => [(price, quantity)]
  | (p, q) :: rest =>
      if before price p then (price, quantity) :: (p, q) :: rest
      else if before p price
           then (p, q) :: assign_level before rest price quantity
           else (p, quantity) :: rest
  end.

Fixpoint erase_level (before : double -> double -> bool)
    (levels : list (double * double)) (price : double)
  : list (double * double) :=
  match levels with
  | [] => []
  | (p, q) :: rest =>
      if before price p then (p, q) :: rest
      else if before p price
           then (p, q) :: erase_level before rest price
           else rest
  end.

Definition greater (a b : double) : bool := Qlt_bool b a.
Definition less (a b : double) : bool := Qlt_bool a b.

Definition update_bid (b : t) (price quantity : double) : t :=
  if Qlt_bool 0 quantity
  then mk (assign_level greater (bids_ b) price quantity) (asks_ b)
  else mk (erase_level greater (bids_ b) price) (asks_ b).

Definition update_ask (b : t) (price quantity : double) : t :=
  if Qlt_bool 0 quantity
  then mk (bids_ b) (assign_level less (asks_ b) price quantity)
  else mk (bids_ b) (erase_level less (asks_ b) price).

Definition clear (b : t) : t := mk [] [].

Definition bid_depth (b : t) : nat := length (bids_ b).
Definition ask_depth (b : t) : nat := length (asks_ b).

End OrderBook.

(** ** strategies/order_book_imbalance.hpp *)

Module OrderBookImbalanceStrategy.

Record Config := mkConfig {
  num_levels : Z;
  imbalance_threshold : double;
  min_volume_threshold : double;
  target_profit_bps : double;
  stop_loss_bps : double;
  signal_decay_ms : Z
}.

Definition Config_default : Config := mkConfig 5 0.35 10 10 5 200.

Record OBISignal := mkOBISignal {
  symbol : string;
  predicted_direction : Side;
  imbalance_ratio : double;
  confidence : double;
  entry_price : double;
  target_price : double;
  stop_price : double;
  generated_at : TimePoint;
  is_valid : bool
}.

(** The counting loop over one side of the book:
    [for (level) { if (count >= num_levels) break; volume += qty; ++count; }] *)
Fixpoint top_volume (num_levels : Z) (levels : list (double * double))
    (count : Z) (volume : double) : double :=
  match levels with
  | [] => volume
  | (_, qty) :: tl =>
      if (num_levels <=? count)%Z then volume
      else top_volume num_levels tl (count + 1)%Z (volume + qty)
  end.

Definition bid_volume (cfg : Config) (book : OrderBook.t) : double :=
  top_volume (num_levels cfg) (OrderBook.get_bids book) 0 0.
Definition ask_volume (cfg : Config) (book : OrderBook.t) : double :=
  top_volume (num_levels cfg) (OrderBook.get_asks book) 0 0.

Definition analyze (now : TimePoint) (cfg : Config) (sym : string)
    (book : OrderBook.t) : OBISignal :=
  let signal := mkOBISignal sym BUY 0 0 0 0 0 now false in
  let bid_volume := bid_volume cfg book in
  let ask_volume := ask_volume cfg book in
  let total_volume := bid_volume + ask_volume in
  if Qlt_bool total_volume (min_volume_threshold cfg) then signal
  else
  let imbalance := (bid_volume - ask_volume) / total_volume in
  let signal := mkOBISignal sym BUY imbalance 0 0 0 0 now false in
  let abs_imbalance := Qabs imbalance in
  if Qlt_bool abs_imbalance (imbalance_threshold cfg) then signal
  else if Qlt_bool (imbalance_threshold cfg) imbalance then
    let mid := OrderBook.get_mid_price book in
    mkOBISignal sym BUY imbalance (std_min (abs_imbalance / 0.7) 1) mid
      (mid * (1 + target_profit_bps cfg / 10000))
      (mid * (1 - stop_loss_bps cfg / 10000)) now true
  else if Qlt_bool imbalance (- imbalance_threshold cfg) then
    let mid := OrderBook.get_mid_price book in
    mkOBISignal sym SELL imbalance (std_min (abs_imbalance / 0.7) 1) mid
      (mid * (1 - target_profit_bps cfg / 10000))
      (mid * (1 + stop_loss_bps cfg / 10000)) now true
  else signal.

Definition is_signal_expired (now : TimePoint) (cfg : Config) (signal : OBISignal)
  : bool :=
  (signal_decay_ms cfg <? duration_cast ns_per_ms now (generated_at signal))%Z.


Definition create_order_from_signal (now : TimePoint) (signal : OBISignal)
    (quantity : double) : Order :=
  mkOrder "" "" (symbol signal) UNKNOWN (predicted_direction signal) LIMIT
    (entry_price signal) quantity 0 0 PENDING "" now 0 0 0 "OBI" 0 0.

End OrderBookImbalanceStrategy.

(** ** latency_arb_optimized.hpp *)

Module LatencyArbOptimized.

Record Config := mkConfig {
  venues : list Venue;
  base_min_profit_bps : double;
  min_profit_decay_rate : double;
  enable_global_best : bool;
  max_slippage_bps : double;
  max_orderbook_staleness_ms : Z;
  position_size_usd : double;
  max_concurrent_arbs : Z;
  max_execution_latency_us : double
}.

Definition Config_default : Config :=
  mkConfig [BINANCE; KRAKEN; COINBASE] 15 0.7 true 8 50 2000 3 200.

Record EnhancedArbOpportunity := mkOpp {
  symbol : string;
  buy_venue : Venue;
  sell_venue : Venue;
  buy_price : double;
  sell_price : double;
  gross_profit_bps : double;
  fees_bps : double;
  slippage_bps : double;
  net_profit_bps : double;
  expected_profit_usd : double;
  execute_quantity : double;
  buy_liquidity_available : double;
  sell_liquidity_available : double;
  detection_latency_us : Z;
  orderbook_age_ms : Z;
  is_valid : bool;
  reject_reason : string
}.

Record t := mk {
  config_ : Config;
  active_arbs_ : Z;
  opportunities_last_minute_ : Z;
  last_opportunity_time_ : TimePoint
}.

Definition new (now : TimePoint) (config : Config) : t := mk config 0 0 now.

(** [std::numeric_limits<double>::max()] *)
Definition DBL_MAX : double := inject_Z (2 ^ 1024 - 2 ^ 971).

Definition get_fee_bps (venue : Venue) : double :=
  match venue with
  | BINANCE => 10
  | KRAKEN => 16
  | COINBASE => 40
  | _ => 20
  end.

(** The walk of [estimate_slippage] down one side of the book. *)
Fixpoint walk_levels (levels : list (double * double))
    (remaining_qty total_value : double) : double :=
  match levels with
  | [] => total_value
  | (price, level_qty) :: tl =>
      let fill_qty := std_min remaining_qty level_qty in
      let total_value := total_value + fill_qty * price in
      let remaining_qty := remaining_qty - fill_qty in
      if Qle_bool remaining_qty 0 then total_value
      else walk_levels tl remaining_qty total_value
  end.

Definition estimate_slippage (book : OrderBook.t) (quantity : double) (side : Side)
  : double :=
  let levels :=
    match side with
    | BUY => OrderBook.get_asks book
    | SELL => OrderBook.get_bids book
    end in
  let total_value := walk_levels levels quantity 0 in
  if Qeq_bool total_value 0 then 0
  else
    let vwap := total_value / quantity in
    let best_price :=
      match side with
      | BUY => OrderBook.get_best_ask book
      | SELL => OrderBook.get_best_bid book
      end in
    Qabs (vwap - best_price) / best_price.

Definition get_dynamic_threshold (now : TimePoint) (st : t) : double :=
  let seconds_since_last := duration_cast ns_per_s now (last_opportunity_time_ st) in
  if (60 <? seconds_since_last)%Z
  then base_min_profit_bps (config_ st) * min_profit_decay_rate (config_ st)
  else base_min_profit_bps (config_ st).

(** The two scans over [books]: cheapest ask, then highest bid. *)
Definition best_buy_step (acc : Venue * double * double)
    (entry : Venue * OrderBook.t) : Venue * double * double :=
  let '(best_buy_venue, best_buy_price, best_buy_liquidity) := acc in
  let ask := OrderBook.get_best_ask entry.2 in
  if Qlt_bool 0 ask && Qlt_bool ask best_buy_price then
    (entry.1, ask,
     match OrderBook.get_asks entry.2 with
     | [] => best_buy_liquidity
     | (_, qty) :: _ => qty
     end)
  else acc.

Definition best_sell_step (acc : Venue * double * double)
    (entry : Venue * OrderBook.t) : Venue * double * double :=
  let '(best_sell_venue, best_sell_price, best_sell_liquidity) := acc in
  let bid := OrderBook.get_best_bid entry.2 in
  if Qlt_bool best_sell_price bid then
    (entry.1, bid,
     match OrderBook.get_bids entry.2 with
     | [] => best_sell_liquidity
     | (_, qty) :: _ => qty
     end)
  else acc.

Definition find_best_buy (books : list (Venue * OrderBook.t)) :=
  foldl best_buy_step (UNKNOWN, DBL_MAX, 0) books.
Definition find_best_sell (books : list (Venue * OrderBook.t)) :=
  foldl best_sell_step (UNKNOWN, 0, 0) books.

(** The freshness loop over [{best_buy_venue, best_sell_venue}]. *)
Definition age_step (now : TimePoint) (timestamps : list (Venue * TimePoint))
    (max_age : Z) (venue : Venue) : Z :=
  match assoc_find timestamps venue with
  | Some ts => Z.max max_age (duration_cast ns_per_ms now ts)
  | None => max_age
  end.

Definition max_orderbook_age (now : TimePoint) (timestamps : list (Venue * TimePoint))
    (best_buy_venue best_sell_venue : Venue) : Z :=
  foldl (age_step now timestamps) 0%Z [best_buy_venue; best_sell_venue].

(** The slippage estimate of the chosen venues, when both books are found. *)
Definition estimate_total_slippage_bps (cfg : Config)
    (books : list (Venue * OrderBook.t))
    (best_buy_venue best_sell_venue : Venue) (best_buy_price : double)
  : option double :=
  match assoc_find books best_buy_venue, assoc_find books best_sell_venue with
  | Some buy_book, Some sell_book =>
      let target_qty := position_size_usd cfg / best_buy_price in
      let buy_slippage := estimate_slippage buy_book target_qty BUY in
      let sell_slippage := estimate_slippage sell_book target_qty SELL in
      Some ((buy_slippage + sell_slippage) * 10000)
  | _, _ => None
  end.

Definition set_reject_reason (o : EnhancedArbOpportunity) (r : string) :=
  mkOpp (symbol o) (buy_venue o) (sell_venue o) (buy_price o) (sell_price o)
    (gross_profit_bps o) (fees_bps o) (slippage_bps o) (net_profit_bps o)
    (expected_profit_usd o) (execute_quantity o) (buy_liquidity_available o)
    (sell_liquidity_available o) (detection_latency_us o) (orderbook_age_ms o)
    (is_valid o) r.

(** [detect_global_best_opportunity]; [start], [now], [now_threshold] and
    [end_] are its four successive clock readings. *)
Definition detect_global_best_opportunity
    (start now now_threshold end_ : TimePoint) (st : t) (sym : string)
    (books : list (Venue * OrderBook.t)) (timestamps : list (Venue * TimePoint))
  : option EnhancedArbOpportunity * t :=
  let cfg := config_ st in
  if (max_concurrent_arbs cfg <=? active_arbs_ st)%Z then (None, st) else
  let '(best_buy_venue, best_buy_price, best_buy_liquidity) := find_best_buy books in
  let '(best_sell_venue, best_sell_price, best_sell_liquidity) :=
    find_best_sell books in
  if bool_decide (best_buy_venue = UNKNOWN)
     || bool_decide (best_sell_venue = UNKNOWN)
     || bool_decide (best_buy_venue = best_sell_venue)
  then (None, st) else
  let gross := ((best_sell_price - best_buy_price) / best_buy_price) * 10000 in
  let fees := get_fee_bps best_buy_venue + get_fee_bps best_sell_venue in
  let slippage_opt :=
    estimate_total_slippage_bps cfg books best_buy_venue best_sell_venue
      best_buy_price in
  let slippage := default 0 slippage_opt in
  let opp :=
    mkOpp sym best_buy_venue best_sell_venue best_buy_price best_sell_price
      gross fees slippage 0 0 0 best_buy_liquidity best_sell_liquidity 0 0 false "" in
  if match slippage_opt with
     | Some s => Qlt_bool (max_slippage_bps cfg) s
     | None => false
     end
  then (Some (set_reject_reason opp "Slippage too high"), st) else
  let net := gross - fees - slippage in
  (* check order-book freshness *)
  let max_age := max_orderbook_age now timestamps best_buy_venue best_sell_venue in
  let opp :=
    mkOpp sym best_buy_venue best_sell_venue best_buy_price best_sell_price
      gross fees slippage net 0 0 best_buy_liquidity best_sell_liquidity
      0 max_age false "" in
  if (max_orderbook_staleness_ms cfg <? max_age)%Z
  then (Some (set_reject_reason opp "Orderbook too stale"), st) else
  let threshold := get_dynamic_threshold now_threshold st in
  if Qlt_bool net threshold
  then (Some (set_reject_reason opp "Net profit below threshold"), st) else
  let max_qty := std_min best_buy_liquidity best_sell_liquidity in
  let max_notional := max_qty * best_buy_price in
  let target_notional := std_min (position_size_usd cfg) max_notional in
  let latency := duration_cast ns_per_us end_ start in
  let opp :=
    mkOpp sym best_buy_venue best_sell_venue best_buy_price best_sell_price
      gross fees slippage net ((net / 10000) * target_notional)
      (target_notional / best_buy_price) best_buy_liquidity best_sell_liquidity
      latency max_age false "" in
  if Qlt_bool (max_execution_latency_us cfg) (inject_Z latency)
  then (Some (set_reject_reason opp "Detection too slow"), st) else
  (Some (mkOpp sym best_buy_venue best_sell_venue best_buy_price best_sell_price
           gross fees slippage net ((net / 10000) * target_notional)
           (target_notional / best_buy_price) best_buy_liquidity
           best_sell_liquidity latency max_age true ""),
   mk cfg (active_arbs_ st) (opportunities_last_minute_ st + 1)%Z now).

Definition on_arbitrage_executed (st : t) : t :=
  mk (config_ st) (active_arbs_ st + 1)%Z (opportunities_last_minute_ st)
     (last_opportunity_time_ st).

Definition on_arbitrage_completed (st : t) : t :=
  mk (config_ st) (active_arbs_ st - 1)%Z (opportunities_last_minute_ st)
     (last_opportunity_time_ st).

End LatencyArbOptimized.

(** ** core/circular_buffer.hpp *)

Module CircularBuffer.

Section Ring.
Context {T : Type}.

Record t := mk {
  data_ : list T;
  capacity_ : nat;
  size_ : nat;
  head_ : nat;   (* next write position *)
  tail_ : nat    (* oldest element position *)
}.

(** The constructor throws on capacity 0 ([None]).  The slots start
    with the unspecified content [slot]. *)
Definition new (capacity : nat) (slot : T) : option t :=
  if decide (capacity = 0)%nat then None
  else Some (mk (replicate capacity slot) capacity 0 0 0).

Definition push_back (b : t) (value : T) : t :=
  let data := <[head_ b := value]> (data_ b) in
  let head := ((head_ b + 1) mod capacity_ b)%nat in
  if decide (size_ b < capacity_ b)%nat
  then mk data (capacity_ b) (S (size_ b)) head (tail_ b)
  else mk data (capacity_ b) (size_ b) head ((tail_ b + 1) mod capacity_ b)%nat.

(** [pop_front], [front], [back] and [operator[]] throw on a bad
    access ([None]). *)
Definition pop_front (b : t) : option t :=
  if decide (size_ b = 0)%nat then None
  else Some (mk (data_ b) (capacity_ b) (size_ b - 1)
                (head_ b) ((tail_ b + 1) mod capacity_ b)%nat).

Definition at_ (b : t) (index : nat) : option T :=
  if decide (size_ b ≤ index)%nat then None
  else data_ b !! ((tail_ b + index) mod capacity_ b)%nat.

Definition front (b : t) : option T :=
  if decide (size_ b = 0)%nat then None else data_ b !! tail_ b.

Definition back (b : t) : option T :=
  if decide (size_ b = 0)%nat then None
  else
    let back_idx :=
      if decide (head_ b = 0)%nat then (capacity_ b - 1)%nat
      else (head_ b - 1)%nat in
    data_ b !! back_idx.

Definition size (b : t) : nat := size_ b.
Definition capacity (b : t) : nat := capacity_ b.
Definition empty (b : t) : bool := bool_decide (size_ b = 0%nat).
Definition full (b : t) : bool := bool_decide (size_ b = capacity_ b).

Definition clear (b : t) : t := mk (data_ b) (capacity_ b) 0 0 0.

(** Assignment through the reference [operator[]] returns. *)
Definition set_at (b : t) (index : nat) (value : T) : t :=
  mk (<[((tail_ b + index) mod capacity_ b)%nat := value]> (data_ b))
     (capacity_ b) (size_ b) (head_ b) (tail_ b).

(** The elements a range-based [for] visits, oldest first. *)
Definition to_list (b : t) : list T :=
  omap (at_ b) (seq 0 (size_ b)).

End Ring.

Arguments t : clear implicits.

End CircularBuffer.

(** ** strategies/pairs_trading.hpp *)

Module RunningStats.

Section Arithmetic.
Context {D : Type} (ar : Arith D).

Record t := mk {
  count_ : Z;
  mean_ : D;
  m2_ : D    (* sum of squared differences from the mean *)
}.

Definition new : t := mk 0 (d_zero ar) (d_zero ar).

Definition push (s : t) (x : D) : t :=
  let count := (count_ s + 1)%Z in
  let delta := d_sub ar x (mean_ s) in
  let mean := d_add ar (mean_ s) (d_div ar delta (d_of_int ar count)) in
  let delta2 := d_sub ar x mean in
  mk count mean (d_add ar (m2_ s) (d_mul ar delta delta2)).

Definition pop_front (s : t) (x : D) : t :=
  if (count_ s =? 0)%Z then s
  else
    let count := (count_ s - 1)%Z in
    if (count =? 0)%Z then mk count (d_zero ar) (d_zero ar)
    else
      let delta := d_sub ar x (mean_ s) in
      let mean := d_sub ar (mean_ s) (d_div ar delta (d_of_int ar count)) in
      let delta2 := d_sub ar x mean in
      mk count mean (d_sub ar (m2_ s) (d_mul ar delta delta2)).

Definition mean (s : t) : D := mean_ s.
Definition variance (s : t) : D :=
  if (1 <? count_ s)%Z then d_div ar (m2_ s) (d_of_int ar (count_ s - 1))
  else d_zero ar.
Definition stddev (s : t) : D := d_sqrt ar (variance s).
Definition count (s : t) : Z := count_ s.

End Arithmetic.

Arguments t : clear implicits.

End RunningStats.

Module PairsTradingStrategy.

Record Config {D : Type} := mkConfig {
  symbol1 : string;
  symbol2 : string;
  lookback_period : Z;
  entry_z_score : D;
  exit_z_score : D;
  stop_loss_z_score : D;
  position_size_usd : D;
  min_correlation : D
}.

Arguments Config : clear implicits.

Definition Config_default : Config double :=
  mkConfig double "ETHUSDT" "BTCUSDT" 200 2 0.3 3.5 5000 0.75.

Record t {D : Type} := mk {
  config_ : Config D;
  ratio_history_ : CircularBuffer.t D;
  stats_calculator_ : RunningStats.t D;
  mean_ratio_ : D;
  std_ratio_ : D
}.

Arguments t : clear implicits.

(** The statistics of the ratio window are written over the arithmetic
    [ar] of [double]. *)
Section Arithmetic.
Context {D : Type} (ar : Arith D).

(** The constructor; the ring's constructor throws unless the lookback
    period is a positive capacity. *)
Definition new (config : Config D) : option (t D) :=
  if (lookback_period config <=? 0)%Z then None
  else
    match CircularBuffer.new (Z.to_nat (lookback_period config)) (d_zero ar) with
    | Some ring =>
        Some (mk D config ring (RunningStats.new ar) (d_zero ar) (d_zero ar))
    | None => None
    end.

(** [update_prices]; [None] is an exception thrown by the ring. *)
Definition update_prices (s : t D) (price1 price2 : D) : option (t D) :=
  let ratio := d_div ar price1 price2 in
  match
    (if CircularBuffer.full (ratio_history_ s) then
       match CircularBuffer.front (ratio_history_ s) with
       | Some old_ratio =>
           Some (RunningStats.pop_front ar (stats_calculator_ s) old_ratio)
       | None => None
       end
     else Some (stats_calculator_ s))
  with
  | None => None
  | Some stats =>
      let ring := CircularBuffer.push_back (ratio_history_ s) ratio in
      let stats := RunningStats.push ar stats ratio in
      if (20 <=? RunningStats.count stats)%Z
      then Some (mk D (config_ s) ring stats
                   (RunningStats.mean stats) (RunningStats.stddev ar stats))
      else Some (mk D (config_ s) ring stats (mean_ratio_ s) (std_ratio_ s))
  end.

(** A sequence of [update_prices] calls, oldest first. *)
Fixpoint run_updates (s : t D) (prices : list (D * D)) : option (t D) :=
  match prices with
  | [] => Some s
  | (price1, price2) :: tl =>
      match update_prices s price1 price2 with
      | Some s' => run_updates s' tl
      | None => None
      end
  end.

End Arithmetic.

Record PairSignal := mkPairSignal {
  ps_symbol1 : string;
  ps_symbol2 : string;
  symbol1_side : Side;
  symbol2_side : Side;
  ratio : double;
  mean_ratio : double;
  std_ratio : double;
  z_score : double;
  entry_price1 : double;
  entry_price2 : double;
  target_price1 : double;
  target_price2 : double;
  stop_price1 : double;
  stop_price2 : double;
  expected_profit_bps : double;
  generated_at : TimePoint;
  is_valid : bool
}.

(** The two entry branches of [generate_signal] differ in the sides and
    in the sign of the stop distance. *)
Definition entry_signal (now : TimePoint) (s : t double)
    (current_price1 current_price2 current_ratio z : double)
    (side1 side2 : Side) (stop_ratio : double) : PairSignal :=
  let entry_ratio := current_price1 / current_price2 in
  let target_ratio := mean_ratio_ s in
  mkPairSignal (symbol1 (config_ s)) (symbol2 (config_ s)) side1 side2
    current_ratio (mean_ratio_ s) (std_ratio_ s) z
    current_price1 current_price2
    (mean_ratio_ s * current_price2) current_price2
    (stop_ratio * current_price2) current_price2
    (Qabs ((target_ratio - entry_ratio) / entry_ratio) * 10000)
    now true.

(** [generate_signal].  The first test compares [size()] with
    [lookback_period / 2] as unsigned numbers; the period is positive in
    every constructed strategy, where the comparison on [Z] agrees. *)
Definition generate_signal (now : TimePoint) (s : t double)
    (current_price1 current_price2 : double) : PairSignal :=
  let cfg := config_ s in
  let unset (ratio mean_ratio std_ratio z : double) :=
    mkPairSignal (symbol1 cfg) (symbol2 cfg) BUY SELL ratio mean_ratio std_ratio z
      0 0 0 0 0 0 0 now false in
  if (Z.of_nat (CircularBuffer.size (ratio_history_ s)) <? lookback_period cfg ÷ 2)%Z
  then unset 0 0 0 0                                   (* not enough data *)
  else
    let current_ratio := current_price1 / current_price2 in
    if Qlt_bool (std_ratio_ s) 0.000001
    then unset current_ratio (mean_ratio_ s) (std_ratio_ s) 0   (* no volatility *)
    else
      let z := (current_ratio - mean_ratio_ s) / std_ratio_ s in
      if Qlt_bool (Qabs z) (entry_z_score cfg)
      then unset current_ratio (mean_ratio_ s) (std_ratio_ s) z
      else if Qlt_bool (entry_z_score cfg) z
      then entry_signal now s current_price1 current_price2 current_ratio z
             SELL BUY (mean_ratio_ s + stop_loss_z_score cfg * std_ratio_ s)
      else if Qlt_bool z (- entry_z_score cfg)
      then entry_signal now s current_price1 current_price2 current_ratio z
             BUY SELL (mean_ratio_ s - stop_loss_z_score cfg * std_ratio_ s)
      else unset current_ratio (mean_ratio_ s) (std_ratio_ s) z.

Definition should_exit (s : t double) (current_price1 current_price2 : double)
    (entry : PairSignal) : bool :=
  let current_ratio := current_price1 / current_price2 in
  let current_z := (current_ratio - mean_ratio_ s) / std_ratio_ s in
  if Qlt_bool (Qabs current_z) (exit_z_score (config_ s)) then true
  else
    match symbol1_side entry with
    | SELL => Qlt_bool (stop_loss_z_score (config_ s)) current_z
    | BUY => Qlt_bool current_z (- stop_loss_z_score (config_ s))
    end.

(** [create_pair_orders]; [now1] and [now2] are the two clock readings. *)
Definition create_pair_orders (now1 now2 : TimePoint) (s : t double)
    (signal : PairSignal)
  : Order * Order :=
  let qty1 := position_size_usd (config_ s) / entry_price1 signal in
  let qty2 := position_size_usd (config_ s) / entry_price2 signal in
  (mkOrder "" "" (ps_symbol1 signal) UNKNOWN (symbol1_side signal) LIMIT
     (entry_price1 signal) qty1 0 0 PENDING "" now1 0 0 0 "PAIRS_TRADING" 0 0,
   mkOrder "" "" (ps_symbol2 signal) UNKNOWN (symbol2_side signal) LIMIT
     (entry_price2 signal) qty2 0 0 PENDING "" now2 0 0 0 "PAIRS_TRADING" 0 0).

(** [get_current_z_score]; [None] is the exception of [back], which the
    emptiness test rules out. *)
Definition get_current_z_score (s : t double) : option double :=
  if CircularBuffer.empty (ratio_history_ s) || Qlt_bool (std_ratio_ s) 0.000001
  then Some 0
  else
    match CircularBuffer.back (ratio_history_ s) with
    | Some last => Some ((last - mean_ratio_ s) / std_ratio_ s)
    | None => None
    end.

End PairsTradingStrategy.

(** ** strategies/adverse_selection_filter.hpp *)

Module AdverseSelectionFilter.

Record Config := mkConfig {
  lookback_trades : Z;
  toxic_threshold : double;
  spread_multiplier_low : double;
  spread_multiplier_medium : double;
  spread_multiplier_high : double;
  price_movement_window_ms : Z;
  significant_price_move_bps : double
}.

Definition Config_default : Config := mkConfig 20 0.6 1 1.5 2.5 500 5.

Record ToxicityMetrics := mkToxicityMetrics {
  toxicity_score : double;
  toxicity_level : string;
  recommended_spread_mult : double;
  fill_adverse_ratio : double;
  avg_adverse_move_bps : double;
  trade_size_percentile : double;
  time_since_last_toxic_fill_ms : double
}.

Definition ToxicityMetrics_default : ToxicityMetrics :=
  mkToxicityMetrics 0 "LOW" 1 0 0 0.5 10000.

Record FillEvent := mkFillEvent {
  our_side : Side;
  fill_price : double;
  fill_quantity : double;
  fill_time : TimePoint;
  price_after_500ms : double;
  was_adverse : bool;
  adverse_move_bps : double
}.

Definition FillEvent_default : FillEvent := mkFillEvent BUY 0 0 0 0 false 0.

(** [last_toxic_fill_time_] is [TimePoint{}] (0) until a toxic fill. *)
Record t := mk {
  config_ : Config;
  fill_history_ : CircularBuffer.t FillEvent;
  last_toxic_fill_time_ : TimePoint;
  cached_toxicity_score_ : double;
  cached_spread_mult_ : double;
  needs_recalc_ : bool
}.

Definition new (config : Config) : option t :=
  if (lookback_trades config <=? 0)%Z then None
  else
    match CircularBuffer.new (Z.to_nat (lookback_trades config)) FillEvent_default with
    | Some ring => Some (mk config ring 0 0 1 true)
    | None => None
    end.

Definition record_fill (now : TimePoint) (s : t) (side : Side)
    (price quantity : double) : t :=
  let fill := mkFillEvent side price quantity now 0 false 0 in
  mk (config_ s) (CircularBuffer.push_back (fill_history_ s) fill)
     (last_toxic_fill_time_ s) (cached_toxicity_score_ s)
     (cached_spread_mult_ s) true.

(** The body of the loop of [update_current_price] at logical index [i];
    the accumulator is the ring, [last_toxic_fill_time_], [any_updated]. *)
Definition analyze_fill (now : TimePoint) (cfg : Config) (price : double)
    (acc : CircularBuffer.t FillEvent * TimePoint * bool) (i : nat)
  : CircularBuffer.t FillEvent * TimePoint * bool :=
  let '(ring, last_toxic, any_updated) := acc in
  match CircularBuffer.at_ ring i with
  | None => acc
  | Some fill =>
      if Qlt_bool 0 (price_after_500ms fill) then acc  (* already analyzed *)
      else
        let age_ms := duration_cast ns_per_ms now (fill_time fill) in
        if (price_movement_window_ms cfg <=? age_ms)%Z then
          let move_bps := ((price - fill_price fill) / fill_price fill) * 10000 in
          let adverse :=
            match our_side fill with
            | BUY => Qlt_bool move_bps (- significant_price_move_bps cfg)
            | SELL => Qlt_bool (significant_price_move_bps cfg) move_bps
            end in
          let fill' :=
            mkFillEvent (our_side fill) (fill_price fill) (fill_quantity fill)
              (fill_time fill) price adverse move_bps in
          (CircularBuffer.set_at ring i fill',
           if adverse then now else last_toxic,
           true)
        else acc
  end.

Definition update_current_price (now : TimePoint) (s : t) (price : double) : t :=
  let '(ring, last_toxic, any_updated) :=
    foldl (analyze_fill now (config_ s) price)
      (fill_history_ s, last_toxic_fill_time_ s, false)
      (seq 0 (CircularBuffer.size (fill_history_ s))) in
  mk (config_ s) ring last_toxic (cached_toxicity_score_ s)
     (cached_spread_mult_ s) (if any_updated then true else needs_recalc_ s).

(** The counting loop of [calculate_toxicity]:
    analyzed fills, adverse fills, total adverse move. *)
Definition count_fill (acc : Z * Z * double) (fill : FillEvent) : Z * Z * double :=
  let '(analyzed_fills, adverse_count, total_adverse_move) := acc in
  if Qlt_bool 0 (price_after_500ms fill) then
    if was_adverse fill
    then ((analyzed_fills + 1)%Z, (adverse_count + 1)%Z,
          total_adverse_move + Qabs (adverse_move_bps fill))
    else ((analyzed_fills + 1)%Z, adverse_count, total_adverse_move)
  else acc.

(** The score of the three components and its tier. *)
Definition score_of (adverse_ratio avg_adverse_move time_since_ms : double) : double :=
  let ratio_component := adverse_ratio in
  let magnitude_component := std_min (avg_adverse_move / 20) 1 in
  let recency_component := std_max 0 (1 - time_since_ms / 10000) in
  ratio_component * 0.5 + magnitude_component * 0.3 + recency_component * 0.2.

Definition tier_of (cfg : Config) (score : double) : string * double :=
  if Qlt_bool score 0.3 then ("LOW", spread_multiplier_low cfg)
  else if Qlt_bool score 0.6 then ("MEDIUM", spread_multiplier_medium cfg)
  else ("HIGH", spread_multiplier_high cfg).

Definition calculate_toxicity (now : TimePoint) (s : t) : ToxicityMetrics * t :=
  if negb (needs_recalc_ s) then
    (mkToxicityMetrics (cached_toxicity_score_ s) "LOW" (cached_spread_mult_ s)
       0 0 0.5 10000, s)
  else
    let '(analyzed_fills, adverse_count, total_adverse_move) :=
      foldl count_fill (0%Z, 0%Z, 0) (CircularBuffer.to_list (fill_history_ s)) in
    let adverse_ratio :=
      if (0 <? analyzed_fills)%Z
      then inject_Z adverse_count / inject_Z analyzed_fills else 0 in
    let avg_adverse_move :=
      if (0 <? adverse_count)%Z
      then total_adverse_move / inject_Z adverse_count else 0 in
    let time_since_ms :=
      if (last_toxic_fill_time_ s =? 0)%Z then 10000
      else inject_Z (duration_cast ns_per_ms now (last_toxic_fill_time_ s)) in
    let score := score_of adverse_ratio avg_adverse_move time_since_ms in
    let '(level, mult) := tier_of (config_ s) score in
    (mkToxicityMetrics score level mult adverse_ratio avg_adverse_move 0.5
       time_since_ms,
     mk (config_ s) (fill_history_ s) (last_toxic_fill_time_ s) score mult false).

Definition should_widen_spreads (now : TimePoint) (s : t) : bool * t :=
  let '(metrics, s') := calculate_toxicity now s in
  (Qlt_bool (toxic_threshold (config_ s)) (toxicity_score metrics), s').

Definition get_spread_multiplier (now : TimePoint) (s : t) : double * t :=
  let '(metrics, s') := calculate_toxicity now s in
  (recommended_spread_mult metrics, s').

(** [reset]: clears the history and the time of the last toxic fill; the
    cache and its flag are not touched. *)
Definition reset (s : t) : t :=
  mk (config_ s) (CircularBuffer.clear (fill_history_ s)) 0
     (cached_toxicity_score_ s) (cached_spread_mult_ s) (needs_recalc_ s).

Record AdverseSelectionStats := mkAdverseSelectionStats {
  total_fills : Z;
  adverse_fills : Z;
  adverse_fill_rate : double;
  stats_avg_adverse_move_bps : double;
  total_adverse_cost : double
}.

(** The first loop of [get_stats]: analyzed fills, adverse fills, total
    adverse cost. *)
Definition stats_fill (acc : Z * Z * double) (fill : FillEvent) : Z * Z * double :=
  let '(total, adverse, cost) := acc in
  if Qlt_bool 0 (price_after_500ms fill) then
    if was_adverse fill
    then ((total + 1)%Z, (adverse + 1)%Z,
          cost + Qabs (adverse_move_bps fill)
                 * (fill_quantity fill * fill_price fill) / 10000)
    else ((total + 1)%Z, adverse, cost)
  else acc.

Definition get_stats (s : t) : AdverseSelectionStats :=
  let fills := CircularBuffer.to_list (fill_history_ s) in
  let '(total, adverse, cost) := foldl stats_fill (0%Z, 0%Z, 0) fills in
  let rate := if (0 <? total)%Z then inject_Z adverse / inject_Z total else 0 in
  let avg :=
    if (0 <? adverse)%Z then
      let weighted_sum :=
        foldl (fun acc fill =>
                 if was_adverse fill then acc + Qabs (adverse_move_bps fill) else acc)
              0 fills in
      weighted_sum / inject_Z adverse
    else 0 in
  mkAdverseSelectionStats total adverse rate avg cost.

End AdverseSelectionFilter.

Module AdverseSelectionAwareMM.

Record Config := mkConfig {
  base_spread_bps : double;
  filter_config : AdverseSelectionFilter.Config
}.

Definition Config_default : Config :=
  mkConfig 2 AdverseSelectionFilter.Config_default.

Record t := mk {
  config_ : Config;
  filter_ : AdverseSelectionFilter.t
}.

Definition new (config : Config) : option t :=
  match AdverseSelectionFilter.new (filter_config config) with
  | Some f => Some (mk config f)
  | None => None
  end.

(** [calculate_quotes]: the pair (bid, ask) and the state after the
    filter's cached computation. *)
Definition calculate_quotes (now : TimePoint) (s : t) (mid_price : double)
  : (double * double) * t :=
  let '(spread_mult, f) :=
    AdverseSelectionFilter.get_spread_multiplier now (filter_ s) in
  let adjusted_spread_bps := base_spread_bps (config_ s) * spread_mult in
  let half_spread := (adjusted_spread_bps / 10000) * mid_price / 2 in
  let bid := mid_price - half_spread in
  let ask := mid_price + half_spread in
  ((bid, ask), mk (config_ s) f).

Definition on_fill (now : TimePoint) (s : t) (our_side : Side)
    (price quantity : double) : t :=
  mk (config_ s)
     (AdverseSelectionFilter.record_fill now (filter_ s) our_side price quantity).

Definition on_price_update (now : TimePoint) (s : t) (price : double) : t :=
  mk (config_ s) (AdverseSelectionFilter.update_current_price now (filter_ s) price).

Definition get_toxicity (now : TimePoint) (s : t)
  : AdverseSelectionFilter.ToxicityMetrics * t :=
  let '(m, f) := AdverseSelectionFilter.calculate_toxicity now (filter_ s) in
  (m, mk (config_ s) f).

End AdverseSelectionAwareMM.

(** ** strategies/latency_arbitrage.hpp *)

Module LatencyArbitrageStrategy.

Record Config := mkConfig {
  venues : list Venue;
  min_profit_bps : double;
  max_execution_latency_us : double;
  position_size_usd : double;
  max_concurrent_arbs : Z;
  fee_bps : double
}.

Definition Config_default : Config :=
  mkConfig [BINANCE; BYBIT; COINBASE] 12 200 5000 3 4.

Record ArbitrageOpportunity := mkOpp {
  symbol : string;
  buy_venue : Venue;
  buy_price : double;
  buy_quantity_available : double;
  sell_venue : Venue;
  sell_price : double;
  sell_quantity_available : double;
  gross_profit_bps : double;
  net_profit_bps : double;
  expected_profit_usd : double;
  detected_at : TimePoint;
  detection_latency_us : Z;
  execute_quantity : double;
  is_valid : bool
}.

(** [ArbitrageOpportunity()] with the symbol assigned. *)
Definition ArbitrageOpportunity_for (sym : string) : ArbitrageOpportunity :=
  mkOpp sym UNKNOWN 0 0 UNKNOWN 0 0 0 0 0 0 0 0 false.

(** The statistics are not part of the state modelled. *)
Record t := mk {
  config_ : Config;
  active_arbs_ : Z;
  venue_pairs_ : list (Venue * Venue)
}.

(** The pairs [(venues[i], venues[j])], [i < j], in the order of the
    two nested loops of the constructor. *)
Fixpoint all_pairs (vs : list Venue) : list (Venue * Venue) :=
  match vs with
  | [] => []
  | v :: tl => map (fun w => (v, w)) tl ++ all_pairs tl
  end.

Definition new (config : Config) : t := mk config 0 (all_pairs (venues config)).

Definition check_arb_direction (cfg : Config) (sym : string)
    (buy_venue : Venue) (buy_book : OrderBook.t)
    (sell_venue : Venue) (sell_book : OrderBook.t)
    (best_opp : ArbitrageOpportunity) : ArbitrageOpportunity :=
  let buy_ask := OrderBook.get_best_ask buy_book in
  let sell_bid := OrderBook.get_best_bid sell_book in
  if Qle_bool buy_ask 0 || Qle_bool sell_bid 0 then best_opp else
  let gross_profit_bps := ((sell_bid - buy_ask) / buy_ask) * 10000 in
  let net_profit_bps := gross_profit_bps - fee_bps cfg in
  if Qle_bool net_profit_bps (LatencyArbitrageStrategy.net_profit_bps best_opp)
  then best_opp else
  match OrderBook.get_asks buy_book, OrderBook.get_bids sell_book with
  | (_, buy_qty) :: _, (_, sell_qty) :: _ =>
      let max_qty := std_min buy_qty sell_qty in
      let max_notional := max_qty * buy_ask in
      let target_notional := std_min (position_size_usd cfg) max_notional in
      let execute_qty := target_notional / buy_ask in
      mkOpp (symbol best_opp) buy_venue buy_ask buy_qty sell_venue sell_bid sell_qty
        gross_profit_bps net_profit_bps
        ((net_profit_bps / 10000) * target_notional)
        (detected_at best_opp) (detection_latency_us best_opp)
        execute_qty (is_valid best_opp)
  | _, _ => best_opp
  end.

(** The body of the loop over [venue_pairs_]: both books must be
    listed, then both directions are tried. *)
Definition pair_step (cfg : Config) (sym : string)
    (books : list (Venue * OrderBook.t))
    (best_opp : ArbitrageOpportunity) (pair : Venue * Venue)
  : ArbitrageOpportunity :=
  match assoc_find books pair.1, assoc_find books pair.2 with
  | Some book1, Some book2 =>
      check_arb_direction cfg sym pair.2 book2 pair.1 book1
        (check_arb_direction cfg sym pair.1 book1 pair.2 book2 best_opp)
  | _, _ => best_opp
  end.

(** [detect_opportunity]; [start] and [end_] are its two clock readings.
    [books] lists the entries of the hash map (keys pairwise distinct). *)
Definition detect_opportunity (start end_ : TimePoint) (st : t) (sym : string)
    (books : list (Venue * OrderBook.t)) : option ArbitrageOpportunity :=
  let cfg := config_ st in
  if (max_concurrent_arbs cfg <=? active_arbs_ st)%Z then None else
  let best_opp :=
    foldl (pair_step cfg sym books) (ArbitrageOpportunity_for sym)
      (venue_pairs_ st) in
  let latency := duration_cast ns_per_us end_ start in
  if Qle_bool (min_profit_bps cfg) (net_profit_bps best_opp)
     && Qlt_bool (inject_Z latency) (max_execution_latency_us cfg)
  then
    Some (mkOpp (symbol best_opp) (buy_venue best_opp) (buy_price best_opp)
            (buy_quantity_available best_opp) (sell_venue best_opp)
            (sell_price best_opp) (sell_quantity_available best_opp)
            (gross_profit_bps best_opp) (net_profit_bps best_opp)
            (expected_profit_usd best_opp) end_ latency
            (execute_quantity best_opp) true)
  else None.

(** [create_arb_orders]; [now_buy] and [now_sell] are the two clock
    readings.  The call also takes an arbitrage slot. *)
Definition create_arb_orders (now_buy now_sell : TimePoint) (st : t)
    (opp : ArbitrageOpportunity) : (Order * Order) * t :=
  ((mkOrder "" "" (symbol opp) (buy_venue opp) BUY LIMIT_IOC (buy_price opp)
      (execute_quantity opp) 0 0 PENDING "" now_buy 0 0 0 "LATENCY_ARB" 0 0,
    mkOrder "" "" (symbol opp) (sell_venue opp) SELL LIMIT_IOC (sell_price opp)
      (execute_quantity opp) 0 0 PENDING "" now_sell 0 0 0 "LATENCY_ARB" 0 0),
   mk (config_ st) (active_arbs_ st + 1)%Z (venue_pairs_ st)).

Definition complete_arbitrage (st : t) : t :=
  mk (config_ st) (active_arbs_ st - 1)%Z (venue_pairs_ st).

Definition get_active_arbs (st : t) : Z := active_arbs_ st.

End LatencyArbitrageStrategy.

(** ** strategies/volatility_arbitrage.hpp *)

Module VolatilityArbitrageStrategy.

Record Config := mkConfig {
  atr_period : Z;
  high_vol_multiplier : double;
  low_vol_multiplier : double;
  high_vol_entry_threshold : double;
  low_vol_entry_threshold : double;
  target_profit_bps : double;
  stop_loss_bps : double;
  position_size_usd : double;
  max_hold_minutes : Z
}.

Definition Config_default : Config := mkConfig 14 1.5 0.7 1.3 0.8 20 10 5000 15.

Inductive VolatilityRegime := HIGH | NORMAL | LOW.

Record VolSignal := mkVolSignal {
  symbol : string;
  regime : VolatilityRegime;
  strategy_type : string;
  primary_side : Side;
  current_atr : double;
  avg_atr : double;
  atr_ratio : double;
  entry_price : double;
  target_price : double;
  stop_price : double;
  expected_profit_bps : double;
  generated_at : TimePoint;
  is_valid : bool
}.

(** The statistics are not part of the state modelled. *)
Record t := mk {
  config_ : Config;
  price_history_ : CircularBuffer.t double;
  atr_history_ : CircularBuffer.t double;
  current_atr_ : double;
  avg_atr_ : double
}.

(** The constructor; the rings' constructor throws unless twice the
    period is a positive capacity. *)
Definition new (config : Config) : option t :=
  if (atr_period config * 2 <=? 0)%Z then None
  else
    price_history ← CircularBuffer.new (Z.to_nat (atr_period config * 2)) 0;
    atr_history ← CircularBuffer.new 50 0;
    Some (mk config price_history atr_history 0 0).

(** The loop of [calculate_atr] over the indices [idxs]; [operator[]]
    throws out of range ([None]), also at [i - 1] for [i = 0]. *)
Fixpoint sum_true_range (prices : CircularBuffer.t double) (idxs : list nat)
    (sum_tr : double) : option double :=
  match idxs with
  | [] => Some sum_tr
  | i :: tl =>
      high ← CircularBuffer.at_ prices i;
      low ← CircularBuffer.at_ prices i;
      prev_close ← (if decide (i = 0)%nat then None
                    else CircularBuffer.at_ prices (i - 1));
      let tr :=
        std_max (std_max (high - low) (Qabs (high - prev_close)))
          (Qabs (low - prev_close)) in
      sum_true_range prices tl (sum_tr + tr)
  end.

(** [calculate_atr].  The size is compared with [atr_period + 1] as
    unsigned numbers; the period is positive in every constructed
    strategy, where the comparison on [Z] agrees. *)
Definition calculate_atr (s : t) : option double :=
  let history_size := CircularBuffer.size (price_history_ s) in
  if (Z.of_nat history_size <? atr_period (config_ s) + 1)%Z then Some 0
  else
    let start_idx := (history_size - Z.to_nat (atr_period (config_ s)))%nat in
    sum_tr ← sum_true_range (price_history_ s)
              (seq start_idx (history_size - start_idx)) 0;
    Some (sum_tr / inject_Z (atr_period (config_ s))).

(** The summation loop of [update_price] over the ring of ATR values. *)
Fixpoint sum_at (b : CircularBuffer.t double) (idxs : list nat) (sum : double)
  : option double :=
  match idxs with
  | [] => Some sum
  | i :: tl => x ← CircularBuffer.at_ b i; sum_at b tl (sum + x)
  end.

Definition update_price (s : t) (price : double) : option t :=
  let price_history := CircularBuffer.push_back (price_history_ s) price in
  let s1 := mk (config_ s) price_history (atr_history_ s)
              (current_atr_ s) (avg_atr_ s) in
  if (atr_period (config_ s) + 1 <=? Z.of_nat (CircularBuffer.size price_history))%Z
  then
    current_atr ← calculate_atr s1;
    let atr_history := CircularBuffer.push_back (atr_history_ s) current_atr in
    if (10 <=? CircularBuffer.size atr_history)%nat then
      sum ← sum_at atr_history (seq 0 (CircularBuffer.size atr_history)) 0;
      Some (mk (config_ s) price_history atr_history current_atr
              (sum / inject_Z (Z.of_nat (CircularBuffer.size atr_history))))
    else Some (mk (config_ s) price_history atr_history current_atr (avg_atr_ s))
  else Some s1.

Definition detect_regime (s : t) : VolatilityRegime :=
  if Qlt_bool (avg_atr_ s) 0.000001 then NORMAL
  else
    let ratio := current_atr_ s / avg_atr_ s in
    if Qlt_bool (high_vol_entry_threshold (config_ s)) ratio then HIGH
    else if Qlt_bool ratio (low_vol_entry_threshold (config_ s)) then LOW
    else NORMAL.

(** The relative move over the last five prices, when ten are held. *)
Definition recent_move (s : t) : option (option double) :=
  if (CircularBuffer.size (price_history_ s) <? 10)%nat then Some None
  else
    current ← CircularBuffer.back (price_history_ s);
    prev_5 ← CircularBuffer.at_ (price_history_ s)
               (CircularBuffer.size (price_history_ s) - 6);
    Some (Some ((current - prev_5) / prev_5)).

Definition is_recent_price_spike_up (s : t) : option bool :=
  move ← recent_move s;
  Some match move with Some move_pct => Qlt_bool 0.01 move_pct | None => false end.

Definition is_recent_price_spike_down (s : t) : option bool :=
  move ← recent_move s;
  Some match move with Some move_pct => Qlt_bool move_pct (- 0.01) | None => false end.

(** [generate_signal]; [None] is an exception thrown by the ring. *)
Definition generate_signal (now : TimePoint) (s : t) (current_price : double)
  : option VolSignal :=
  let cfg := config_ s in
  if Qlt_bool (avg_atr_ s) 0.000001
     || (Z.of_nat (CircularBuffer.size (price_history_ s)) <? atr_period cfg + 1)%Z
  then Some (mkVolSignal "" NORMAL "NONE" BUY (current_atr_ s) (avg_atr_ s) 1
               0 0 0 0 now false)                      (* not enough data *)
  else
    let atr_ratio := current_atr_ s / avg_atr_ s in
    match detect_regime s with
    | HIGH =>
        up ← is_recent_price_spike_up s;
        if (up : bool) then
          Some (mkVolSignal "" HIGH "MEAN_REVERT" SELL (current_atr_ s) (avg_atr_ s)
                  atr_ratio current_price
                  (current_price * (1 - target_profit_bps cfg / 10000))
                  (current_price * (1 + stop_loss_bps cfg / 10000))
                  (target_profit_bps cfg) now true)
        else
          down ← is_recent_price_spike_down s;
          if (down : bool) then
            Some (mkVolSignal "" HIGH "MEAN_REVERT" BUY (current_atr_ s) (avg_atr_ s)
                    atr_ratio current_price
                    (current_price * (1 + target_profit_bps cfg / 10000))
                    (current_price * (1 - stop_loss_bps cfg / 10000))
                    (target_profit_bps cfg) now true)
          else
            Some (mkVolSignal "" HIGH "MEAN_REVERT" BUY (current_atr_ s) (avg_atr_ s)
                    atr_ratio current_price 0 0 0 now false)   (* no clear direction *)
    | LOW =>
        Some (mkVolSignal "" LOW "STRADDLE" BUY (current_atr_ s) (avg_atr_ s)
                atr_ratio current_price
                (current_price * (1 + target_profit_bps cfg / 10000))
                (current_price * (1 - stop_loss_bps cfg / 10000))
                (target_profit_bps cfg) now true)
    | NORMAL =>
        Some (mkVolSignal "" NORMAL "NONE" BUY (current_atr_ s) (avg_atr_ s)
                atr_ratio 0 0 0 0 now false)
    end.

Definition create_order_from_signal (now : TimePoint) (signal : VolSignal)
    (quantity : double) : Order :=
  mkOrder "" "" (symbol signal) UNKNOWN (primary_side signal) LIMIT
    (entry_price signal) quantity 0 0 PENDING "" now 0 0 0 "VOL_ARB" 0 0.

Definition get_current_atr (s : t) : double := current_atr_ s.
Definition get_avg_atr (s : t) : double := avg_atr_ s.

End VolatilityArbitrageStrategy.

(** ** strategies/strategy_coordinator.hpp *)

Module StrategyCoordinator.

Record Config := mkConfig {
  enable_obi : bool;
  enable_latency_arb : bool;
  enable_pairs : bool;
  enable_adverse_filter : bool;
  enable_vol_arb : bool;
  obi_config : OrderBookImbalanceStrategy.Config;
  latency_arb_config : LatencyArbitrageStrategy.Config;
  pairs_config : PairsTradingStrategy.Config double;
  adverse_filter_config : AdverseSelectionFilter.Config;
  vol_arb_config : VolatilityArbitrageStrategy.Config;
  max_total_positions : Z;
  max_total_notional : double
}.

Definition Config_default : Config :=
  mkConfig true true true true true
    OrderBookImbalanceStrategy.Config_default
    LatencyArbitrageStrategy.Config_default
    PairsTradingStrategy.Config_default
    AdverseSelectionFilter.Config_default
    VolatilityArbitrageStrategy.Config_default
    20 150000.

(** The strategy instances; an absent [unique_ptr] is [None].  The risk
    manager is a reference to an object the coordinator does not own and
    is an argument of the operations.  [pairs_strategies_], which the
    code iterates, lists its entries in iteration order;
    [vol_arb_strategies_] is only looked up by symbol. *)
Record t := mk {
  config_ : Config;
  obi_strategy_ : option OrderBookImbalanceStrategy.Config;
  latency_arb_strategy_ : option LatencyArbitrageStrategy.t;
  pairs_strategies_ : list (string * PairsTradingStrategy.t double);
  adverse_filter_ : option AdverseSelectionFilter.t;
  vol_arb_strategies_ : gmap string VolatilityArbitrageStrategy.t
}.

Definition with_symbols (c : PairsTradingStrategy.Config double)
    (symbol1 symbol2 : string) : PairsTradingStrategy.Config double :=
  PairsTradingStrategy.mkConfig double symbol1 symbol2
    (PairsTradingStrategy.lookback_period c)
    (PairsTradingStrategy.entry_z_score c)
    (PairsTradingStrategy.exit_z_score c)
    (PairsTradingStrategy.stop_loss_z_score c)
    (PairsTradingStrategy.position_size_usd c)
    (PairsTradingStrategy.min_correlation c).

(** The predicate of the [std::remove_if] call. *)
Definition is_mm (o : Order) : bool := String.eqb (o_strategy_name o) "MM".

(** [calculate_position_size].  At a price of 0 the code divides by
    zero and returns an infinity (a NaN for no notional), which the
    quotient on rationals, 0 there, does not show: what is said of the
    quantity is said for a price other than 0. *)
Definition calculate_position_size (symbol : string) (price : double)
    (strategy : string) : double :=
  let base_notional :=
    if String.eqb strategy "OBI" then 3000
    else if String.eqb strategy "LATENCY_ARB" then 5000
    else if String.eqb strategy "PAIRS" then 5000
    else if String.eqb strategy "VOL_ARB" then 4000
    else 5000 in
  base_notional / price.

(** [order.symbol = symbol] *)
Definition set_symbol (order : Order) (symbol : string) : Order :=
  mkOrder (o_order_id order) (o_client_order_id order) symbol
    (o_venue order) (o_side order) (o_type order) (o_price order)
    (o_quantity order) (o_filled_quantity order)
    (o_remaining_quantity order) (o_status order)
    (o_reject_reason order) (o_created_time order)
    (o_sent_time order) (o_ack_time order) (o_completed_time order)
    (o_strategy_name order) (o_signal_id order) (o_risk_notional order).

(** The clock readings of one call of [process_market_update], one for
    each place where the call reads the clock; the three places inside
    the loop over the pairs are read once for each pair. *)
Record Readings := mkReadings {
  at_obi_analyze : TimePoint;
  at_obi_expiry : TimePoint;
  at_obi_order : TimePoint;
  at_arb_start : TimePoint;
  at_arb_end : TimePoint;
  at_arb_buy : TimePoint;
  at_arb_sell : TimePoint;
  at_pair_signal : string -> TimePoint;
  at_pair_order1 : string -> TimePoint;
  at_pair_order2 : string -> TimePoint;
  at_vol_signal : TimePoint;
  at_vol_order : TimePoint;
  at_filter_update : TimePoint;
  at_filter_calc : TimePoint
}.

(** Step 1 of [process_market_update]: the order book imbalance signal,
    its expiry test, the risk check (made on a default-constructed
    order) and the order that is appended.  The three time arguments
    are the clock readings of [analyze], [is_signal_expired] and
    [create_order_from_signal]. *)
Definition obi_step (now_analyze now_expiry now_order : TimePoint)
    (enable_obi : bool)
    (obi_strategy_ : option OrderBookImbalanceStrategy.Config)
    (risk_manager_ : RiskManager)
    (symbol : string) (book : OrderBook.t) (orders : list Order)
  : list Order :=
  let current_price := OrderBook.get_mid_price book in
  match obi_strategy_ with
  | Some cfg =>
      if enable_obi then
        let obi_signal :=
          OrderBookImbalanceStrategy.analyze now_analyze cfg symbol book in
        if OrderBookImbalanceStrategy.is_valid obi_signal
           && negb (OrderBookImbalanceStrategy.is_signal_expired now_expiry cfg obi_signal)
        then
          let risk_check := check_order risk_manager_ Order_default current_price in
          if passed risk_check then
            let quantity := calculate_position_size symbol current_price "OBI" in
            let order :=
              OrderBookImbalanceStrategy.create_order_from_signal now_order
                obi_signal quantity in
            orders ++
              [mkOrder (o_order_id order) (o_client_order_id order) symbol
                 (o_venue order) (o_side order) (o_type order) (o_price order)
                 (o_quantity order) (o_filled_quantity order)
                 (o_remaining_quantity order) (o_status order)
                 (o_reject_reason order) (o_created_time order)
                 (o_sent_time order) (o_ack_time order) (o_completed_time order)
                 (o_strategy_name order) (o_signal_id order) (o_risk_notional order)]
          else orders
        else orders
      else orders
  | None => orders
  end.

(** Step 2: latency arbitrage.  The source declares [all_books] with
    string keys and passes it to [detect_opportunity], which takes a map
    keyed by venue; the parameter has the type of the callee here. *)
Definition latency_arb_step (now : Readings) (enable_latency_arb : bool)
    (latency_arb_strategy_ : option LatencyArbitrageStrategy.t)
    (risk_manager_ : RiskManager) (symbol : string)
    (all_books : list (Venue * OrderBook.t)) (orders : list Order)
  : list Order * option LatencyArbitrageStrategy.t :=
  match latency_arb_strategy_ with
  | Some strategy =>
      if enable_latency_arb && (1 <? length all_books)%nat then
        match LatencyArbitrageStrategy.detect_opportunity
                (at_arb_start now) (at_arb_end now) strategy symbol all_books with
        | Some arb_opp =>
            if LatencyArbitrageStrategy.is_valid arb_opp then
              let '((buy_order, sell_order), strategy) :=
                LatencyArbitrageStrategy.create_arb_orders
                  (at_arb_buy now) (at_arb_sell now) strategy arb_opp in
              let buy_check :=
                check_order risk_manager_ buy_order
                  (LatencyArbitrageStrategy.buy_price arb_opp) in
              let sell_check :=
                check_order risk_manager_ sell_order
                  (LatencyArbitrageStrategy.sell_price arb_opp) in
              if passed buy_check && passed sell_check
              then (orders ++ [buy_order; sell_order], Some strategy)
              else (orders, Some strategy)
            else (orders, Some strategy)
        | None => (orders, Some strategy)
        end
      else (orders, latency_arb_strategy_)
  | None => (orders, latency_arb_strategy_)
  end.

Section WithSqrt.
(** [std::sqrt], which the pairs statistics call. *)
Variable sqrt : double -> double.

(** The constructor; [None] is an exception of a strategy's constructor. *)
Definition new (config : Config) : option t :=
  pairs ←
    (if enable_pairs config then
       eth_btc ← PairsTradingStrategy.new (exact sqrt)
                   (with_symbols (pairs_config config) "ETHUSDT" "BTCUSDT");
       sol_btc ← PairsTradingStrategy.new (exact sqrt)
                   (with_symbols (pairs_config config) "SOLUSDT" "BTCUSDT");
       Some [("ETH_BTC", eth_btc); ("SOL_BTC", sol_btc)]
     else Some []);
  adverse_filter ←
    (if enable_adverse_filter config
     then Some <$> AdverseSelectionFilter.new (adverse_filter_config config)
     else Some None);
  vol_arb ←
    (if enable_vol_arb config then
       btc ← VolatilityArbitrageStrategy.new (vol_arb_config config);
       eth ← VolatilityArbitrageStrategy.new (vol_arb_config config);
       Some (<["ETHUSDT" := eth]> (<["BTCUSDT" := btc]> ∅))
     else Some ∅);
  Some (mk config
          (if enable_obi config then Some (obi_config config) else None)
          (if enable_latency_arb config
           then Some (LatencyArbitrageStrategy.new (latency_arb_config config))
           else None)
          pairs adverse_filter vol_arb).

(** Step 3, the body of the loop over [pairs_strategies_] for one
    pair; [None] is an exception. *)
Definition pair_step (now : Readings) (risk_manager_ : RiskManager)
    (current_prices : gmap string double)
    (pair_name : string) (strategy : PairsTradingStrategy.t double)
    (orders : list Order)
  : option (list Order * PairsTradingStrategy.t double) :=
  match
    current_prices !! PairsTradingStrategy.symbol1
                        (PairsTradingStrategy.config_ strategy),
    current_prices !! PairsTradingStrategy.symbol2
                        (PairsTradingStrategy.config_ strategy)
  with
  | Some price1, Some price2 =>
      strategy ← PairsTradingStrategy.update_prices (exact sqrt) strategy
                   price1 price2;
      let pair_signal :=
        PairsTradingStrategy.generate_signal (at_pair_signal now pair_name)
          strategy price1 price2 in
      if PairsTradingStrategy.is_valid pair_signal then
        let '(order1, order2) :=
          PairsTradingStrategy.create_pair_orders
            (at_pair_order1 now pair_name) (at_pair_order2 now pair_name)
            strategy pair_signal in
        let check1 := check_order risk_manager_ order1 price1 in
        let check2 := check_order risk_manager_ order2 price2 in
        if passed check1 && passed check2
        then Some (orders ++ [order1; order2], strategy)
        else Some (orders, strategy)
      else Some (orders, strategy)
  | _, _ => Some (orders, strategy)
  end.

(** Step 3: the loop over the pairs. *)
Fixpoint pairs_step (now : Readings) (risk_manager_ : RiskManager)
    (current_prices : gmap string double)
    (strategies : list (string * PairsTradingStrategy.t double))
    (orders : list Order)
  : option (list Order * list (string * PairsTradingStrategy.t double)) :=
  match strategies with
  | [] => Some (orders, [])
  | (pair_name, strategy) :: rest =>
      '(orders, strategy) ← pair_step now risk_manager_ current_prices
                              pair_name strategy orders;
      '(orders, rest) ← pairs_step now risk_manager_ current_prices rest orders;
      Some (orders, (pair_name, strategy) :: rest)
  end.

(** Step 4: volatility arbitrage on the strategy of the symbol. *)
Definition vol_arb_step (now : Readings) (risk_manager_ : RiskManager)
    (vol_arb_strategies_ : gmap string VolatilityArbitrageStrategy.t)
    (symbol : string) (current_price : double) (orders : list Order)
  : option (list Order * gmap string VolatilityArbitrageStrategy.t) :=
  match vol_arb_strategies_ !! symbol with
  | Some strategy =>
      strategy ← VolatilityArbitrageStrategy.update_price strategy current_price;
      vol_signal ← VolatilityArbitrageStrategy.generate_signal
                     (at_vol_signal now) strategy current_price;
      let strategies := <[symbol := strategy]> vol_arb_strategies_ in
      if VolatilityArbitrageStrategy.is_valid vol_signal then
        let quantity := calculate_position_size symbol current_price "VOL_ARB" in
        let order :=
          set_symbol
            (VolatilityArbitrageStrategy.create_order_from_signal
               (at_vol_order now) vol_signal quantity) symbol in
        let risk_check := check_order risk_manager_ order current_price in
        if passed risk_check
        then Some (orders ++ [order], strategies)
        else Some (orders, strategies)
      else Some (orders, strategies)
  | None => Some (orders, vol_arb_strategies_)
  end.

(** Step 5, applied to the vector [orders] that the steps 1 to 4
    have filled; [now_update] and [now_calc] are the clock readings
    of the two filter calls. *)
Definition apply_adverse_filter (now_update now_calc : TimePoint)
    (enable_adverse_filter : bool)
    (adverse_filter_ : option AdverseSelectionFilter.t)
    (current_price : double) (orders : list Order)
  : list Order * option AdverseSelectionFilter.t :=
  match adverse_filter_ with
  | Some filter_ =>
      if enable_adverse_filter then
        let filter_ :=
          AdverseSelectionFilter.update_current_price now_update filter_
            current_price in
        let '(toxicity, filter_) :=
          AdverseSelectionFilter.calculate_toxicity now_calc filter_ in
        if Qlt_bool 0.7 (AdverseSelectionFilter.toxicity_score toxicity)
        then (filter (fun o => negb (is_mm o)) orders, Some filter_)
        else (orders, Some filter_)
      else (orders, adverse_filter_)
  | None => (orders, adverse_filter_)
  end.

(** The steps 1 to 4 of [process_market_update]: the local vector
    [orders], empty at first, as the four strategies leave it, and
    the coordinator with the strategies' new states. *)
Definition strategy_steps (now : Readings) (c : t) (risk_manager_ : RiskManager)
    (symbol : string) (book : OrderBook.t)
    (all_books : list (Venue * OrderBook.t))
    (current_prices : gmap string double)
  : option (list Order * t) :=
  let cfg := config_ c in
  let orders : list Order := [] in
  let current_price := OrderBook.get_mid_price book in
  (* 1. order book imbalance *)
  let orders :=
    obi_step (at_obi_analyze now) (at_obi_expiry now) (at_obi_order now)
      (enable_obi cfg) (obi_strategy_ c) risk_manager_ symbol book orders in
  (* 2. latency arbitrage *)
  let '(orders, latency_arb_strategy) :=
    latency_arb_step now (enable_latency_arb cfg) (latency_arb_strategy_ c)
      risk_manager_ symbol all_books orders in
  (* 3. pairs trading *)
  '(orders, pairs_strategies) ←
    (if enable_pairs cfg
     then pairs_step now risk_manager_ current_prices (pairs_strategies_ c) orders
     else Some (orders, pairs_strategies_ c));
  (* 4. volatility arbitrage *)
  '(orders, vol_arb_strategies) ←
    (if enable_vol_arb cfg
     then vol_arb_step now risk_manager_ (vol_arb_strategies_ c) symbol
            current_price orders
     else Some (orders, vol_arb_strategies_ c));
  Some (orders,
        mk cfg (obi_strategy_ c) latency_arb_strategy pairs_strategies
          (adverse_filter_ c) vol_arb_strategies).

(** [process_market_update]: the returned vector and the coordinator
    after the call; [None] is an exception thrown by a ring. *)
Definition process_market_update (now : Readings) (c : t)
    (risk_manager_ : RiskManager)
    (symbol : string) (book : OrderBook.t)
    (all_books : list (Venue * OrderBook.t))
    (current_prices : gmap string double)
  : option (list Order * t) :=
  '(orders, c) ← strategy_steps now c risk_manager_ symbol book all_books
                   current_prices;
  (* 5. adverse selection filter *)
  let '(orders, adverse_filter) :=
    apply_adverse_filter (at_filter_update now) (at_filter_calc now)
      (enable_adverse_filter (config_ c)) (adverse_filter_ c)
      (OrderBook.get_mid_price book) orders in
  Some (orders,
        mk (config_ c) (obi_strategy_ c) (latency_arb_strategy_ c)
          (pairs_strategies_ c) adverse_filter (vol_arb_strategies_ c)).

End WithSqrt.

(** [on_fill]: the fill is recorded in the adverse selection filter. *)
Definition on_fill (now : TimePoint) (c : t) (fill : Fill) : t :=
  match adverse_filter_ c with
  | Some filter_ =>
      if enable_adverse_filter (config_ c)
      then mk (config_ c) (obi_strategy_ c) (latency_arb_strategy_ c)
             (pairs_strategies_ c)
             (Some (AdverseSelectionFilter.record_fill now filter_
                      (f_side fill) (f_price fill) (f_quantity fill)))
             (vol_arb_strategies_ c)
      else c
  | None => c
  end.

End StrategyCoordinator.

(** ** Notions the statements are phrased in *)

(** The signed quantity [s] of a fill: [+quantity] on BUY, [-quantity] on SELL. *)
Definition signed_quantity (fill : Fill) : double :=
  match f_side fill with BUY => f_quantity fill | SELL => - f_quantity fill end.

(** The sum of a list of rationals. *)
Definition Qsum (l : list Q) : Q := fold_right Qplus 0 l.




(** Latency arbitrage: the venues the two scans choose, and the gates that
    precede the freshness check (a free arbitrage slot, two distinct known
    venues, slippage within the limit). *)
Definition chosen_buy_venue (books : list (Venue * OrderBook.t)) : Venue :=
  (LatencyArbOptimized.find_best_buy books).1.1.
Definition chosen_sell_venue (books : list (Venue * OrderBook.t)) : Venue :=
  (LatencyArbOptimized.find_best_sell books).1.1.

Definition reaches_freshness_check (st : LatencyArbOptimized.t)
    (books : list (Venue * OrderBook.t)) : bool :=
  let cfg := LatencyArbOptimized.config_ st in
  let bv := chosen_buy_venue books in
  let sv := chosen_sell_venue books in
  negb (LatencyArbOptimized.max_concurrent_arbs cfg
        <=? LatencyArbOptimized.active_arbs_ st)%Z
  && negb (bool_decide (bv = UNKNOWN) || bool_decide (sv = UNKNOWN)
           || bool_decide (bv = sv))
  && negb match LatencyArbOptimized.estimate_total_slippage_bps cfg books bv sv
                  (LatencyArbOptimized.find_best_buy books).1.2 with
          | Some s => Qlt_bool (LatencyArbOptimized.max_slippage_bps cfg) s
          | None => false
          end.

(** Order tracker: every order is filed under its own client id. *)
Definition keys_ok (tr : OrderTracker.t) : Prop :=
  forall k o, OrderTracker.orders_ tr !! k = Some o -> o_client_order_id o = k.

(** The invariant of the active index: a held order's client id is in the
    active set exactly when its stored status is NEW or PARTIALLY_FILLED. *)
Definition active_index_ok (tr : OrderTracker.t) : Prop :=
  forall k o, OrderTracker.orders_ tr !! k = Some o ->
    (o_client_order_id o ∈ OrderTracker.active_orders_ tr <-> is_active o = true).

(** The active set names held orders only. *)
Definition active_held (tr : OrderTracker.t) : Prop :=
  forall k, k ∈ OrderTracker.active_orders_ tr ->
            is_Some (OrderTracker.orders_ tr !! k).

Definition tracker_inv (tr : OrderTracker.t) : Prop :=
  keys_ok tr /\ active_held tr /\ active_index_ok tr.

(** The state-changing operations of the tracker. *)
Inductive tracker_op :=
| Track (order : Order)
| Update (client_order_id : string) (updated : Order)
| Cleanup (now : TimePoint) (retention_period : Z).

Definition run_op (tr : OrderTracker.t) (op : tracker_op) : OrderTracker.t :=
  match op with
  | Track order => OrderTracker.track_order tr order
  | Update client_order_id updated =>
      OrderTracker.update_order tr client_order_id updated
  | Cleanup now retention_period =>
      (OrderTracker.cleanup_completed now retention_period tr).1
  end.

(** What the operations expect of their arguments: [track_order] does not
    replace a held active order by one that is not active, and
    [update_order] files the replacement under the client id it carries. *)
Definition op_ok (tr : OrderTracker.t) (op : tracker_op) : Prop :=
  match op with
  | Track order =>
      forall old,
        OrderTracker.orders_ tr !! o_client_order_id order = Some old ->
        is_active old = true -> is_active order = true
  | Update client_order_id updated => o_client_order_id updated = client_order_id
  | Cleanup _ _ => True
  end.

(** A sequence of operations, each acceptable in the state it runs in. *)
Fixpoint ops_ok (tr : OrderTracker.t) (ops : list tracker_op) : Prop :=
  match ops with
  | [] => True
  | op :: ops' => op_ok tr op /\ ops_ok (run_op tr op) ops'
  end.

(** A ring represents the list [l] of its elements, oldest first. *)
Definition ring_repr {T : Type} (b : CircularBuffer.t T) (l : list T) : Prop :=
  (length (CircularBuffer.data_ b) = CircularBuffer.capacity_ b
   /\ 0 < CircularBuffer.capacity_ b
   /\ CircularBuffer.size_ b = length l
   /\ CircularBuffer.size_ b <= CircularBuffer.capacity_ b
   /\ CircularBuffer.tail_ b < CircularBuffer.capacity_ b
   /\ CircularBuffer.head_ b
      = (CircularBuffer.tail_ b + CircularBuffer.size_ b)
          mod CircularBuffer.capacity_ b
   /\ forall i, i < CircularBuffer.size_ b ->
        CircularBuffer.data_ b
          !! ((CircularBuffer.tail_ b + i) mod CircularBuffer.capacity_ b)
        = l !! i)%nat.


(** Risk manager: a run of fills, each with the clock reading of its call. *)
Definition run_fills (rm : RiskManager) (fills : list (TimePoint * Fill))
  : RiskManager :=
  foldl (fun rm nf => on_fill nf.1 rm nf.2) rm fills.

(** Order tracker: the test of [cleanup_completed] on one order, a
    complete order whose age in whole seconds exceeds the retention. *)
Definition past_retention (now : TimePoint) (retention_period : Z) (o : Order)
  : bool :=
  is_complete o
  && (retention_period <? duration_cast ns_per_s now (o_completed_time o))%Z.

(** Circuit breaker: the calls that change it, and what holds of the two
    counters in every state a breaker can reach. *)
Inductive breaker_op :=
| BreakerAllow (now : TimePoint)
| BreakerSuccess
| BreakerFailure (now : TimePoint) (reason : string)
| BreakerOpen (now : TimePoint) (reason : string)
| BreakerClose.

Definition run_breaker_op (cb : CircuitBreaker.t) (op : breaker_op)
  : CircuitBreaker.t :=
  match op with
  | BreakerAllow now => (CircuitBreaker.allow_request now cb).2
  | BreakerSuccess => CircuitBreaker.record_success cb
  | BreakerFailure now reason => CircuitBreaker.record_failure now cb reason
  | BreakerOpen now reason => CircuitBreaker.open now cb reason
  | BreakerClose => CircuitBreaker.close cb
  end.

Definition breaker_inv (cb : CircuitBreaker.t) : Prop :=
  let cfg := CircuitBreaker.config_ cb in
  (0 <= CircuitBreaker.success_count_ cb < CircuitBreaker.success_threshold cfg)%Z
  /\ (CircuitBreaker.state_ cb = CircuitBreaker.CLOSED ->
      CircuitBreaker.success_count_ cb = 0%Z
      /\ (0 <= CircuitBreaker.failure_count_ cb
          < CircuitBreaker.failure_threshold cfg)%Z).

(** Error rate tracker: errors recorded at the clock readings [times],
    oldest first, and the age test of the eviction loop. *)
Definition run_errors (config : ErrorRateTracker.Config) (times : list TimePoint)
  : ErrorRateTracker.t :=
  foldl (fun s now => ErrorRateTracker.record_error now s)
        (ErrorRateTracker.new config) times.

Definition within_window (window : Z) (now time : TimePoint) : Prop :=
  (duration_cast ns_per_s now time <= window)%Z.
#[global] Instance within_window_dec window now time :
  Decision (within_window window now time).
Proof. unfold within_window. apply _. Defined.

(** Order book: one side is in order when its prices are strictly in the
    order of its comparator and every quantity is positive; the quantity
    listed at a price; and the calls that change a book. *)
Definition side_ok (before : double -> double -> bool)
    (levels : list (double * double)) : Prop :=
  StronglySorted (fun l1 l2 => before l1.1 l2.1 = true) levels
  /\ Forall (fun l => 0 < l.2) levels.

Definition book_ok (b : OrderBook.t) : Prop :=
  side_ok OrderBook.greater (OrderBook.bids_ b)
  /\ side_ok OrderBook.less (OrderBook.asks_ b).

Fixpoint level_quantity (levels : list (double * double)) (price : double)
  : option double :=
  match levels with
  | [] => None
  | (p, q) :: rest => if Qeq_bool p price then Some q else level_quantity rest price
  end.

Inductive book_op :=
| BookBid (price quantity : double)
| BookAsk (price quantity : double)
| BookClear.

Definition run_book_op (b : OrderBook.t) (op : book_op) : OrderBook.t :=
  match op with
  | BookBid price quantity => OrderBook.update_bid b price quantity
  | BookAsk price quantity => OrderBook.update_ask b price quantity
  | BookClear => OrderBook.clear b
  end.

(** What the two comparators have in common. *)
Definition price_order (before : double -> double -> bool) : Prop :=
  (forall a b c, before a b = true -> before b c = true -> before a c = true)
  /\ (forall a b, before a b = false -> before b a = false -> a == b)
  /\ (forall a b, a == b -> before a b = false /\ before b a = false)
  /\ (forall a a' b, a == a' -> before a b = before a' b /\ before b a = before b a').

(** Latency arbitrage of the coordinator: the opportunity [best] buys at
    the best ask of one listed venue and sells at the best bid of
    another, the two being a configured pair of venues, with its gross
    and net profit computed from these prices. *)
Definition arb_found (st : LatencyArbitrageStrategy.t) (sym : string)
    (books : list (Venue * OrderBook.t))
    (best : LatencyArbitrageStrategy.ArbitrageOpportunity) : Prop :=
  exists buy_book sell_book,
    ((LatencyArbitrageStrategy.buy_venue best,
      LatencyArbitrageStrategy.sell_venue best)
       ∈ LatencyArbitrageStrategy.venue_pairs_ st
     \/ (LatencyArbitrageStrategy.sell_venue best,
         LatencyArbitrageStrategy.buy_venue best)
          ∈ LatencyArbitrageStrategy.venue_pairs_ st)
    /\ assoc_find books (LatencyArbitrageStrategy.buy_venue best) = Some buy_book
    /\ assoc_find books (LatencyArbitrageStrategy.sell_venue best) = Some sell_book
    /\ LatencyArbitrageStrategy.buy_price best = OrderBook.get_best_ask buy_book
    /\ LatencyArbitrageStrategy.sell_price best = OrderBook.get_best_bid sell_book
    /\ 0 < LatencyArbitrageStrategy.buy_price best
    /\ 0 < LatencyArbitrageStrategy.sell_price best
    /\ LatencyArbitrageStrategy.gross_profit_bps best
       = (LatencyArbitrageStrategy.sell_price best
          - LatencyArbitrageStrategy.buy_price best)
         / LatencyArbitrageStrategy.buy_price best * 10000
    /\ LatencyArbitrageStrategy.net_profit_bps best
       = LatencyArbitrageStrategy.gross_profit_bps best
         - LatencyArbitrageStrategy.fee_bps (LatencyArbitrageStrategy.config_ st).

(** ** Scenarios: the concrete inputs the properties are evaluated on *)

Module Scenario.

Definition fill_of (side : Side) (sym : string) (price quantity fee : double)
    (received : TimePoint) : Fill :=
  mkFill "F1" "X1" "C1" sym side price quantity fee "USDT" false BINANCE
    received received received 0 0 0 0.

(** A long position of 1 BTC opened at 50 000. *)
Definition rm_long_btc : RiskManager :=
  on_fill 1 (RiskManager_new RiskLimits_default)
    (fill_of BUY "BTCUSDT" 50000 1 0 1).

(** SELL 1.5 BTC at 60 000 with fee 10: opposes and exceeds the position. *)
Definition flip_fill : Fill := fill_of SELL "BTCUSDT" 60000 1.5 10 2.

(** Daily realized P&L seeded at -5 001 under the default loss cap 5 000. *)
Definition rm_daily_loss : RiskManager :=
  mkRiskManager RiskLimits_default [] (-5001) 0 [].

(** A fill with a negative price and one with a negative quantity. *)
Definition negative_price_fill : Fill := fill_of BUY "BTCUSDT" (-100) 1 0 2.

(** Two long positions; the first mark prices BTC only, the second ETH only. *)
Definition rm_two_positions : RiskManager :=
  on_fill 2
    (on_fill 1 (RiskManager_new RiskLimits_default)
       (fill_of BUY "BTCUSDT" 100 1 0 1))
    (fill_of BUY "ETHUSDT" 100 1 0 2).
Definition marks_btc : gmap string double := {[ "BTCUSDT" := 150 ]}.
Definition marks_eth : gmap string double := {[ "ETHUSDT" := 150 ]}.
Definition marks_both : gmap string double :=
  {[ "BTCUSDT" := 150; "ETHUSDT" := 150 ]}.

(** OBI: bids sum 100 and asks sum 40 over five levels, mid price 100. *)
Definition obi_config : OrderBookImbalanceStrategy.Config :=
  OrderBookImbalanceStrategy.mkConfig 5 0.3 10 10 5 200.
Definition obi_book : OrderBook.t :=
  OrderBook.mk [(99, 50); (98, 30); (97, 20)] [(101, 25); (102, 15)].

(** OBI on the boundary: bids 3 and asks 1 give an imbalance of exactly
    0.5, the configured threshold. *)
Definition obi_boundary_config : OrderBookImbalanceStrategy.Config :=
  OrderBookImbalanceStrategy.mkConfig 5 0.5 1 10 5 200.
Definition obi_boundary_book : OrderBook.t :=
  OrderBook.mk [(100, 3)] [(101, 1)].

(** Latency arbitrage: BINANCE asks 1 000, KRAKEN bids 1 001 (10 bps
    apart), both deep enough for the 2 000 USD target; the staleness limit
    is 50 ms, BINANCE was updated 120 ms and KRAKEN 10 ms before [arb_now]. *)
Definition arb_now : TimePoint := 1000000000000.
Definition arb_books : list (Venue * OrderBook.t) :=
  [(BINANCE, OrderBook.mk [(999, 100)] [(1000, 100)]);
   (KRAKEN, OrderBook.mk [(1001, 100)] [(1002, 100)])].
Definition arb_timestamps : list (Venue * TimePoint) :=
  [(BINANCE, arb_now - 120 * ns_per_ms); (KRAKEN, arb_now - 10 * ns_per_ms)]%Z.
(** The other way round: the venue chosen to buy on is fresh and the one
    chosen to sell on is 120 ms old. *)
Definition arb_timestamps_sell_stale : list (Venue * TimePoint) :=
  [(BINANCE, arb_now - 10 * ns_per_ms); (KRAKEN, arb_now - 120 * ns_per_ms)]%Z.
Definition arb_state : LatencyArbOptimized.t :=
  LatencyArbOptimized.new (arb_now - ns_per_s)%Z LatencyArbOptimized.Config_default.

(** The same venues, but BINANCE offers only 1 unit at its best ask and
    the rest far away: the slippage gate fires before the freshness gate. *)
Definition arb_thin_books : list (Venue * OrderBook.t) :=
  [(BINANCE, OrderBook.mk [(999, 100)] [(1000, 1); (1100, 100)]);
   (KRAKEN, OrderBook.mk [(1001, 100)] [(1002, 100)])].

(** No arbitrage slot left: 3 arbitrages are active of at most 3. *)
Definition arb_state_busy : LatencyArbOptimized.t :=
  LatencyArbOptimized.on_arbitrage_executed
    (LatencyArbOptimized.on_arbitrage_executed
       (LatencyArbOptimized.on_arbitrage_executed arb_state)).

(** Adverse-selection filter: one BUY fill at 1 000 that is marked at 999
    (10 bps against us) 600 ms later; the coordinator ticks 10 s after. *)
Definition tox_t0 : TimePoint := 1000000000000.
Definition tox_filter_new : AdverseSelectionFilter.t :=
  AdverseSelectionFilter.mk AdverseSelectionFilter.Config_default
    (CircularBuffer.mk (replicate 20 AdverseSelectionFilter.FillEvent_default)
       20 0 0 0)
    0 0 1 true.
Definition tox_filter : AdverseSelectionFilter.t :=
  AdverseSelectionFilter.update_current_price (tox_t0 + 600 * ns_per_ms)%Z
    (AdverseSelectionFilter.record_fill tox_t0 tox_filter_new BUY 1000 1) 999.
Definition tox_tick : TimePoint := (tox_t0 + 10600 * ns_per_ms)%Z.
Definition tox_book : OrderBook.t := OrderBook.mk [(998, 1)] [(1000, 1)].
Definition order_tagged (tag client_id : string) : Order :=
  mkOrder "" client_id "BTCUSDT" BINANCE BUY LIMIT 999 1 0 1 PENDING ""
    0 0 0 0 tag 0 0.

Definition coord_tick : TimePoint := (tox_t0 + 600 * ns_per_ms)%Z.
Definition coord_readings : StrategyCoordinator.Readings :=
  StrategyCoordinator.mkReadings coord_tick coord_tick coord_tick coord_tick
    coord_tick coord_tick coord_tick (fun _ => coord_tick) (fun _ => coord_tick)
    (fun _ => coord_tick) coord_tick coord_tick coord_tick coord_tick.

(** Order tracker: the client id "c1" tracked as NEW, then as FILLED. *)
Definition order_with_status (client_id : string) (status : OrderStatus) : Order :=
  mkOrder "x1" client_id "BTCUSDT" BINANCE BUY LIMIT 100 1 0 1 status ""
    0 0 0 0 "OBI" 0 0.
Definition tracker_one_new : OrderTracker.t :=
  OrderTracker.track_order OrderTracker.empty (order_with_status "c1" NEW).

(** Pairs: a window of 3 ratios. *)
Definition pairs_config : PairsTradingStrategy.Config double :=
  PairsTradingStrategy.mkConfig double "ETHUSDT" "BTCUSDT" 3 2 0.3 3.5 5000 0.75.

Definition pairs_config64_long : PairsTradingStrategy.Config float :=
  PairsTradingStrategy.mkConfig float "ETHUSDT" "BTCUSDT" 25
    2%float 0.3%float 3.5%float 5000%float 0.75%float.
Definition pairs_ramp_prices : list (float * float) :=
  map (fun i => (float_of_int (Z.of_nat i), 2%float)) (seq 1 30).
Definition pairs_start64 (cfg : PairsTradingStrategy.Config float)
  : PairsTradingStrategy.t float :=
  PairsTradingStrategy.mk float cfg
    (CircularBuffer.mk
       (replicate (Z.to_nat (PairsTradingStrategy.lookback_period cfg)) 0%float)
       (Z.to_nat (PairsTradingStrategy.lookback_period cfg)) 0 0 0)
    (RunningStats.new binary64) 0%float 0%float.

(** Latency arbitrage with a wide gap: BINANCE asks 1 000 for 5 units,
    KRAKEN bids 1 010 for 3 units (100 bps apart, fees 26 bps), both
    books 10 ms old. *)
Definition arb_wide_books : list (Venue * OrderBook.t) :=
  [(BINANCE, OrderBook.mk [(999, 5)] [(1000, 5)]);
   (KRAKEN, OrderBook.mk [(1010, 3)] [(1011, 5)])].
Definition arb_fresh_timestamps : list (Venue * TimePoint) :=
  [(BINANCE, arb_now - 10 * ns_per_ms); (KRAKEN, arb_now - 10 * ns_per_ms)]%Z.

Definition arb_wide_run
  : option LatencyArbOptimized.EnhancedArbOpportunity * LatencyArbOptimized.t :=
  LatencyArbOptimized.detect_global_best_opportunity arb_now arb_now arb_now
    arb_now arb_state "BTCUSDT" arb_wide_books arb_fresh_timestamps.
Definition arb_wide_opp : LatencyArbOptimized.EnhancedArbOpportunity :=
  default
    (LatencyArbOptimized.mkOpp "" UNKNOWN UNKNOWN 0 0 0 0 0 0 0 0 0 0 0 0 false "")
    arb_wide_run.1.

(** Latency arbitrage of the coordinator: BINANCE asks 1 000 for 5
    units, BYBIT bids 1 010 for 3 units (100 bps apart, fee 4 bps). *)
Definition las_start : LatencyArbitrageStrategy.t :=
  LatencyArbitrageStrategy.new LatencyArbitrageStrategy.Config_default.
Definition las_books : list (Venue * OrderBook.t) :=
  [(BINANCE, OrderBook.mk [(999, 5)] [(1000, 5)]);
   (BYBIT, OrderBook.mk [(1010, 3)] [(1011, 5)])].
Definition las_opp : LatencyArbitrageStrategy.ArbitrageOpportunity :=
  default (LatencyArbitrageStrategy.ArbitrageOpportunity_for "")
    (LatencyArbitrageStrategy.detect_opportunity coord_tick coord_tick
       las_start "BTCUSDT" las_books).

(** Volatility arbitrage: a constructed strategy that has seen 24
    prices alternating between 100 and 102 and then 8 times 102. *)
Definition vol_prices : list double :=
  flat_map (fun _ => [100; 102]) (seq 0 12) ++ replicate 8 102.
Definition vol_run (prices : list double)
  : option VolatilityArbitrageStrategy.t :=
  foldl (fun s price => s ≫= fun s => VolatilityArbitrageStrategy.update_price s price)
    (VolatilityArbitrageStrategy.new VolatilityArbitrageStrategy.Config_default)
    prices.
Definition vol_calm : VolatilityArbitrageStrategy.t :=
  default
    (VolatilityArbitrageStrategy.mk VolatilityArbitrageStrategy.Config_default
       (CircularBuffer.mk [] 0 0 0 0) (CircularBuffer.mk [] 0 0 0 0) 0 0)
    (vol_run vol_prices).
Definition vol_signal : VolatilityArbitrageStrategy.VolSignal :=
  default
    (VolatilityArbitrageStrategy.mkVolSignal "" VolatilityArbitrageStrategy.NORMAL
       "NONE" BUY 0 0 1 0 0 0 0 0 false)
    (VolatilityArbitrageStrategy.generate_signal coord_tick vol_calm 102).

(** Pairs: a full window of 3 ratios with cached mean 2 and deviation 1;
    the prices 10 and 2 give the ratio 5, three deviations above. *)
Definition pairs_ready : PairsTradingStrategy.t double :=
  PairsTradingStrategy.mk double pairs_config (CircularBuffer.mk [1; 2; 3] 3 3 0 0)
    (RunningStats.mk 3 2 2) 2 1.

End Scenario.

(** * Properties *)

(** ** Comparisons on rationals *)

Lemma Qlt_bool_iff (x y : Q) : Qlt_bool x y = true <-> x < y.
Proof.
  unfold Qlt_bool. rewrite negb_true_iff, <- not_true_iff_false, Qle_bool_iff.
  split; [apply Qnot_le_lt | apply Qlt_not_le].
Qed.

Lemma Qlt_bool_false_iff (x y : Q) : Qlt_bool x y = false <-> y <= x.
Proof.
  unfold Qlt_bool. rewrite negb_false_iff. apply Qle_bool_iff.
Qed.

Lemma Qlt_bool_spec (x y : Q) : reflect (x < y) (Qlt_bool x y).
Proof.
  destruct (Qlt_bool x y) eqn:E; constructor.
  - now apply Qlt_bool_iff.
  - apply Qlt_bool_false_iff in E. now apply Qle_not_lt.
Qed.

(** ** Risk manager: pre-trade checks *)

(** C2. Whenever daily realized plus unrealized P&L is below
    [-max_daily_loss], [check_order] rejects every candidate order at every
    reference price with the reason "Daily loss limit exceeded", whatever
    the later checks would have said: the daily-loss check comes first. *)
Theorem check_order_daily_loss_first
    (rm : RiskManager) (order : Order) (current_price : double) :
  daily_realized_pnl_ rm + sum_over p_unrealized_pnl (positions_ rm)
    < - max_daily_loss (limits_ rm) ->
  check_order rm order current_price
  = mkRiskCheckResult false "Daily loss limit exceeded".
Proof.
  intros Hloss. unfold check_order, get_total_pnl_internal.
  apply Qlt_bool_iff in Hloss. now rewrite Hloss.
Qed.

Lemma check_order_daily_loss_first_witness :
  check_order Scenario.rm_daily_loss Order_default 100
  = mkRiskCheckResult false "Daily loss limit exceeded".
Proof.
  apply check_order_daily_loss_first. vm_compute. reflexivity.
Defined.

(** ** Risk manager: fill accounting *)

Lemma assoc_find_set {K V : Type} `{EqDecision K} (m : list (K * V)) (key : K) (v : V) :
  assoc_find (assoc_set m key v) key = Some v.
Proof.
  induction m as [|[k w] tl IH]; simpl.
  - now rewrite decide_True.
  - destruct (decide (k = key)) as [->|Hne]; simpl.
    + now rewrite decide_True.
    + now rewrite decide_False.
Qed.

Lemma assoc_find_set_ne {K V : Type} `{EqDecision K}
    (m : list (K * V)) (key key' : K) (v : V) :
  key <> key' -> assoc_find (assoc_set m key v) key' = assoc_find m key'.
Proof.
  intros Hne. induction m as [|[k w] tl IH]; simpl.
  - now rewrite decide_False.
  - destruct (decide (k = key)) as [->|Hk]; simpl.
    + now rewrite !decide_False.
    + destruct (decide (k = key')); [reflexivity | exact IH].
Qed.

(** A fill that opposes a position that is not flat takes the third branch:
    the quantity becomes the signed sum, P&L is realized on the closed
    part, and the entry price is left as it was, also when the fill
    exceeds the position and the sign flips. *)
Lemma apply_fill_opposing (pos : Position) (fill : Fill) :
  is_flat pos = false ->
  (is_long pos && bool_decide (f_side fill = BUY))
  || (is_short pos && bool_decide (f_side fill = SELL)) = false ->
  let pos' := (apply_fill pos fill).1 in
  p_quantity pos' = p_quantity pos + signed_quantity fill
  /\ p_avg_price pos' = p_avg_price pos.
Proof.
  intros Hflat Hopp. unfold apply_fill. rewrite Hflat, Hopp. simpl.
  split; reflexivity.
Qed.

Lemma on_fill_opposing (now : TimePoint) (rm : RiskManager) (fill : Fill)
    (pos : Position) :
  get_position rm (f_symbol fill) = Some pos ->
  is_flat pos = false ->
  (is_long pos && bool_decide (f_side fill = BUY))
  || (is_short pos && bool_decide (f_side fill = SELL)) = false ->
  exists pos',
    get_position (on_fill now rm fill) (f_symbol fill) = Some pos'
    /\ p_quantity pos' = p_quantity pos + signed_quantity fill
    /\ p_avg_price pos' = p_avg_price pos.
Proof.
  intros Hget Hflat Hopp. unfold on_fill, get_position in *. rewrite Hget.
  destruct (apply_fill_opposing pos fill Hflat Hopp) as [Hq Ha].
  destruct (apply_fill pos fill) as [pos' delta]. simpl in *.
  exists (touch now pos'). rewrite assoc_find_set. auto.
Qed.

Lemma on_fill_peak_unchanged (now : TimePoint) (rm : RiskManager) (fill : Fill) :
  peak_daily_pnl_ (on_fill now rm fill) = peak_daily_pnl_ rm.
Proof.
  unfold on_fill. destruct (apply_fill _ fill). reflexivity.
Qed.

(** C1. From +1 BTC at 50 000, the SELL of 1.5 BTC at 60 000 with fee 10
    realizes 9 990 and leaves -0.5 BTC, but the residual short position
    keeps the entry price 50 000 of the closed long position: [on_fill]
    never assigns [avg_price] in its closing branch, so the residual is not
    opened at the fill price 60 000. *)
Theorem on_fill_flip_keeps_old_entry_price :
  let rm' := on_fill 2 Scenario.rm_long_btc Scenario.flip_fill in
  exists pos,
    get_position rm' "BTCUSDT" = Some pos
    /\ p_quantity pos == -0.5
    /\ daily_realized_pnl_ rm' - daily_realized_pnl_ Scenario.rm_long_btc == 9990
    /\ p_realized_pnl pos == 9990
    /\ p_avg_price pos == 50000
    /\ ~ p_avg_price pos == f_price Scenario.flip_fill.
Proof.
  eexists. split; [vm_compute; reflexivity|].
  repeat split; try (vm_compute; reflexivity).
  vm_compute. discriminate.
Qed.





(** ** Risk manager: marks and the trailing peak *)

Lemma sum_from (field : Position -> double) (ps : list (string * Position)) (a : double) :
  fold_left (fun acc sp => acc + field sp.2) ps a == a + sum_over field ps.
Proof.
  unfold sum_over. revert a.
  induction ps as [|sp tl IH]; intros a; simpl.
  - ring.
  - rewrite (IH (a + field sp.2)), (IH (0 + field sp.2)). ring.
Qed.

Lemma sum_over_cons (field : Position -> double) sp (ps : list (string * Position)) :
  sum_over field (sp :: ps) == field sp.2 + sum_over field ps.
Proof.
  unfold sum_over at 1. simpl. rewrite sum_from. ring.
Qed.

(** When every position has a price, the total the marking loop
    accumulates is the sum of the unrealized P&L of all marked positions. *)
Lemma mark_positions_total (prices : gmap string double)
    (ps : list (string * Position)) (a : double) :
  (forall symbol pos, (symbol, pos) ∈ ps -> prices !! symbol <> None) ->
  (mark_positions prices ps a).2
  == a + sum_over p_unrealized_pnl (mark_positions prices ps a).1.
Proof.
  revert a. induction ps as [|[symbol pos] tl IH]; intros a Hcov; simpl.
  - unfold sum_over. simpl. ring.
  - destruct (prices !! symbol) as [price|] eqn:Hp.
    + specialize (IH (a + p_unrealized_pnl (update_unrealized pos price))).
      destruct (mark_positions prices tl _) as [tl' total]. simpl in *.
      rewrite sum_over_cons. simpl. rewrite IH.
      * ring.
      * intros s p Hin. apply (Hcov s p). now right.
    + exfalso. apply (Hcov symbol pos); [left | exact Hp].
Qed.

Lemma raise_peak_ge (current_peak total : double) :
  total <= raise_peak current_peak total
  /\ current_peak <= raise_peak current_peak total.
Proof.
  unfold raise_peak. destruct (Qlt_bool_spec current_peak total) as [Hlt|Hge].
  - split; [apply Qle_refl | now apply Qlt_le_weak].
  - split; [now apply Qnot_lt_le | apply Qle_refl].
Qed.

(** C4 (as amended). After [update_market_prices] with a price for every
    held position, the peak is the larger of its previous value and the
    total P&L that [get_stats] reports (daily realized plus the unrealized
    P&L of all positions): it is at least that total, it is not below the
    previous peak, and it is one of the two.  A fill, which may change the
    realized P&L, leaves the peak as it is. *)
Theorem update_market_prices_peak_ge_total
    (rm : RiskManager) (prices current_prices : gmap string double) :
  (forall symbol pos, (symbol, pos) ∈ positions_ rm -> prices !! symbol <> None) ->
  let rm' := update_market_prices rm prices in
  let stats := get_stats rm' current_prices in
  total_pnl stats <= peak_pnl_today stats
  /\ peak_daily_pnl_ rm <= peak_pnl_today stats
  /\ (peak_pnl_today stats = peak_daily_pnl_ rm
      \/ peak_pnl_today stats == total_pnl stats)
  /\ (forall now fill,
        peak_daily_pnl_ (on_fill now rm' fill) = peak_daily_pnl_ rm').
Proof.
  intros Hcov rm' stats. subst stats rm'.
  split; [|split; [|split]]; [| | |intros; apply on_fill_peak_unchanged].
  all: unfold update_market_prices, get_stats.
  all: pose proof (mark_positions_total prices (positions_ rm) 0 Hcov) as Htot.
  all: destruct (mark_positions prices (positions_ rm) 0) as [positions' total].
  all: simpl in *.
  all: destruct (raise_peak_ge (peak_daily_pnl_ rm) (daily_realized_pnl_ rm + total))
         as [H1 H2].
  - eapply Qle_trans; [|exact H1]. rewrite Htot. lra.
  - exact H2.
  - unfold raise_peak.
    destruct (Qlt_bool (peak_daily_pnl_ rm) (daily_realized_pnl_ rm + total));
      [right | left; reflexivity].
    rewrite Htot. lra.
Qed.

Lemma update_market_prices_peak_ge_total_witness :
  let rm' := update_market_prices Scenario.rm_two_positions Scenario.marks_both in
  let stats := get_stats rm' ∅ in
  total_pnl stats <= peak_pnl_today stats
  /\ peak_daily_pnl_ Scenario.rm_two_positions <= peak_pnl_today stats
  /\ (peak_pnl_today stats = peak_daily_pnl_ Scenario.rm_two_positions
      \/ peak_pnl_today stats == total_pnl stats)
  /\ (forall now fill,
        peak_daily_pnl_ (on_fill now rm' fill) = peak_daily_pnl_ rm').
Proof.
  apply (update_market_prices_peak_ge_total
           Scenario.rm_two_positions Scenario.marks_both ∅).
  intros symbol pos Hin. vm_compute in Hin.
  apply elem_of_cons in Hin as [Hin|Hin];
    [|apply elem_of_cons in Hin as [Hin|Hin]; [|inversion Hin]];
    injection Hin as -> _; vm_compute; discriminate.
Defined.

(** C4, counterexample.  With BTC and ETH both long at 100: marking BTC at
    150 raises the peak to 50; marking only ETH at 150 afterwards adds only
    ETH's 50 to the total the peak is compared with, so the peak stays 50
    while the reported total P&L is 100. *)
Lemma update_market_prices_peak_below_total :
  let rm' :=
    update_market_prices
      (update_market_prices Scenario.rm_two_positions Scenario.marks_btc)
      Scenario.marks_eth in
  total_pnl (get_stats rm' ∅) == 100
  /\ peak_pnl_today (get_stats rm' ∅) == 50
  /\ ~ total_pnl (get_stats rm' ∅) <= peak_pnl_today (get_stats rm' ∅).
Proof.
  split; [vm_compute; reflexivity|].
  split; [vm_compute; reflexivity|].
  vm_compute. intros H. apply H. reflexivity.
Qed.

(** ** Order-book imbalance *)

Section OBI.
Import OrderBookImbalanceStrategy.

(** The specification's example: bids 100 against asks 40 give a BUY
    signal with imbalance 3/7 and confidence (3/7)/0.7, entered at the
    mid price 100 with target 100.1 and stop 99.95. *)
Example analyze_scenario_buy :
  let s := analyze 0 Scenario.obi_config "BTCUSDT" Scenario.obi_book in
  is_valid s = true /\ predicted_direction s = BUY
  /\ imbalance_ratio s == 3 # 7 /\ confidence s == 30 # 49
  /\ entry_price s == 100 /\ target_price s == 100.1 /\ stop_price s == 99.95.
Proof. repeat split; vm_compute; reflexivity. Qed.

(** C5 (as amended). When the top-N volumes reach the volume threshold
    (and are not zero in total), [analyze] reports the imbalance
    I = (v_b - v_a)/(v_b + v_a) and the signal is valid exactly when
    |I| exceeds the imbalance threshold strictly; for a non-negative
    threshold a valid signal is BUY if I > 0 and SELL otherwise, and equal
    volumes give imbalance 0 and no signal. *)
Theorem analyze_valid_iff_exceeds
    (now : TimePoint) (cfg : Config) (sym : string) (book : OrderBook.t) :
  let v_b := bid_volume cfg book in
  let v_a := ask_volume cfg book in
  min_volume_threshold cfg <= v_b + v_a ->
  ~ v_b + v_a == 0 ->
  let I := (v_b - v_a) / (v_b + v_a) in
  let s := analyze now cfg sym book in
  imbalance_ratio s = I
  /\ (is_valid s = true <-> imbalance_threshold cfg < Qabs I)
  /\ (0 <= imbalance_threshold cfg -> is_valid s = true ->
      predicted_direction s = if Qlt_bool 0 I then BUY else SELL)
  /\ (v_b == v_a -> I == 0 /\ (0 <= imbalance_threshold cfg -> is_valid s = false)).
Proof.
  intros v_b v_a Hvol Hnz I s. subst s. unfold analyze.
  fold v_b v_a.
  apply Qlt_bool_false_iff in Hvol. rewrite Hvol. fold I.
  assert (Heq0 : v_b == v_a -> I == 0).
  { intros E. unfold I. rewrite E. unfold Qdiv. ring. }
  clearbody I. clear Hvol Hnz.
  assert (Habs : (0 <= I /\ Qabs I == I) \/ (I <= 0 /\ Qabs I == - I)).
  { destruct (Qlt_le_dec I 0) as [Hneg|Hpos].
    - right. split; [now apply Qlt_le_weak|].
      apply Qabs_neg. now apply Qlt_le_weak.
    - left. split; [exact Hpos | now apply Qabs_pos]. }
  set (thr := imbalance_threshold cfg) in *. clearbody thr.
  destruct (Qlt_bool_spec (Qabs I) thr) as [Hsmall|Hbig];
    [|destruct (Qlt_bool_spec thr I) as [Hup|Hnup];
      [|destruct (Qlt_bool_spec I (- thr)) as [Hdn|Hndn]]];
    simpl; (split; [reflexivity|]);
    (split; [split; intros Hv|]); try discriminate Hv; try reflexivity.
  - exfalso. apply (Qlt_irrefl thr). now apply Qlt_trans with (Qabs I).
  - split; [discriminate|]. intros E. split; [now apply Heq0 | reflexivity].
  - destruct Habs as [[? ->]|[? ->]]; lra.
  - split.
    + intros Hthr _. destruct (Qlt_bool_spec 0 I); [reflexivity | exfalso; lra].
    + intros E. split; [now apply Heq0|]. intros Hthr. exfalso.
      specialize (Heq0 E). lra.
  - destruct Habs as [[? ->]|[? ->]]; lra.
  - split.
    + intros Hthr _. destruct (Qlt_bool_spec 0 I); [exfalso; lra | reflexivity].
    + intros E. split; [now apply Heq0|]. intros Hthr. exfalso.
      specialize (Heq0 E). lra.
  - exfalso. destruct Habs as [[? Ha]|[? Ha]]; rewrite Ha in *; lra.
  - split; [discriminate|].
    intros E. split; [now apply Heq0 | reflexivity].
Qed.

Lemma analyze_valid_iff_exceeds_witness :
  let I := (bid_volume Scenario.obi_config Scenario.obi_book
            - ask_volume Scenario.obi_config Scenario.obi_book)
           / (bid_volume Scenario.obi_config Scenario.obi_book
              + ask_volume Scenario.obi_config Scenario.obi_book) in
  let s := analyze 0 Scenario.obi_config "BTCUSDT" Scenario.obi_book in
  imbalance_ratio s = I
  /\ (is_valid s = true <-> imbalance_threshold Scenario.obi_config < Qabs I)
  /\ (0 <= imbalance_threshold Scenario.obi_config -> is_valid s = true ->
      predicted_direction s = if Qlt_bool 0 I then BUY else SELL)
  /\ (bid_volume Scenario.obi_config Scenario.obi_book
      == ask_volume Scenario.obi_config Scenario.obi_book ->
      I == 0 /\ (0 <= imbalance_threshold Scenario.obi_config -> is_valid s = false)).
Proof.
  apply (analyze_valid_iff_exceeds 0 Scenario.obi_config "BTCUSDT" Scenario.obi_book).
  - vm_compute. discriminate.
  - vm_compute. discriminate.
Defined.

(** C5, counterexample.  Bids 3 against asks 1 give I = 0.5, which
    reaches the threshold 0.5 without exceeding it: |I| >= threshold
    holds and yet the signal is not valid. *)
Lemma analyze_no_signal_on_threshold :
  let cfg := Scenario.obi_boundary_config in
  let book := Scenario.obi_boundary_book in
  let s := analyze 0 cfg "BTCUSDT" book in
  min_volume_threshold cfg <= bid_volume cfg book + ask_volume cfg book
  /\ imbalance_ratio s == 0.5
  /\ imbalance_threshold cfg <= Qabs (imbalance_ratio s)
  /\ is_valid s = false.
Proof.
  split; [vm_compute; discriminate|].
  split; [vm_compute; reflexivity|].
  split; [vm_compute; discriminate | vm_compute; reflexivity].
Qed.

End OBI.

(** ** Coordinator: the market-making gate of the adverse-selection filter *)

Section MMGate.
Import AdverseSelectionFilter StrategyCoordinator.

(** The HIGH tier of [calculate_toxicity] starts at a score of 0.6. *)
Lemma tier_high_iff (cfg : AdverseSelectionFilter.Config) (score : double) :
  (tier_of cfg score).1 = "HIGH" <-> 0.6 <= score.
Proof.
  unfold tier_of.
  destruct (Qlt_bool_spec score 0.3) as [H3|H3];
    [|destruct (Qlt_bool_spec score 0.6) as [H6|H6]]; simpl.
  - split; [discriminate | intros; exfalso; lra].
  - split; [discriminate | intros; exfalso; lra].
  - split; [intros _; lra | reflexivity].
Qed.

(** When the score is recomputed, the level reported is "HIGH" exactly
    for a score of at least 0.6. *)
Lemma calculate_toxicity_high_iff (now : TimePoint) (s : AdverseSelectionFilter.t) :
  needs_recalc_ s = true ->
  let tox := (calculate_toxicity now s).1 in
  toxicity_level tox = "HIGH" <-> 0.6 <= toxicity_score tox.
Proof.
  intros Hdirty. unfold calculate_toxicity. rewrite Hdirty. simpl.
  destruct (foldl count_fill _ _) as [[analyzed adverse] total].
  match goal with
  | |- context [tier_of ?c ?x] =>
      pose proof (tier_high_iff c x) as Htier; destruct (tier_of c x) as [level mult]
  end.
  simpl in *. exact Htier.
Qed.

Lemma filter_not_mm_spec (orders : list Order) (o : Order) :
  o ∈ filter (fun o => negb (is_mm o)) orders
  <-> o ∈ orders /\ o_strategy_name o <> "MM".
Proof.
  rewrite list_elem_of_filter. unfold is_mm.
  destruct (String.eqb_spec (o_strategy_name o) "MM") as [E|E]; simpl;
    split; intros [H1 H2]; split; auto; try contradiction.
Qed.


(** Step 5 in isolation: whatever vector it is given, the gate drops
    the orders tagged "MM", and only those, exactly when the toxicity
    score it reads exceeds 0.7. *)
Lemma apply_adverse_filter_spec
    (now_update now_calc : TimePoint) (flt : AdverseSelectionFilter.t)
    (current_price : double) (orders : list Order) :
  let score :=
    toxicity_score
      (calculate_toxicity now_calc
         (update_current_price now_update flt current_price)).1 in
  let emitted :=
    (apply_adverse_filter now_update now_calc true (Some flt) current_price
       orders).1 in
  (0.7 < score -> emitted = filter (fun o => negb (is_mm o)) orders)
  /\ (score <= 0.7 -> emitted = orders).
Proof.
  intros score emitted. subst emitted. unfold apply_adverse_filter.
  subst score.
  destruct (calculate_toxicity now_calc _) as [tox flt'] eqn:Hc. simpl.
  destruct (Qlt_bool_spec 0.7 (toxicity_score tox)) as [Hhi|Hlo]; simpl.
  - split; [reflexivity | intros Hle; exfalso; lra].
  - split; [intros Hlt; contradiction | reflexivity].
Qed.






Section WithSqrt.
Variable sqrt : double -> double.






(** The call throws exactly when one of the steps 1 to 4 does. *)
Lemma process_market_update_throws
    (now : Readings) (c : StrategyCoordinator.t) (rm : RiskManager)
    (sym : string) (book : OrderBook.t)
    (all_books : list (Venue * OrderBook.t)) (prices : gmap string double) :
  process_market_update sqrt now c rm sym book all_books prices = None
  <-> strategy_steps sqrt now c rm sym book all_books prices = None.
Proof.
  unfold process_market_update.
  destruct (strategy_steps sqrt now c rm sym book all_books prices)
    as [[orders c1]|]; simpl; [|tauto].
  destruct (apply_adverse_filter _ _ _ _ _ orders). split; discriminate.
Qed.

End WithSqrt.


(** The filter of the scenario starts from a constructed one. *)
Example tox_filter_new_constructed :
  AdverseSelectionFilter.new AdverseSelectionFilter.Config_default
  = Some Scenario.tox_filter_new.
Proof. reflexivity. Qed.

(** The gate and the tier differ: one adverse fill of 10 bps with the
    last toxic fill 10 s ago scores 0.5 * 1 + 0.3 * 0.5 + 0.2 * 0 = 0.65,
    which is in the HIGH tier and below the gate at 0.7. *)
Example high_tier_below_gate :
  let tox :=
    (calculate_toxicity Scenario.tox_tick
       (update_current_price Scenario.tox_tick Scenario.tox_filter
          (OrderBook.get_mid_price Scenario.tox_book))).1 in
  toxicity_score tox == 0.65
  /\ toxicity_level tox = "HIGH"
  /\ Qlt_bool 0.7 (toxicity_score tox) = false.
Proof. repeat split; vm_compute; reflexivity. Qed.

End MMGate.

(** ** Latency arbitrage: the freshness gate *)

Section Freshness.
Import LatencyArbOptimized.

(** The age the freshness loop computes is the largest age among the
    chosen venues that have a timestamp, and at least 0. *)
Lemma max_orderbook_age_spec (now : TimePoint)
    (timestamps : list (Venue * TimePoint)) (bv sv : Venue) :
  let age v :=
    match assoc_find timestamps v with
    | Some ts => duration_cast ns_per_ms now ts
    | None => 0%Z
    end in
  max_orderbook_age now timestamps bv sv = Z.max 0 (Z.max (age bv) (age sv)).
Proof.
  unfold max_orderbook_age, age_step. simpl.
  destruct (assoc_find timestamps bv), (assoc_find timestamps sv); lia.
Qed.

(** C9 (as amended). When the call gets as far as the freshness step (a
    free arbitrage slot, two distinct known venues chosen, estimated
    slippage within the limit), the age it works with is the larger of
    the ages in milliseconds of the last updates of the chosen buy and
    sell venues, a venue without a timestamp counting for nothing and a
    negative age for 0; and whenever that age exceeds
    [max_orderbook_staleness_ms] the call returns the opportunity, not
    valid, with the reason "Orderbook too stale" and that age recorded
    in it, and leaves the strategy state unchanged. *)
Theorem detect_rejects_stale_orderbook
    (start now now_threshold end_ : TimePoint) (st : t) (sym : string)
    (books : list (Venue * OrderBook.t)) (timestamps : list (Venue * TimePoint)) :
  let age venue :=
    match assoc_find timestamps venue with
    | Some last_update => ((now - last_update) ÷ 1000000)%Z
    | None => 0%Z
    end in
  let max_age :=
    Z.max 0 (Z.max (age (chosen_buy_venue books)) (age (chosen_sell_venue books))) in
  reaches_freshness_check st books = true ->
  (max_orderbook_staleness_ms (config_ st) < max_age)%Z ->
  exists opp,
    detect_global_best_opportunity start now now_threshold end_ st sym
      books timestamps = (Some opp, st)
    /\ is_valid opp = false
    /\ reject_reason opp = "Orderbook too stale"
    /\ orderbook_age_ms opp = max_age
    /\ buy_venue opp = chosen_buy_venue books
    /\ sell_venue opp = chosen_sell_venue books.
Proof.
  intros age max_age.
  assert (Hage : max_orderbook_age now timestamps
                   (chosen_buy_venue books) (chosen_sell_venue books) = max_age).
  { apply max_orderbook_age_spec. }
  clearbody max_age. clear age. revert Hage.
  unfold reaches_freshness_check, chosen_buy_venue, chosen_sell_venue,
    detect_global_best_opportunity.
  destruct (find_best_buy books) as [[bv bp] bl].
  destruct (find_best_sell books) as [[sv sp] sl]. simpl.
  intros Hage Hreach Hstale.
  apply andb_true_iff in Hreach as [Hreach Hslip].
  apply andb_true_iff in Hreach as [Hslot Hvenues].
  apply negb_true_iff in Hslot, Hvenues, Hslip.
  rewrite Hslot, Hvenues, Hslip, Hage.
  apply Z.ltb_lt in Hstale. rewrite Hstale.
  eexists. split; [reflexivity|]. simpl. repeat split.
Qed.

(** The venue chosen to sell on, KRAKEN, is 120 ms old and the one chosen
    to buy on, BINANCE, 10 ms: the recorded age is 120. *)
Lemma detect_rejects_stale_orderbook_witness :
  (chosen_buy_venue Scenario.arb_books = BINANCE
   /\ chosen_sell_venue Scenario.arb_books = KRAKEN)
  /\ exists opp,
    detect_global_best_opportunity
      Scenario.arb_now Scenario.arb_now Scenario.arb_now Scenario.arb_now
      Scenario.arb_state "BTCUSDT" Scenario.arb_books
      Scenario.arb_timestamps_sell_stale
    = (Some opp, Scenario.arb_state)
    /\ is_valid opp = false
    /\ reject_reason opp = "Orderbook too stale"
    /\ orderbook_age_ms opp = 120%Z
    /\ buy_venue opp = chosen_buy_venue Scenario.arb_books
    /\ sell_venue opp = chosen_sell_venue Scenario.arb_books.
Proof.
  split; [split; vm_compute; reflexivity|].
  apply (detect_rejects_stale_orderbook
           Scenario.arb_now Scenario.arb_now Scenario.arb_now Scenario.arb_now
           Scenario.arb_state "BTCUSDT" Scenario.arb_books
           Scenario.arb_timestamps_sell_stale).
  - vm_compute. reflexivity.
  - vm_compute. reflexivity.
Defined.

(** C9, the counterexample.  With the limit at 50 ms and the chosen buy
    venue BINANCE last updated 120 ms ago, a thin BINANCE book makes the
    call answer "Slippage too high": the slippage gate comes before the
    freshness step, which is never reached, so no age is recorded.  With
    all arbitrage slots taken the call returns nothing at all. *)
Example detect_stale_orderbook_not_reported :
  max_orderbook_staleness_ms (config_ Scenario.arb_state) = 50%Z
  /\ chosen_buy_venue Scenario.arb_thin_books = BINANCE
  /\ chosen_sell_venue Scenario.arb_thin_books = KRAKEN
  /\ assoc_find Scenario.arb_timestamps BINANCE
     = Some (Scenario.arb_now - 120 * 1000000)%Z
  /\ ((Scenario.arb_now - (Scenario.arb_now - 120 * 1000000)) ÷ 1000000 = 120)%Z
  /\ (exists opp,
        detect_global_best_opportunity
          Scenario.arb_now Scenario.arb_now Scenario.arb_now Scenario.arb_now
          Scenario.arb_state "BTCUSDT" Scenario.arb_thin_books
          Scenario.arb_timestamps = (Some opp, Scenario.arb_state)
        /\ is_valid opp = false
        /\ reject_reason opp = "Slippage too high"
        /\ orderbook_age_ms opp = 0%Z)
  /\ detect_global_best_opportunity
       Scenario.arb_now Scenario.arb_now Scenario.arb_now Scenario.arb_now
       Scenario.arb_state_busy "BTCUSDT" Scenario.arb_books
       Scenario.arb_timestamps = (None, Scenario.arb_state_busy).
Proof.
  split; [reflexivity|]. split; [vm_compute; reflexivity|].
  split; [vm_compute; reflexivity|]. split; [vm_compute; reflexivity|].
  split; [vm_compute; reflexivity|].
  split; [|vm_compute; reflexivity].
  eexists. split; [vm_compute; reflexivity|].
  repeat split; vm_compute; reflexivity.
Qed.

(** The specification's example, evaluated: prices 10 bps apart, the
    limit 50 ms, one venue 120 ms old. *)
Example detect_scenario_stale :
  exists opp,
    (detect_global_best_opportunity
       Scenario.arb_now Scenario.arb_now Scenario.arb_now Scenario.arb_now
       Scenario.arb_state "BTCUSDT" Scenario.arb_books Scenario.arb_timestamps).1
    = Some opp
    /\ buy_venue opp = BINANCE /\ sell_venue opp = KRAKEN
    /\ gross_profit_bps opp == 10 /\ slippage_bps opp == 0
    /\ orderbook_age_ms opp = 120%Z
    /\ is_valid opp = false /\ reject_reason opp = "Orderbook too stale".
Proof.
  eexists. split; [vm_compute; reflexivity|].
  repeat split; vm_compute; reflexivity.
Qed.

(** The gates are ordered: on a book that is both too thin and too old
    the slippage gate, which comes first, names the reason. *)
Example detect_scenario_thin_and_stale :
  exists opp,
    (detect_global_best_opportunity
       Scenario.arb_now Scenario.arb_now Scenario.arb_now Scenario.arb_now
       Scenario.arb_state "BTCUSDT" Scenario.arb_thin_books
       Scenario.arb_timestamps).1 = Some opp
    /\ is_valid opp = false /\ reject_reason opp = "Slippage too high".
Proof.
  eexists. split; [vm_compute; reflexivity|].
  split; vm_compute; reflexivity.
Qed.

(** Whatever the earlier gates decide, a stale book never yields a valid
    opportunity. *)
Lemma detect_valid_is_fresh
    (start now now_threshold end_ : TimePoint) (st st' : t) (sym : string)
    (books : list (Venue * OrderBook.t)) (timestamps : list (Venue * TimePoint))
    (opp : EnhancedArbOpportunity) :
  detect_global_best_opportunity start now now_threshold end_ st sym
    books timestamps = (Some opp, st') ->
  is_valid opp = true ->
  (max_orderbook_age now timestamps (chosen_buy_venue books)
     (chosen_sell_venue books)
   <= max_orderbook_staleness_ms (config_ st))%Z.
Proof.
  unfold chosen_buy_venue, chosen_sell_venue, detect_global_best_opportunity.
  destruct (find_best_buy books) as [[bv bp] bl].
  destruct (find_best_sell books) as [[sv sp] sl]. simpl.
  repeat match goal with
         | |- context [if ?c then _ else _] =>
             let E := fresh "E" in destruct c eqn:E
         end;
    intros Hres Hvalid; injection Hres as <- <- || discriminate Hres;
    try discriminate Hvalid.
  apply Z.ltb_ge. assumption.
Qed.

End Freshness.

(** ** Circuit breaker *)

Section Breaker.
Import CircuitBreaker.

(** C10. With failure threshold 3, success threshold 2 and timeout 30 s,
    a breaker that starts CLOSED stays CLOSED for two failures and is
    OPEN after the third; a request made once 30 s have elapsed since that
    failure is allowed and moves the breaker to HALF_OPEN; the first
    success leaves it HALF_OPEN and the second closes it. *)
Theorem circuit_breaker_cycle
    (name r1 r2 r3 : string) (test_period : Z) (t1 t2 t3 t4 : TimePoint) :
  (30 * ns_per_s <= t4 - t3)%Z ->
  let cb0 := new name (mkConfig 3 2 30 test_period) in
  let cb1 := record_failure t1 cb0 r1 in
  let cb2 := record_failure t2 cb1 r2 in
  let cb3 := record_failure t3 cb2 r3 in
  let cb4 := (allow_request t4 cb3).2 in
  get_state cb0 = CLOSED /\ get_state cb1 = CLOSED /\ get_state cb2 = CLOSED
  /\ get_state cb3 = OPEN
  /\ (allow_request t4 cb3).1 = true
  /\ get_state cb4 = HALF_OPEN
  /\ get_state (record_success cb4) = HALF_OPEN
  /\ get_state (record_success (record_success cb4)) = CLOSED.
Proof.
  intros Helapsed. simpl.
  assert (Hq : (30 <=? duration_cast ns_per_s t4 t3)%Z = true).
  { apply Z.leb_le. unfold duration_cast.
    apply Z.quot_le_lower_bound; [reflexivity|]. unfold ns_per_s in *. lia. }
  unfold allow_request. simpl. rewrite Hq. simpl. repeat split.
Qed.

Lemma circuit_breaker_cycle_witness :
  let cb0 := new "gateway" (mkConfig 3 2 30 10) in
  let cb1 := record_failure 1000000000 cb0 "timeout" in
  let cb2 := record_failure 2000000000 cb1 "timeout" in
  let cb3 := record_failure 3000000000 cb2 "timeout" in
  let cb4 := (allow_request 33000000000 cb3).2 in
  get_state cb0 = CLOSED /\ get_state cb1 = CLOSED /\ get_state cb2 = CLOSED
  /\ get_state cb3 = OPEN
  /\ (allow_request 33000000000 cb3).1 = true
  /\ get_state cb4 = HALF_OPEN
  /\ get_state (record_success cb4) = HALF_OPEN
  /\ get_state (record_success (record_success cb4)) = CLOSED.
Proof.
  apply (circuit_breaker_cycle "gateway" "timeout" "timeout" "timeout" 10
           1000000000 2000000000 3000000000 33000000000).
  vm_compute. discriminate.
Defined.

(** Before the timeout has elapsed the open breaker refuses the request
    and stays OPEN. *)
Lemma allow_request_open_before_timeout (cb : t) (now : TimePoint) :
  state_ cb = OPEN ->
  (duration_cast ns_per_s now (last_failure_time_ cb) < timeout (config_ cb))%Z ->
  allow_request now cb = (false, cb).
Proof.
  intros Hs Hlt. unfold allow_request. rewrite Hs.
  apply Z.leb_gt in Hlt. now rewrite Hlt.
Qed.

End Breaker.

(** ** Order tracker: the active-orders index *)

Section Tracker.
Import OrderTracker.

Lemma tracker_inv_empty : tracker_inv empty.
Proof.
  split; [|split].
  - intros k o Hl. simpl in Hl. rewrite lookup_empty in Hl. discriminate Hl.
  - intros k Hin. simpl in Hin. set_solver.
  - intros k o Hl. simpl in Hl. rewrite lookup_empty in Hl. discriminate Hl.
Qed.

(** Dropping the order filed under [k] together with [k]'s membership. *)
Lemma tracker_inv_drop (tr : t) (k : string) ids syms :
  tracker_inv tr ->
  tracker_inv (mk (delete k (orders_ tr)) ids syms (active_orders_ tr ∖ {[k]})).
Proof.
  intros (Hk & Hh & Ha). split; [|split]; simpl.
  - intros k' o Hl. simpl in Hl. apply lookup_delete_Some in Hl as [_ Hl]. eauto.
  - intros k' Hin. simpl in *. apply elem_of_difference in Hin as [Hin Hne].
    rewrite lookup_delete_ne by set_solver. auto.
  - intros k' o Hl. simpl in *. apply lookup_delete_Some in Hl as [Hne Hl].
    pose proof (Hk _ _ Hl) as Hid. pose proof (Ha _ _ Hl) as Hiff.
    split; intros H.
    + apply Hiff. set_solver.
    + apply Hiff in H. set_solver.
Qed.

Lemma remove_by_client_id_inv (tr : t) (k : string) :
  tracker_inv tr -> tracker_inv (remove_by_client_id tr k).
Proof.
  intros Hinv. unfold remove_by_client_id.
  destruct (orders_ tr !! k); [now apply tracker_inv_drop | exact Hinv].
Qed.

Lemma remove_by_client_id_lookup (tr : t) (k k' : string) (o : Order) :
  orders_ (remove_by_client_id tr k) !! k' = Some o -> orders_ tr !! k' = Some o.
Proof.
  unfold remove_by_client_id. destruct (orders_ tr !! k); simpl; [|done].
  intros Hl. now apply lookup_delete_Some in Hl as [_ Hl].
Qed.

Lemma foldl_remove_inv (ks : list string) (tr : t) :
  tracker_inv tr ->
  tracker_inv (foldl remove_by_client_id tr ks)
  /\ forall k o, orders_ (foldl remove_by_client_id tr ks) !! k = Some o ->
                 orders_ tr !! k = Some o.
Proof.
  revert tr. induction ks as [|k ks IH]; intros tr Hinv; simpl; [done|].
  destruct (IH (remove_by_client_id tr k)) as [H1 H2];
    [now apply remove_by_client_id_inv|].
  split; [exact H1|]. intros k' o Hl.
  eapply remove_by_client_id_lookup, H2, Hl.
Qed.

Lemma cleanup_oldest_internal_inv (tr : t) (n : nat) :
  tracker_inv tr ->
  tracker_inv (cleanup_oldest_internal tr n)
  /\ forall k o, orders_ (cleanup_oldest_internal tr n) !! k = Some o ->
                 orders_ tr !! k = Some o.
Proof. apply foldl_remove_inv. Qed.

Lemma track_order_inv (tr : t) (order : Order) :
  tracker_inv tr -> op_ok tr (Track order) -> tracker_inv (track_order tr order).
Proof.
  intros Hinv Hok. unfold track_order.
  set (tr1 := if decide (MAX_ORDERS ≤ Z.of_nat (size (orders_ tr)))%Z
              then cleanup_oldest_internal tr 1000 else tr).
  assert (Hinv1 : tracker_inv tr1 /\
            forall k o, orders_ tr1 !! k = Some o -> orders_ tr !! k = Some o).
  { subst tr1. destruct (decide _); [now apply cleanup_oldest_internal_inv | done]. }
  destruct Hinv1 as ((Hk & Hh & Ha) & Hsub). clearbody tr1.
  set (cid := o_client_order_id order).
  simpl in Hok. fold cid in Hok.
  split; [|split]; simpl.
  - intros k o Hl. simpl in Hl.
    apply lookup_insert_Some in Hl as [[<- <-]|[Hne Hl]]; eauto.
  - intros k Hin. simpl in *. destruct (decide (cid = k)) as [<-|Hne].
    + rewrite lookup_insert_eq. eauto.
    + rewrite lookup_insert_ne by done. apply Hh.
      destruct (is_active order); set_solver.
  - intros k o Hl. simpl in *.
    apply lookup_insert_Some in Hl as [[<- <-]|[Hne Hl]].
    + fold cid. split; intros H.
      * destruct (is_active order) eqn:Hact; [done|].
        destruct (Hh _ H) as [old Hold].
        pose proof (Hk _ _ Hold) as Hid.
        assert (is_active old = true) as Hoa.
        { apply (Ha _ _ Hold). now rewrite Hid. }
        exact (Hok old (Hsub _ _ Hold) Hoa).
      * rewrite H. set_solver.
    + pose proof (Hk _ _ Hl) as Hid. pose proof (Ha _ _ Hl) as Hiff.
      split; intros H.
      * apply Hiff. destruct (is_active order); set_solver.
      * apply Hiff in H. destruct (is_active order); set_solver.
Qed.

Lemma update_order_inv (tr : t) (cid : string) (updated : Order) :
  tracker_inv tr -> op_ok tr (Update cid updated) ->
  tracker_inv (update_order tr cid updated).
Proof.
  intros (Hk & Hh & Ha) Hok. simpl in Hok. unfold update_order.
  destruct (orders_ tr !! cid) as [old|] eqn:Hold; [|done].
  pose proof (Hk _ _ Hold) as Hoid. pose proof (Ha _ _ Hold) as Hoa.
  rewrite Hoid in Hoa.
  split; [|split]; simpl.
  - intros k o Hl. simpl in Hl.
    apply lookup_insert_Some in Hl as [[<- <-]|[Hne Hl]]; eauto.
  - intros k Hin. simpl in *. destruct (decide (cid = k)) as [<-|Hne].
    + rewrite lookup_insert_eq. eauto.
    + rewrite lookup_insert_ne by done. apply Hh.
      destruct (is_active old), (is_active updated); simpl in Hin; set_solver.
  - intros k o Hl. simpl in *.
    apply lookup_insert_Some in Hl as [[<- <-]|[Hne Hl]].
    + rewrite Hok. split; intros H.
      * destruct (is_active old), (is_active updated); simpl in H; try done.
        -- set_solver.
        -- apply Hoa in H. done.
      * rewrite H. destruct (is_active old); simpl;
          [apply Hoa; reflexivity | set_solver].
    + pose proof (Hk _ _ Hl) as Hid. pose proof (Ha _ _ Hl) as Hiff.
      split; intros H.
      * apply Hiff.
        destruct (is_active old), (is_active updated); simpl in H; set_solver.
      * apply Hiff in H.
        destruct (is_active old), (is_active updated); simpl; set_solver.
Qed.

Lemma cleanup_fold_inv now retention (l : list (string * Order)) (tr : t) (n : nat) :
  Forall (fun kv => o_client_order_id kv.2 = kv.1) l ->
  tracker_inv tr ->
  tracker_inv (foldl (cleanup_step now retention) (tr, n) l).1.
Proof.
  revert tr n. induction l as [|[k o] l IH]; intros tr n Hl Hinv; [exact Hinv|].
  apply Forall_cons in Hl as [Hko Hl]. simpl in Hko.
  change (tracker_inv
            (foldl (cleanup_step now retention)
               (cleanup_step now retention (tr, n) (k, o)) l).1).
  destruct (cleanup_step now retention (tr, n) (k, o)) as [tr' n'] eqn:Hstep.
  apply IH; [exact Hl|].
  unfold cleanup_step in Hstep. simpl in Hstep.
  destruct (is_complete o && _) in Hstep; injection Hstep as <- <-.
  - rewrite Hko. now apply tracker_inv_drop.
  - exact Hinv.
Qed.

Lemma cleanup_completed_inv now retention (tr : t) :
  tracker_inv tr -> tracker_inv (cleanup_completed now retention tr).1.
Proof.
  intros Hinv. unfold cleanup_completed. apply cleanup_fold_inv; [|exact Hinv].
  apply Forall_forall. intros [k o] Hin. simpl.
  apply elem_of_map_to_list in Hin. destruct Hinv as (Hk & _). eauto.
Qed.

Lemma run_op_inv (tr : t) (op : tracker_op) :
  tracker_inv tr -> op_ok tr op -> tracker_inv (run_op tr op).
Proof.
  intros Hinv Hok. destruct op; simpl.
  - now apply track_order_inv.
  - now apply update_order_inv.
  - now apply cleanup_completed_inv.
Qed.

(** C8 (as amended). On a tracker in which every order is filed under
    its own client id and the active set is the set of client ids of the
    held orders with status NEW or PARTIALLY_FILLED, this remains so
    after [track_order] of an order that does not replace a held active
    order by one that is not active, after [update_order] with a
    replacement that carries the client id it is filed under, and after
    [cleanup_completed]. *)
Theorem tracker_invariant_preserved (tr : t) (op : tracker_op) :
  tracker_inv tr -> op_ok tr op ->
  tracker_inv (run_op tr op) /\ active_index_ok (run_op tr op).
Proof.
  intros Hinv Hok. pose proof (run_op_inv tr op Hinv Hok) as H.
  split; [exact H | apply H].
Qed.

Lemma tracker_invariant_preserved_witness :
  let tr := Scenario.tracker_one_new in
  let op := Update "c1" (Scenario.order_with_status "c1" FILLED) in
  tracker_inv (run_op tr op) /\ active_index_ok (run_op tr op).
Proof.
  apply (tracker_invariant_preserved Scenario.tracker_one_new
           (Update "c1" (Scenario.order_with_status "c1" FILLED))).
  - apply (tracker_invariant_preserved empty
             (Track (Scenario.order_with_status "c1" NEW)) tracker_inv_empty).
    simpl. intros old Hold. rewrite lookup_empty in Hold. discriminate Hold.
  - reflexivity.
Defined.

(** Hence the invariant holds after any sequence of such operations on
    a new tracker. *)
Lemma tracker_inv_reachable (ops : list tracker_op) (tr : t) :
  tracker_inv tr -> ops_ok tr ops -> tracker_inv (foldl run_op tr ops).
Proof.
  revert tr. induction ops as [|op ops IH]; intros tr Hinv Hok; simpl; [done|].
  destruct Hok as [Hop Hrest]. apply IH; [|exact Hrest].
  now apply run_op_inv.
Qed.

(** C8, counterexample.  The tracker that holds "c1" as NEW satisfies the
    invariant; tracking "c1" again as FILLED overwrites the stored order
    and leaves "c1" in the active set, so the invariant is lost. *)
Lemma track_order_retrack_breaks_active_index :
  let tr := Scenario.tracker_one_new in
  let tr' := track_order tr (Scenario.order_with_status "c1" FILLED) in
  active_index_ok tr
  /\ (exists o, orders_ tr' !! "c1" = Some o
                /\ o_client_order_id o = "c1" /\ o_status o = FILLED
                /\ "c1" ∈ active_orders_ tr')
  /\ ~ active_index_ok tr'.
Proof.
  assert (Hlook :
    orders_ (track_order Scenario.tracker_one_new
               (Scenario.order_with_status "c1" FILLED)) !! "c1"
    = Some (Scenario.order_with_status "c1" FILLED)).
  { vm_compute. reflexivity. }
  assert (Hin :
    "c1" ∈ active_orders_ (track_order Scenario.tracker_one_new
                             (Scenario.order_with_status "c1" FILLED))).
  { apply (bool_decide_unpack _). vm_compute. exact I. }
  split; [|split].
  - apply (track_order_inv empty (Scenario.order_with_status "c1" NEW)
             tracker_inv_empty).
    simpl. intros old Hold. rewrite lookup_empty in Hold. discriminate Hold.
  - eexists. split; [exact Hlook|].
    split; [reflexivity|]. split; [reflexivity | exact Hin].
  - intros Hbad. specialize (Hbad _ _ Hlook). simpl in Hbad.
    apply Hbad in Hin. discriminate Hin.
Qed.

End Tracker.

(** ** Bounded ring: the ring refines the list of its last elements *)

Section RingRefinement.
Import CircularBuffer.
Context {T : Type}.
Local Open Scope nat_scope.

Lemma mod_cases (a c : nat) :
  0 < c -> a < 2 * c ->
  (a < c /\ a mod c = a) \/ (c <= a /\ a mod c = a - c).
Proof.
  intros Hc Ha. destruct (decide (a < c)) as [Hlt|Hge].
  - left. split; [exact Hlt | now apply Nat.mod_small].
  - right. split; [lia|].
    replace a with ((a - c) + 1 * c) at 1 by lia.
    rewrite Nat.Div0.mod_add. apply Nat.mod_small. lia.
Qed.




Lemma ring_front (b : t T) (l : list T) :
  ring_repr b l -> front b = l !! 0.
Proof.
  intros (Hlen & Hcap & Hsize & Hle & Htail & Hhead & Hdata).
  unfold front. destruct (decide (size_ b = 0)) as [Hz|Hnz].
  - destruct l; [reflexivity | simpl in Hsize; lia].
  - rewrite <- (Hdata 0) by lia. rewrite Nat.add_0_r, Nat.mod_small; done.
Qed.




End RingRefinement.

(** ** Pairs trading: the ratio window and the running statistics *)

Section Pairs.
Import PairsTradingStrategy.
Context {D : Type} (ar : Arith D).








End Pairs.



(** In binary64, a window of 25 fed with the 30 price pairs (1, 2), ...,
    (30, 2) ends on the last 25 ratios, 3 to 15 in steps of one half, and
    caches the accumulator's mean. *)
Example run_updates_scenario :
  exists s,
    PairsTradingStrategy.new binary64 Scenario.pairs_config64_long
    = Some (Scenario.pairs_start64 Scenario.pairs_config64_long)
    /\ PairsTradingStrategy.run_updates binary64
         (Scenario.pairs_start64 Scenario.pairs_config64_long)
         Scenario.pairs_ramp_prices = Some s
    /\ CircularBuffer.to_list (PairsTradingStrategy.ratio_history_ s)
       = map (fun i => (float_of_int (Z.of_nat i) / 2)%float) (seq 6 25)
    /\ RunningStats.count (PairsTradingStrategy.stats_calculator_ s) = 25%Z
    /\ PairsTradingStrategy.mean_ratio_ s
       = RunningStats.mean (PairsTradingStrategy.stats_calculator_ s).
Proof.
  eexists. split; [vm_compute; reflexivity|].
  split; [vm_compute; reflexivity|].
  repeat split; vm_compute; reflexivity.
Qed.

(** ** Risk manager: bounded history, marks *)

Lemma sum_over_nil (field : Position -> double) : sum_over field [] == 0.
Proof. unfold sum_over. simpl. reflexivity. Qed.

Lemma reset_daily_sums (rm : RiskManager) :
  sum_over p_realized_pnl (positions_ (reset_daily rm)) == 0
  /\ sum_over p_unrealized_pnl (positions_ (reset_daily rm)) == 0.
Proof.
  unfold reset_daily. simpl.
  induction (positions_ rm) as [|sp tl [IH1 IH2]]; simpl.
  - split; apply sum_over_nil.
  - rewrite !sum_over_cons, IH1, IH2. simpl. split; ring.
Qed.

Lemma on_fill_recent_fills (now : TimePoint) (rm : RiskManager) (fill : Fill) :
  recent_fills_ (on_fill now rm fill) = push_recent (recent_fills_ rm) fill.
Proof.
  unfold on_fill. destruct (apply_fill _ fill). reflexivity.
Qed.

Lemma push_recent_window (r : list Fill) (fill : Fill) (rest : list Fill) :
  (length r <= 1000)%nat ->
  (length (push_recent r fill) <= 1000)%nat
  /\ drop (length (push_recent r fill) + length rest - 1000)
          (push_recent r fill ++ rest)
     = drop (length r + S (length rest) - 1000) (r ++ fill :: rest).
Proof.
  intros Hlen. unfold push_recent.
  rewrite length_app. simpl.
  destruct (1000 <? length r + 1)%nat eqn:E.
  - apply Nat.ltb_lt in E. assert (Hr : length r = 1000%nat) by lia.
    destruct r as [|x xs]; [discriminate Hr|]. simpl in Hr.
    simpl tail. rewrite length_app. simpl length.
    split; [lia|].
    replace (length xs + 1 + length rest - 1000)%nat with (length rest) by lia.
    replace (S (length xs) + S (length rest) - 1000)%nat
      with (S (length rest)) by lia.
    simpl. now rewrite <- app_assoc.
  - apply Nat.ltb_ge in E. rewrite length_app. simpl.
    split; [lia|].
    replace (length r + 1 + length rest - 1000)%nat
      with (length r + S (length rest) - 1000)%nat by lia.
    now rewrite <- app_assoc.
Qed.

(** X2. The recent fills are a sliding window: after any sequence of fills
    the risk manager holds the last 1000 of the fills it was given (those
    it held before, followed by the new ones, oldest first), and never
    more than 1000. *)
Theorem recent_fills_sliding_window
    (rm : RiskManager) (fills : list (TimePoint * Fill)) :
  (length (recent_fills_ rm) <= 1000)%nat ->
  let all := recent_fills_ rm ++ map snd fills in
  recent_fills_ (run_fills rm fills) = drop (length all - 1000) all
  /\ (length (recent_fills_ (run_fills rm fills)) <= 1000)%nat.
Proof.
  unfold run_fills. revert rm.
  induction fills as [|[now fill] tl IH]; intros rm Hlen; simpl.
  - rewrite app_nil_r.
    replace (length (recent_fills_ rm) - 1000)%nat with 0%nat by lia.
    split; [reflexivity | exact Hlen].
  - destruct (push_recent_window (recent_fills_ rm) fill (map snd tl) Hlen)
      as [Hlen' Hdrop].
    specialize (IH (on_fill now rm fill)).
    rewrite on_fill_recent_fills in IH. specialize (IH Hlen').
    simpl in IH. destruct IH as [IH1 IH2]. split; [|exact IH2].
    rewrite IH1. rewrite !length_app in *. simpl. exact Hdrop.
Qed.

Lemma recent_fills_sliding_window_witness :
  let rm := RiskManager_new RiskLimits_default in
  let fills := [(1%Z, Scenario.flip_fill); (2%Z, Scenario.negative_price_fill)] in
  let all := recent_fills_ rm ++ map snd fills in
  recent_fills_ (run_fills rm fills) = drop (length all - 1000) all
  /\ (length (recent_fills_ (run_fills rm fills)) <= 1000)%nat.
Proof.
  apply (recent_fills_sliding_window (RiskManager_new RiskLimits_default)
           [(1%Z, Scenario.flip_fill); (2%Z, Scenario.negative_price_fill)]).
  simpl. lia.
Defined.

(** ** Risk manager: checks, marks and averages *)

Lemma priced_fold_from (prices : gmap string double)
    (ps : list (string * Position)) (a : double) :
  fold_left
    (fun acc sp =>
       match prices !! sp.1 with
       | Some price => acc + calculate_unrealized sp.2 price
       | None => acc
       end) ps a
  == a + fold_left
           (fun acc sp =>
              match prices !! sp.1 with
              | Some price => acc + calculate_unrealized sp.2 price
              | None => acc
              end) ps 0.
Proof.
  revert a. induction ps as [|[symbol pos] tl IH]; intros a; simpl.
  - ring.
  - destruct (prices !! symbol) as [price|].
    + rewrite (IH (a + _)), (IH (0 + _)). ring.
    + apply IH.
Qed.

Lemma calculate_unrealized_update (pos : Position) (price price' : double) :
  calculate_unrealized (update_unrealized pos price) price'
  = calculate_unrealized pos price'.
Proof. reflexivity. Qed.

(** The total the marking loop accumulates is the total that
    [get_total_pnl_internal] recomputes from the same prices, before and
    after the marks are stored. *)
Lemma mark_positions_priced_total (prices : gmap string double)
    (ps : list (string * Position)) (a : double) :
  (mark_positions prices ps a).2
  == fold_left
       (fun acc sp =>
          match prices !! sp.1 with
          | Some price => acc + calculate_unrealized sp.2 price
          | None => acc
          end) ps a
  /\ fold_left
       (fun acc sp =>
          match prices !! sp.1 with
          | Some price => acc + calculate_unrealized sp.2 price
          | None => acc
          end) (mark_positions prices ps a).1 0
     == fold_left
          (fun acc sp =>
             match prices !! sp.1 with
             | Some price => acc + calculate_unrealized sp.2 price
             | None => acc
             end) ps 0.
Proof.
  revert a. induction ps as [|[symbol pos] tl IH]; intros a; simpl.
  - split; reflexivity.
  - destruct (prices !! symbol) as [price|] eqn:Hp.
    + specialize (IH (a + p_unrealized_pnl (update_unrealized pos price))).
      destruct (mark_positions prices tl _) as [tl' total]. simpl in *.
      rewrite Hp. destruct IH as [IH1 IH2]. split; [exact IH1|].
      rewrite calculate_unrealized_update.
      rewrite (priced_fold_from prices tl'), (priced_fold_from prices tl (0 + _)).
      rewrite IH2. reflexivity.
    + specialize (IH a).
      destruct (mark_positions prices tl _) as [tl' total]. simpl in *.
      rewrite Hp. exact IH.
Qed.

(** X3. After [update_market_prices] the trailing peak is never below the
    total P&L that [get_total_pnl] computes from the same price map, with
    no condition on which positions have a price; marking does not change
    that total, and the peak never goes down. *)
Theorem update_market_prices_peak_ge_get_total_pnl
    (rm : RiskManager) (prices : gmap string double) :
  let rm' := update_market_prices rm prices in
  get_total_pnl rm' prices == get_total_pnl rm prices
  /\ get_total_pnl rm' prices <= peak_daily_pnl_ rm'
  /\ peak_daily_pnl_ rm <= peak_daily_pnl_ rm'.
Proof.
  unfold update_market_prices, get_total_pnl, get_total_pnl_internal_prices.
  destruct (mark_positions_priced_total prices (positions_ rm) 0) as [H1 H2].
  destruct (mark_positions prices (positions_ rm) 0) as [ps' total].
  simpl in *.
  destruct (raise_peak_ge (peak_daily_pnl_ rm) (daily_realized_pnl_ rm + total))
    as [Hge Hmono].
  split; [now rewrite H2|]. split; [|exact Hmono].
  rewrite H2, <- H1. exact Hge.
Qed.

Lemma mark_positions_find (prices : gmap string double)
    (ps : list (string * Position)) (a : double) (symbol : string) :
  assoc_find (mark_positions prices ps a).1 symbol
  = match prices !! symbol with
    | Some price =>
        match assoc_find ps symbol with
        | Some pos => Some (update_unrealized pos price)
        | None => None
        end
    | None => assoc_find ps symbol
    end.
Proof.
  revert a. induction ps as [|[k pos] tl IH]; intros a; simpl.
  - now destruct (prices !! symbol).
  - destruct (prices !! k) as [price|] eqn:Hk.
    + specialize (IH (a + p_unrealized_pnl (update_unrealized pos price))).
      destruct (mark_positions prices tl _) as [tl' total]. simpl in *.
      destruct (decide (k = symbol)) as [->|Hne]; [now rewrite Hk | exact IH].
    + specialize (IH a).
      destruct (mark_positions prices tl _) as [tl' total]. simpl in *.
      destruct (decide (k = symbol)) as [->|Hne]; [now rewrite Hk | exact IH].
Qed.

(** X4. What [update_market_prices] does to one symbol: a position whose
    symbol has a price is re-marked at it (unrealized P&L and absolute
    notional recomputed, quantity, entry price and realized P&L kept); a
    position without a price, and the absence of a position, are left as
    they are. *)
Theorem update_market_prices_position
    (rm : RiskManager) (prices : gmap string double) (symbol : string) :
  get_position (update_market_prices rm prices) symbol
  = match prices !! symbol with
    | Some price =>
        match get_position rm symbol with
        | Some pos =>
            Some (mkPosition (p_symbol pos) (p_quantity pos) (p_avg_price pos)
                    (p_realized_pnl pos)
                    (if is_flat pos then 0
                     else p_quantity pos * (price - p_avg_price pos))
                    (p_total_fees_paid pos)
                    (Qabs (p_quantity pos * price))
                    (p_var_contribution pos) (p_opened_time pos)
                    (p_last_update_time pos))
        | None => None
        end
    | None => get_position rm symbol
    end.
Proof.
  unfold update_market_prices, get_position.
  pose proof (mark_positions_find prices (positions_ rm) 0 symbol) as H.
  destruct (mark_positions prices (positions_ rm) 0) as [ps' total].
  simpl in *. exact H.
Qed.

Lemma reset_daily_total_pnl (rm : RiskManager) (price : double) :
  get_total_pnl_internal (reset_daily rm) price == 0.
Proof.
  unfold get_total_pnl_internal.
  destruct (reset_daily_sums rm) as [_ ->]. reflexivity.
Qed.

(** X5. After [reset_daily], with a non-negative loss limit and trailing
    percentage, [check_order] cannot reject for the daily loss or for the
    trailing stop, whatever the history: the realized and unrealized P&L
    and the peak restart at 0, while quantities and entry prices of the
    positions are kept. *)
Theorem reset_daily_clears_loss_checks
    (rm : RiskManager) (order : Order) (current_price : double) :
  0 <= max_daily_loss (limits_ rm) ->
  0 <= trailing_stop_pct (limits_ rm) ->
  let rm' := reset_daily rm in
  reason (check_order rm' order current_price) <> "Daily loss limit exceeded"
  /\ reason (check_order rm' order current_price) <> "Trailing stop hit"
  /\ map (fun sp => (sp.1, p_quantity sp.2, p_avg_price sp.2)) (positions_ rm')
     = map (fun sp => (sp.1, p_quantity sp.2, p_avg_price sp.2)) (positions_ rm).
Proof.
  intros Hloss Hpct rm'.
  assert (Hmap :
    map (fun sp => (sp.1, p_quantity sp.2, p_avg_price sp.2)) (positions_ rm')
    = map (fun sp => (sp.1, p_quantity sp.2, p_avg_price sp.2)) (positions_ rm)).
  { subst rm'. unfold reset_daily. simpl. rewrite map_map. reflexivity. }
  pose proof (reset_daily_total_pnl rm current_price) as Hpnl.
  assert (Hlim : limits_ rm' = limits_ rm) by reflexivity.
  assert (Hpeak : peak_daily_pnl_ rm' = 0) by reflexivity.
  fold rm' in Hpnl. clearbody rm'.
  unfold check_order. rewrite Hlim, Hpeak.
  assert (H1 : Qlt_bool (get_total_pnl_internal rm' current_price)
                 (- max_daily_loss (limits_ rm)) = false).
  { apply Qlt_bool_false_iff. rewrite Hpnl. lra. }
  assert (H2 : Qlt_bool (max_daily_loss (limits_ rm) * trailing_stop_pct (limits_ rm))
                 (0 - get_total_pnl_internal rm' current_price) = false).
  { apply Qlt_bool_false_iff. rewrite Hpnl.
    assert (0 <= max_daily_loss (limits_ rm) * trailing_stop_pct (limits_ rm))
      by (apply Qmult_le_0_compat; assumption).
    lra. }
  cbv zeta. rewrite H1, H2.
  split; [|split; [|exact Hmap]];
    repeat match goal with
           | |- context [if ?b then _ else _] => destruct b
           end; simpl; discriminate.
Qed.

Lemma reset_daily_clears_loss_checks_witness :
  let rm := on_fill 3 Scenario.rm_long_btc Scenario.flip_fill in
  let order := Scenario.order_tagged "OBI" "c2" in
  let rm' := reset_daily rm in
  reason (check_order rm' order 60000) <> "Daily loss limit exceeded"
  /\ reason (check_order rm' order 60000) <> "Trailing stop hit"
  /\ map (fun sp => (sp.1, p_quantity sp.2, p_avg_price sp.2)) (positions_ rm')
     = map (fun sp => (sp.1, p_quantity sp.2, p_avg_price sp.2)) (positions_ rm).
Proof.
  apply (reset_daily_clears_loss_checks
           (on_fill 3 Scenario.rm_long_btc Scenario.flip_fill)
           (Scenario.order_tagged "OBI" "c2") 60000).
  - vm_compute. discriminate.
  - vm_compute. discriminate.
Defined.

Lemma on_fill_position (now : TimePoint) (rm : RiskManager) (fill : Fill) :
  get_position (on_fill now rm fill) (f_symbol fill)
  = Some (touch now
            (apply_fill
               match get_position rm (f_symbol fill) with
               | Some pos => pos
               | None => Position_default now
               end fill).1).
Proof.
  unfold on_fill, get_position.
  destruct (apply_fill _ fill) as [pos' delta]. simpl.
  apply assoc_find_set.
Qed.

Lemma apply_fill_quantity (pos : Position) (fill : Fill) :
  p_quantity (apply_fill pos fill).1
  = if is_flat pos then signed_quantity fill
    else p_quantity pos + signed_quantity fill.
Proof.
  unfold apply_fill, signed_quantity.
  destruct (is_flat pos); [reflexivity|].
  destruct (_ || _); reflexivity.
Qed.

(** X6. A fill moves the quantity of its symbol by its signed quantity:
    exactly when the position was not flat, and up to the dust (less than
    1e-7 in absolute value) that a flat position still carried and that
    the opening branch overwrites. *)
Theorem on_fill_quantity_change (now : TimePoint) (rm : RiskManager) (fill : Fill) :
  let old :=
    match get_position rm (f_symbol fill) with
    | Some pos => pos
    | None => Position_default now
    end in
  exists pos',
    get_position (on_fill now rm fill) (f_symbol fill) = Some pos'
    /\ Qabs (p_quantity pos' - (p_quantity old + signed_quantity fill)) < 0.0000001
    /\ (is_flat old = false ->
        p_quantity pos' == p_quantity old + signed_quantity fill)
    /\ (is_flat old = true -> p_quantity pos' == signed_quantity fill).
Proof.
  intros old. eexists. split; [apply on_fill_position|].
  fold old.
  change (p_quantity (touch now (apply_fill old fill).1))
    with (p_quantity (apply_fill old fill).1).
  rewrite apply_fill_quantity.
  destruct (is_flat old) eqn:Hflat.
  - split; [|split; [discriminate | reflexivity]].
    unfold is_flat in Hflat. apply Qlt_bool_iff in Hflat.
    apply Qabs_Qlt_condition in Hflat. apply Qabs_Qlt_condition.
    clearbody old. lra.
  - split; [|split; [reflexivity | discriminate]].
    apply Qabs_Qlt_condition. clearbody old. lra.
Qed.

(** ** Order tracker: lookups, updates and cleanup *)

Section TrackerLookups.
Import OrderTracker.

(** X8. What is tracked can be found again: directly after
    [track_order] the order is returned under its client id and under
    its exchange id, [get_symbol] on the exchange id gives its symbol,
    it is among the orders of its symbol, and, when it is active, among
    the active orders.  This holds also when the call first evicts old
    orders. *)
Theorem track_order_round_trip (tr : t) (order : Order) :
  let tr' := track_order tr order in
  get_order tr' (o_client_order_id order) = Some order
  /\ get_order_by_exchange_id tr' (o_order_id order) = Some order
  /\ get_symbol tr' (o_order_id order) = Some (o_symbol order)
  /\ order ∈ get_orders_for_symbol tr' (o_symbol order)
  /\ (is_active order = true -> order ∈ get_active_orders tr').
Proof.
  unfold track_order.
  set (tr1 := if decide (MAX_ORDERS ≤ Z.of_nat (size (orders_ tr)))%Z
              then cleanup_oldest_internal tr 1000 else tr).
  clearbody tr1. cbv zeta.
  unfold get_order, get_order_by_exchange_id, get_symbol,
    get_orders_for_symbol, get_active_orders, get_order. simpl.
  rewrite !lookup_insert_eq.
  split; [reflexivity|]. split; [reflexivity|]. split; [reflexivity|].
  split.
  - apply list_elem_of_omap. exists (o_client_order_id order).
    split; [|apply lookup_insert_eq].
    apply elem_of_app. right. apply list_elem_of_singleton. reflexivity.
  - intros ->. apply list_elem_of_omap. exists (o_client_order_id order).
    split; [|apply lookup_insert_eq].
    apply elem_of_elements. set_solver.
Qed.

(** X9. [update_order] replaces the stored order and adjusts the active
    set, and nothing else: the exchange-id index and the symbol index
    are never written.  So an order tracked before the exchange has
    named it cannot be found by the exchange id that an update brings,
    and an update for a client id that is not held changes nothing. *)
Theorem update_order_never_reindexes
    (tr : t) (client_order_id : string) (updated : Order) :
  let tr' := update_order tr client_order_id updated in
  order_id_to_client_id_ tr' = order_id_to_client_id_ tr
  /\ symbol_orders_ tr' = symbol_orders_ tr
  /\ (get_order tr client_order_id = None -> tr' = tr)
  /\ (is_Some (get_order tr client_order_id) ->
      get_order tr' client_order_id = Some updated)
  /\ (order_id_to_client_id_ tr !! o_order_id updated = None ->
      get_order_by_exchange_id tr' (o_order_id updated) = None).
Proof.
  unfold update_order, get_order_by_exchange_id, get_order.
  destruct (orders_ tr !! client_order_id) as [old|] eqn:Hold; simpl.
  - split; [reflexivity|]. split; [reflexivity|].
    split; [discriminate|]. split; [intros _; apply lookup_insert_eq|].
    now intros ->.
  - split; [reflexivity|]. split; [reflexivity|].
    split; [reflexivity|]. split; [intros [? ?]; discriminate|].
    now intros ->.
Qed.

Lemma length_omap_total {A B : Type} (f : A -> option B) (l : list A) :
  (forall x, x ∈ l -> is_Some (f x)) -> length (omap f l) = length l.
Proof.
  induction l as [|x l IH]; intros Hall; simpl; [reflexivity|].
  destruct (Hall x) as [y Hy]; [left|]. rewrite Hy. simpl.
  f_equal. apply IH. intros z Hz. apply Hall. now right.
Qed.

(** X10. On a tracker that satisfies the invariant, [get_active_orders]
    returns exactly the held orders whose status is NEW or
    PARTIALLY_FILLED, and as many orders as [active_count] reports. *)
Theorem get_active_orders_exact (tr : t) :
  tracker_inv tr ->
  (forall o, o ∈ get_active_orders tr <->
             exists k, get_order tr k = Some o /\ is_active o = true)
  /\ length (get_active_orders tr) = active_count tr.
Proof.
  intros (Hk & Hh & Ha). unfold get_active_orders, get_order, active_count.
  split.
  - intros o. rewrite list_elem_of_omap. split.
    + intros (k & Hin & Hl). exists k. split; [exact Hl|].
      apply elem_of_elements in Hin.
      apply (Ha _ _ Hl). now rewrite (Hk _ _ Hl).
    + intros (k & Hl & Hact). exists k. split; [|exact Hl].
      apply elem_of_elements. apply (Ha _ _ Hl) in Hact.
      now rewrite (Hk _ _ Hl) in Hact.
  - rewrite length_omap_total; [reflexivity|].
    intros k Hin. apply elem_of_elements in Hin. now apply Hh.
Qed.

Lemma get_active_orders_exact_witness :
  (forall o, o ∈ get_active_orders Scenario.tracker_one_new <->
             exists k, get_order Scenario.tracker_one_new k = Some o
                       /\ is_active o = true)
  /\ length (get_active_orders Scenario.tracker_one_new)
     = active_count Scenario.tracker_one_new.
Proof.
  apply (get_active_orders_exact Scenario.tracker_one_new).
  apply (track_order_inv empty (Scenario.order_with_status "c1" NEW)
           tracker_inv_empty).
  simpl. intros old Hold. rewrite lookup_empty in Hold. discriminate Hold.
Defined.

Lemma cleanup_fold_orders now retention (l : list (string * Order))
    (tr : t) (n : nat) (k : string) (o : Order) :
  orders_ (foldl (cleanup_step now retention) (tr, n) l).1 !! k = Some o
  <-> orders_ tr !! k = Some o
      /\ ~ exists o', (k, o') ∈ l /\ past_retention now retention o' = true.
Proof.
  revert tr n. induction l as [|[k1 o1] l IH]; intros tr n.
  - simpl. split; [intros H; split; [exact H|] | tauto].
    intros (o' & Hin & _). inversion Hin.
  - change (foldl (cleanup_step now retention) (tr, n) ((k1, o1) :: l))
      with (foldl (cleanup_step now retention)
              (cleanup_step now retention (tr, n) (k1, o1)) l).
    destruct (cleanup_step now retention (tr, n) (k1, o1)) as [tr' n'] eqn:Hstep.
    rewrite IH. unfold cleanup_step in Hstep. simpl in Hstep.
    fold (past_retention now retention o1) in Hstep.
    destruct (past_retention now retention o1) eqn:Hexp;
      injection Hstep as <- <-; simpl.
    + rewrite lookup_delete_Some. split.
      * intros [[Hne Hl] Hno]. split; [exact Hl|].
        intros (o' & Hin & Ho'). apply elem_of_cons in Hin as [Heq|Hin].
        -- injection Heq as -> ->. now apply Hne.
        -- apply Hno. eauto.
      * intros [Hl Hno]. split; [split; [|exact Hl]|].
        -- intros <-. apply Hno. exists o1. split; [left|exact Hexp].
        -- intros (o' & Hin & Ho'). apply Hno. exists o'.
           split; [now right | exact Ho'].
    + split.
      * intros [Hl Hno]. split; [exact Hl|].
        intros (o' & Hin & Ho'). apply elem_of_cons in Hin as [Heq|Hin].
        -- injection Heq as -> ->. congruence.
        -- apply Hno. eauto.
      * intros [Hl Hno]. split; [exact Hl|].
        intros (o' & Hin & Ho'). apply Hno. exists o'.
        split; [now right | exact Ho'].
Qed.

Lemma cleanup_fold_count now retention (l : list (string * Order))
    (tr : t) (n : nat) :
  (foldl (cleanup_step now retention) (tr, n) l).2
  = (n + length (filter (fun kv => past_retention now retention kv.2 = true) l))%nat.
Proof.
  revert tr n. induction l as [|[k1 o1] l IH]; intros tr n.
  - simpl. lia.
  - change (foldl (cleanup_step now retention) (tr, n) ((k1, o1) :: l))
      with (foldl (cleanup_step now retention)
              (cleanup_step now retention (tr, n) (k1, o1)) l).
    destruct (cleanup_step now retention (tr, n) (k1, o1)) as [tr' n'] eqn:Hstep.
    rewrite IH. unfold cleanup_step in Hstep. simpl in Hstep.
    fold (past_retention now retention o1) in Hstep.
    rewrite filter_cons. simpl.
    destruct (past_retention now retention o1) eqn:Hexp;
      injection Hstep as <- <-.
    + rewrite decide_True by reflexivity. simpl. lia.
    + rewrite decide_False by discriminate. reflexivity.
Qed.

Lemma size_filter_to_list {V : Type} (P : string * V -> Prop)
    `{!forall kv, Decision (P kv)} (m : gmap string V) :
  size (filter P m) = length (filter P (map_to_list m)).
Proof.
  rewrite map_filter_alt, <- length_map_to_list.
  apply Permutation_length, map_to_list_to_map.
  apply (sublist_NoDup _ (map_to_list m).*1);
    [apply NoDup_fst_map_to_list|].
  apply fmap_sublist. apply sublist_filter.
Qed.

(** X11. [cleanup_completed] removes exactly the complete orders whose
    age in whole seconds exceeds the retention period: every other
    order, in particular every order that is not complete, is still
    held unchanged, and the count returned is the number of orders
    removed. *)
Theorem cleanup_completed_removes_expired
    (now : TimePoint) (retention_period : Z) (tr : t) :
  let tr' := (cleanup_completed now retention_period tr).1 in
  let removed := (cleanup_completed now retention_period tr).2 in
  (forall k o, get_order tr' k = Some o <->
               get_order tr k = Some o
               /\ past_retention now retention_period o = false)
  /\ (total_orders tr' + removed = total_orders tr)%nat.
Proof.
  unfold cleanup_completed, get_order, total_orders. cbv zeta.
  assert (Hlook : forall k o,
    orders_ (foldl (cleanup_step now retention_period) (tr, 0%nat)
               (map_to_list (orders_ tr))).1 !! k = Some o
    <-> orders_ tr !! k = Some o
        /\ past_retention now retention_period o = false).
  { intros k o. rewrite cleanup_fold_orders. split.
    - intros [Hl Hno]. split; [exact Hl|].
      destruct (past_retention now retention_period o) eqn:E; [|reflexivity].
      exfalso. apply Hno. exists o. split; [|exact E].
      now apply elem_of_map_to_list.
    - intros [Hl Hexp]. split; [exact Hl|].
      intros (o' & Hin & Ho'). apply elem_of_map_to_list in Hin.
      congruence. }
  split; [exact Hlook|].
  rewrite cleanup_fold_count. simpl.
  set (P := fun kv : string * Order =>
              past_retention now retention_period kv.2 = true).
  set (m' := orders_ (foldl (cleanup_step now retention_period) (tr, 0%nat)
                        (map_to_list (orders_ tr))).1) in *.
  assert (Hm' : m' = filter (fun kv => ~ P kv) (orders_ tr)).
  { apply map_eq. intros k. apply option_eq. intros o.
    rewrite Hlook, map_lookup_filter_Some. subst P. simpl.
    split; intros [H1 H2]; (split; [exact H1|]).
    - rewrite H2. discriminate.
    - now apply not_true_is_false. }
  rewrite Hm'. clear Hm' Hlook.
  rewrite <- (map_filter_union_complement P (orders_ tr)) at 3.
  rewrite map_size_disj_union by apply map_disjoint_filter_complement.
  rewrite (size_filter_to_list P). lia.
Qed.

Lemma remove_by_client_id_keeps (tr : t) (k k' : string) :
  k' <> k -> orders_ (remove_by_client_id tr k) !! k' = orders_ tr !! k'.
Proof.
  intros Hne. unfold remove_by_client_id.
  destruct (orders_ tr !! k); simpl; [|reflexivity].
  now apply lookup_delete_ne.
Qed.

Lemma foldl_remove_keeps (ks : list string) (tr : t) (k' : string) :
  k' ∉ ks -> orders_ (foldl remove_by_client_id tr ks) !! k' = orders_ tr !! k'.
Proof.
  revert tr. induction ks as [|k ks IH]; intros tr Hnin; simpl; [reflexivity|].
  apply not_elem_of_cons in Hnin as [Hne Hnin].
  rewrite IH by exact Hnin. now apply remove_by_client_id_keeps.
Qed.

Lemma completed_orders_complete (tr : t) (k : string) (time : TimePoint) :
  (k, time) ∈ completed_orders tr ->
  exists o, orders_ tr !! k = Some o /\ is_complete o = true.
Proof.
  unfold completed_orders. rewrite list_elem_of_omap.
  intros ([k1 o] & Hin & Hf). simpl in Hf.
  apply elem_of_map_to_list in Hin.
  destruct (is_complete o) eqn:Hc; [|discriminate Hf].
  injection Hf as -> _. eauto.
Qed.

Lemma cleanup_oldest_internal_keeps_live (tr : t) (n : nat) (k : string) (o : Order) :
  orders_ tr !! k = Some o -> is_complete o = false ->
  orders_ (cleanup_oldest_internal tr n) !! k = Some o.
Proof.
  intros Hl Hlive. unfold cleanup_oldest_internal.
  rewrite foldl_remove_keeps; [exact Hl|].
  intros Hin. apply list_elem_of_fmap in Hin as ([k1 time] & -> & Hin).
  simpl in Hl. apply elem_of_take in Hin as (i & Hin & _).
  apply list_elem_of_lookup_2 in Hin.
  rewrite merge_sort_Permutation in Hin.
  apply completed_orders_complete in Hin as (o' & Hl' & Hc).
  congruence.
Qed.

(** X12. Tracking a new order never loses an order that is not
    complete: the eviction that runs when 100000 orders are held removes
    complete orders only.  Below that size nothing at all is evicted:
    every other client id keeps its order. *)
Theorem track_order_keeps_live_orders
    (tr : t) (order : Order) (k : string) (o : Order) :
  get_order tr k = Some o ->
  k <> o_client_order_id order ->
  (is_complete o = false \/ (Z.of_nat (total_orders tr) < MAX_ORDERS)%Z) ->
  get_order (track_order tr order) k = Some o.
Proof.
  unfold get_order, total_orders, track_order. intros Hl Hne Hcase.
  cbv zeta. simpl. rewrite lookup_insert_ne by congruence.
  destruct (decide (MAX_ORDERS ≤ Z.of_nat (size (orders_ tr)))%Z) as [Hfull|_];
    [|exact Hl].
  destruct Hcase as [Hlive|Hsmall]; [|lia].
  now apply cleanup_oldest_internal_keeps_live.
Qed.

Lemma track_order_keeps_live_orders_witness :
  get_order
    (track_order Scenario.tracker_one_new (Scenario.order_with_status "c2" FILLED))
    "c1"
  = Some (Scenario.order_with_status "c1" NEW).
Proof.
  apply (track_order_keeps_live_orders Scenario.tracker_one_new
           (Scenario.order_with_status "c2" FILLED) "c1"
           (Scenario.order_with_status "c1" NEW)).
  - vm_compute. reflexivity.
  - vm_compute. discriminate.
  - left. reflexivity.
Defined.

End TrackerLookups.

(** ** Circuit breaker, kill switch and error rate tracker *)

Section BreakerStates.
Import CircuitBreaker.

Lemma run_breaker_op_config (cb : t) (op : breaker_op) :
  config_ (run_breaker_op cb op) = config_ cb.
Proof.
  destruct op; simpl;
    unfold allow_request, record_success, record_failure, open, close;
    destruct (state_ cb); simpl;
    repeat match goal with
           | |- context [if ?b then _ else _] => destruct b; simpl
           end; reflexivity.
Qed.

Lemma run_breaker_op_inv (cb : t) (op : breaker_op) :
  (0 < failure_threshold (config_ cb))%Z ->
  (0 < success_threshold (config_ cb))%Z ->
  breaker_inv cb -> breaker_inv (run_breaker_op cb op).
Proof.
  intros Hf Hs [Hsucc Hclosed]. unfold breaker_inv.
  rewrite run_breaker_op_config.
  destruct op; simpl;
    unfold allow_request, record_success, record_failure, open, close;
    destruct (state_ cb) eqn:Hstate; simpl;
    repeat match goal with
           | |- context [if (?a <=? ?b)%Z then _ else _] =>
               destruct (Z.leb_spec a b); simpl
           | |- context [if (?a <? ?b)%Z then _ else _] =>
               destruct (Z.ltb_spec a b); simpl
           | |- context [if ?b then _ else _] => destruct b; simpl
           end;
    try rewrite Hstate;
    (split; [lia|]); intros Hc; try discriminate Hc;
    try (destruct (Hclosed eq_refl) as [? ?]); lia.
Qed.

(** X13. In every state a breaker with positive thresholds reaches from
    its construction, by any sequence of requests, successes, failures,
    forced openings and closings, the success count is below the success
    threshold, and while the breaker is CLOSED the success count is 0
    and the failure count is below the failure threshold. *)
Theorem breaker_counters_bounded
    (name : string) (config : Config) (ops : list breaker_op) :
  (0 < failure_threshold config)%Z ->
  (0 < success_threshold config)%Z ->
  breaker_inv (foldl run_breaker_op (new name config) ops).
Proof.
  intros Hf Hs.
  assert (H0 : breaker_inv (new name config)).
  { split; simpl; [lia|]. intros _. lia. }
  assert (Hc : config_ (new name config) = config) by reflexivity.
  revert H0 Hc. generalize (new name config).
  induction ops as [|op ops IH]; intros cb Hinv Hcfg; simpl; [exact Hinv|].
  apply IH.
  - apply run_breaker_op_inv; rewrite ?Hcfg; assumption.
  - now rewrite run_breaker_op_config.
Qed.

Lemma breaker_counters_bounded_witness :
  breaker_inv
    (foldl run_breaker_op (new "gateway" Config_default)
       [BreakerFailure 1 "timeout"; BreakerSuccess; BreakerAllow 2]).
Proof.
  apply (breaker_counters_bounded "gateway" Config_default
           [BreakerFailure 1 "timeout"; BreakerSuccess; BreakerAllow 2]).
  - reflexivity.
  - reflexivity.
Defined.

(** X14. A failed probe does not cost the successes already counted:
    when a HALF_OPEN breaker records a failure it opens with its success
    count unchanged, and the request that is allowed once the timeout
    has elapsed returns it to HALF_OPEN with that same count, so that a
    breaker that was one success short of closing closes on the first
    success of the new probe. *)
Theorem half_open_failure_keeps_success_count
    (cb : t) (t1 t2 : TimePoint) (reason : string) :
  state_ cb = HALF_OPEN ->
  (timeout (config_ cb) <= duration_cast ns_per_s t2 t1)%Z ->
  let cb1 := record_failure t1 cb reason in
  let cb2 := (allow_request t2 cb1).2 in
  get_state cb1 = OPEN
  /\ (allow_request t2 cb1).1 = true
  /\ get_state cb2 = HALF_OPEN
  /\ success_count_ cb2 = success_count_ cb
  /\ (success_threshold (config_ cb) <= success_count_ cb + 1 ->
      get_state (record_success cb2) = CLOSED)%Z.
Proof.
  intros Hstate Htimeout.
  unfold record_failure, open. rewrite Hstate. cbv zeta.
  unfold allow_request. simpl.
  apply Z.leb_le in Htimeout. rewrite Htimeout. simpl.
  split; [reflexivity|]. split; [reflexivity|]. split; [reflexivity|].
  split; [reflexivity|]. intros Hone.
  unfold record_success. simpl.
  apply Z.leb_le in Hone. now rewrite Hone.
Qed.

Lemma half_open_failure_keeps_success_count_witness :
  let cb := mk "gateway" Config_default HALF_OPEN 5 2 0 40000000000 in
  let cb1 := record_failure 41000000000 cb "timeout" in
  let cb2 := (allow_request 71000000000 cb1).2 in
  get_state cb1 = OPEN
  /\ (allow_request 71000000000 cb1).1 = true
  /\ get_state cb2 = HALF_OPEN
  /\ success_count_ cb2 = success_count_ cb
  /\ (success_threshold (config_ cb) <= success_count_ cb + 1 ->
      get_state (record_success cb2) = CLOSED)%Z.
Proof.
  apply (half_open_failure_keeps_success_count
           (mk "gateway" Config_default HALF_OPEN 5 2 0 40000000000)
           41000000000 71000000000 "timeout").
  - reflexivity.
  - vm_compute. discriminate.
Defined.

End BreakerStates.

Section KillSwitchLatch.
Import KillSwitch.
Context {W : Type}.

Lemma run_handlers_world (handlers : list (handler W)) (w : W) (n : nat) :
  (foldl (fun (acc : W * nat) (h : handler W) =>
            let '(w', threw) := h acc.1 in
            (w', if threw then S acc.2 else acc.2))
         (w, n) handlers).1
  = foldl (fun w h => (h w).1) w handlers
  /\ (n <= (foldl (fun (acc : W * nat) (h : handler W) =>
                     let '(w', threw) := h acc.1 in
                     (w', if threw then S acc.2 else acc.2))
                  (w, n) handlers).2 <= n + length handlers)%nat.
Proof.
  revert w n. induction handlers as [|h hs IH]; intros w n; simpl.
  - split; [reflexivity | lia].
  - destruct (h w) as [w' threw] eqn:Hh. simpl.
    destruct (IH w' (if threw then S n else n)) as [IH1 IH2].
    split; [exact IH1|]. destruct threw; lia.
Qed.

(** X15. The kill switch is a latch.  The first activation records its
    reason and time and runs every registered shutdown handler once, in
    registration order, each on the state the previous one left whether
    it returned or threw; a further activation changes nothing and runs
    nothing, so the first reason stands, and so does one that follows
    the registration of another handler. *)
Theorem kill_switch_latches
    (ks : t W) (now1 now2 : TimePoint) (reason1 reason2 : string)
    (late : handler W) (w : W) :
  is_activated ks = false ->
  let '(ks1, (w1, failed)) := activate now1 ks reason1 w in
  is_activated ks1 = true
  /\ get_reason ks1 = reason1
  /\ get_activation_time ks1 = now1
  /\ w1 = foldl (fun w h => (h w).1) w (shutdown_handlers_ ks)
  /\ (failed <= length (shutdown_handlers_ ks))%nat
  /\ activate now2 ks1 reason2 w1 = (ks1, (w1, 0%nat))
  /\ activate now2 (register_shutdown_handler ks1 late) reason2 w1
     = (register_shutdown_handler ks1 late, (w1, 0%nat)).
Proof.
  unfold is_activated, activate. intros ->.
  pose proof (run_handlers_world (shutdown_handlers_ ks) w 0) as [Hw Hn].
  unfold run_handlers.
  destruct (foldl _ (w, 0%nat) (shutdown_handlers_ ks)) as [w1 failed].
  simpl in *. repeat split; try reflexivity; try assumption. lia.
Qed.

(** After [reset] the switch can be activated again, and the handlers,
    which [reset] keeps, run again. *)
Lemma kill_switch_reset_rearms (ks : t W) (now : TimePoint) (reason : string) (w : W) :
  (activate now (reset ks) reason w).2.1
  = foldl (fun w h => (h w).1) w (shutdown_handlers_ ks).
Proof.
  unfold activate, reset. simpl.
  apply (run_handlers_world (shutdown_handlers_ ks) w 0).
Qed.

End KillSwitchLatch.

Lemma kill_switch_latches_witness :
  let ks :=
    KillSwitch.register_shutdown_handler
      (KillSwitch.register_shutdown_handler KillSwitch.new
         (fun n : Z => ((n + 1)%Z, true)))
      (fun n : Z => ((2 * n)%Z, false)) in
  let '(ks1, (w1, failed)) := KillSwitch.activate 7 ks "loss limit" 10%Z in
  KillSwitch.is_activated ks1 = true
  /\ KillSwitch.get_reason ks1 = "loss limit"
  /\ KillSwitch.get_activation_time ks1 = 7%Z
  /\ w1 = foldl (fun w h => (h w).1) 10%Z (KillSwitch.shutdown_handlers_ ks)
  /\ (failed <= length (KillSwitch.shutdown_handlers_ ks))%nat
  /\ KillSwitch.activate 9 ks1 "again" w1 = (ks1, (w1, 0%nat))
  /\ KillSwitch.activate 9
       (KillSwitch.register_shutdown_handler ks1 (fun n : Z => (0%Z, false)))
       "again" w1
     = (KillSwitch.register_shutdown_handler ks1 (fun n : Z => (0%Z, false)),
        (w1, 0%nat)).
Proof.
  apply (kill_switch_latches
           (KillSwitch.register_shutdown_handler
              (KillSwitch.register_shutdown_handler KillSwitch.new
                 (fun n : Z => ((n + 1)%Z, true)))
              (fun n : Z => ((2 * n)%Z, false)))
           7 9 "loss limit" "again" (fun n : Z => (0%Z, false)) 10%Z).
  reflexivity.
Defined.

Section ErrorWindow.
Import ErrorRateTracker.

Lemma age_antitone (now time time' : TimePoint) :
  (time <= time')%Z ->
  (duration_cast ns_per_s now time' <= duration_cast ns_per_s now time)%Z.
Proof.
  intros Hle. unfold duration_cast.
  apply Z.quot_le_mono; [reflexivity | lia].
Qed.

Lemma age_monotone (now now' time : TimePoint) :
  (now <= now')%Z ->
  (duration_cast ns_per_s now time <= duration_cast ns_per_s now' time)%Z.
Proof.
  intros Hle. unfold duration_cast.
  apply Z.quot_le_mono; [reflexivity | lia].
Qed.

Lemma filter_all {A : Type} (P : A -> Prop) `{!forall x, Decision (P x)}
    (l : list A) :
  Forall P l -> filter P l = l.
Proof.
  induction 1 as [|x l Hx Hl IH]; [reflexivity|].
  rewrite filter_cons, decide_True by exact Hx. now rewrite IH.
Qed.

Lemma strongly_sorted_filter {A : Type} (R : relation A) (P : A -> Prop)
    `{!forall x, Decision (P x)} (l : list A) :
  StronglySorted R l -> StronglySorted R (filter P l).
Proof.
  induction 1 as [|x l Hs IH Hall]; [constructor|].
  rewrite filter_cons. destruct (decide (P x)); [|exact IH].
  constructor; [exact IH|].
  apply Forall_forall. intros y Hy. apply list_elem_of_filter in Hy as [_ Hy].
  rewrite Forall_forall in Hall. now apply Hall.
Qed.

(** On times in clock order the eviction loop, which stops at the first
    error that is inside the window, removes all that are outside. *)
Lemma evict_old_filter (now : TimePoint) (window : Z) (times : list TimePoint) :
  StronglySorted Z.le times ->
  evict_old now window times = filter (within_window window now) times.
Proof.
  induction 1 as [|front rest Hs IH Hall]; [reflexivity|].
  cbn [evict_old]. rewrite filter_cons. unfold within_window at 1.
  destruct (Z.ltb_spec window (duration_cast ns_per_s now front)) as [Hold|Hin].
  - assert (Hn : ~ (duration_cast ns_per_s now front <= window)%Z)
      by (clear -Hold; lia).
    rewrite decide_False by exact Hn. exact IH.
  - rewrite decide_True by exact Hin. f_equal.
    symmetry. apply filter_all.
    apply Forall_forall. intros time Htime. rewrite Forall_forall in Hall.
    unfold within_window.
    pose proof (age_antitone now front time (Hall _ Htime)) as Hage.
    clear -Hage Hin. lia.
Qed.

Lemma run_errors_snoc (config : Config) (times : list TimePoint) (now : TimePoint) :
  run_errors config (times ++ [now]) = record_error now (run_errors config times).
Proof. unfold run_errors. now rewrite foldl_app. Qed.

Lemma run_errors_times (config : Config) (times : list TimePoint) (now : TimePoint) :
  StronglySorted Z.le (times ++ [now]) ->
  error_times_ (run_errors config (times ++ [now]))
  = filter (within_window (window config) now) times ++ [now]
  /\ config_ (run_errors config (times ++ [now])) = config.
Proof.
  revert now. induction times as [|time times IH] using rev_ind; intros now Hs.
  - simpl. split; reflexivity.
  - rewrite run_errors_snoc.
    apply StronglySorted_app in Hs as (Hle & Hs & _).
    destruct (IH time Hs) as [IHt IHc].
    apply StronglySorted_app in Hs as (Hle' & Hs' & _).
    unfold record_error. rewrite IHt, IHc. simpl. split; [|reflexivity].
    f_equal.
    assert (Htn : (time <= now)%Z).
    { apply Hle; [|apply list_elem_of_singleton; reflexivity].
      apply elem_of_app. right. apply list_elem_of_singleton. reflexivity. }
    rewrite evict_old_filter.
    + rewrite !filter_app, list_filter_filter. f_equal.
      apply list_filter_iff. intros x. unfold within_window. split; [tauto|].
      intros Hx. split; [exact Hx|].
      pose proof (age_monotone time now x Htn) as Hage. clear -Hage Hx. lia.
    + apply StronglySorted_app. split; [|split].
      * intros x1 x2 H1 H2. apply list_elem_of_filter in H1 as [_ H1].
        now apply Hle'.
      * now apply strongly_sorted_filter.
      * repeat constructor.
Qed.

(** X16. With a clock that does not go backwards, the errors held after
    an error is recorded at [now] are that error and, of those recorded
    before, exactly the ones whose age in whole seconds is at most the
    window; older ones are gone.  For a threshold that fits [size_t],
    [threshold_exceeded] then says whether that many errors are in the
    window. *)
Theorem error_tracker_holds_window
    (config : Config) (times : list TimePoint) (now : TimePoint) :
  StronglySorted Z.le (times ++ [now]) ->
  let s := run_errors config (times ++ [now]) in
  let recent := filter (within_window (window config) now) times in
  error_times_ s = recent ++ [now]
  /\ get_error_count s = S (length recent)
  /\ ((0 <= threshold config < 2 ^ 64)%Z ->
      threshold_exceeded s = true
      <-> (threshold config <= Z.of_nat (S (length recent)))%Z).
Proof.
  intros Hs. destruct (run_errors_times config times now Hs) as [Ht Hc].
  cbv zeta. split; [exact Ht|].
  assert (Hlen : length (error_times_ (run_errors config (times ++ [now])))
                 = S (length (filter (within_window (window config) now) times))).
  { rewrite Ht, length_app. simpl. lia. }
  split; [exact Hlen|]. intros Hth.
  unfold threshold_exceeded, to_size_t. rewrite Hc, Hlen.
  rewrite Z.mod_small by lia. apply Z.leb_le.
Qed.

End ErrorWindow.

Lemma error_tracker_holds_window_witness :
  let config := ErrorRateTracker.mkConfig 60 2 in
  let times := [1000000000; 2000000000; 70000000000]%Z in
  let now := 100000000000%Z in
  let s := run_errors config (times ++ [now]) in
  let recent := filter (within_window (ErrorRateTracker.window config) now) times in
  ErrorRateTracker.error_times_ s = recent ++ [now]
  /\ ErrorRateTracker.get_error_count s = S (length recent)
  /\ ((0 <= ErrorRateTracker.threshold config < 2 ^ 64)%Z ->
      ErrorRateTracker.threshold_exceeded s = true
      <-> (ErrorRateTracker.threshold config <= Z.of_nat (S (length recent)))%Z).
Proof.
  apply (error_tracker_holds_window (ErrorRateTracker.mkConfig 60 2)
           [1000000000; 2000000000; 70000000000]%Z 100000000000%Z).
  simpl. repeat constructor; lia.
Defined.

(** ** Order book: updates keep the ladders in order *)

Lemma Qlt_bool_compat (a a' b b' : Q) :
  a == a' -> b == b' -> Qlt_bool a b = Qlt_bool a' b'.
Proof.
  intros Ha Hb.
  destruct (Qlt_bool_spec a b), (Qlt_bool_spec a' b'); try reflexivity; lra.
Qed.

Lemma less_price_order : price_order OrderBook.less.
Proof.
  unfold price_order, OrderBook.less. split; [|split; [|split]].
  - intros a b c H1 H2. apply Qlt_bool_iff in H1, H2. apply Qlt_bool_iff. lra.
  - intros a b H1 H2. apply Qlt_bool_false_iff in H1, H2. lra.
  - intros a b H. split; apply Qlt_bool_false_iff; lra.
  - intros a a' b H. split; apply Qlt_bool_compat; lra.
Qed.

Lemma greater_price_order : price_order OrderBook.greater.
Proof.
  unfold price_order, OrderBook.greater. split; [|split; [|split]].
  - intros a b c H1 H2. apply Qlt_bool_iff in H1, H2. apply Qlt_bool_iff. lra.
  - intros a b H1 H2. apply Qlt_bool_false_iff in H1, H2. lra.
  - intros a b H. split; apply Qlt_bool_false_iff; lra.
  - intros a a' b H. split; apply Qlt_bool_compat; lra.
Qed.

Section Ladder.
Import OrderBook.
Variable before : double -> double -> bool.
Hypothesis Hord : price_order before.

Lemma assign_level_keys (levels : list (double * double)) (price quantity : double)
    (l : double * double) :
  l ∈ assign_level before levels price quantity ->
  (l.1 = price /\ l.2 = quantity)
  \/ l ∈ levels
  \/ (l.2 = quantity /\ exists l', l' ∈ levels /\ l.1 = l'.1
                               /\ before price l'.1 = false
                               /\ before l'.1 price = false).
Proof.
  induction levels as [|[p q] rest IH]; simpl.
  - intros Hin. apply list_elem_of_singleton in Hin as ->. now left.
  - destruct (before price p) eqn:H1.
    + intros Hin. apply elem_of_cons in Hin as [->|Hin]; [now left|].
      right. now left.
    + destruct (before p price) eqn:H2.
      * intros Hin. apply elem_of_cons in Hin as [->|Hin].
        -- right. left. left.
        -- destruct (IH Hin) as [H|[H|(Hq & l' & Hl' & H)]].
           ++ now left.
           ++ right. left. now right.
           ++ right. right. split; [exact Hq|]. exists l'.
              split; [now right | exact H].
      * intros Hin. apply elem_of_cons in Hin as [->|Hin].
        -- right. right. split; [reflexivity|]. exists (p, q).
           split; [left|]. simpl. auto.
        -- right. left. now right.
Qed.

Lemma erase_level_subset (levels : list (double * double)) (price : double)
    (l : double * double) :
  l ∈ erase_level before levels price -> l ∈ levels.
Proof.
  induction levels as [|[p q] rest IH]; simpl; [done|].
  destruct (before price p); [done|].
  destruct (before p price).
  - intros Hin. apply elem_of_cons in Hin as [->|Hin]; [left | right; auto].
  - intros Hin. now right.
Qed.

Lemma assign_level_ok (levels : list (double * double)) (price quantity : double) :
  0 < quantity -> side_ok before levels ->
  side_ok before (assign_level before levels price quantity).
Proof.
  destruct Hord as (Htrans & Heq & Hirr & Hcompat).
  intros Hq [Hs Hpos]. split.
  - clear Hpos. induction Hs as [|[p q] rest Hs IH Hall]; simpl.
    + repeat constructor.
    + rewrite Forall_forall in Hall.
      destruct (before price p) eqn:H1.
      * constructor; [now constructor; [|apply Forall_forall]|].
        constructor; [exact H1|]. apply Forall_forall. intros l Hl.
        simpl. eapply Htrans; [exact H1 | now apply Hall].
      * destruct (before p price) eqn:H2.
        -- constructor; [exact IH|]. apply Forall_forall. intros l Hl. simpl.
           apply assign_level_keys in Hl
             as [[-> _]|[Hl|(_ & l' & Hl' & -> & _)]];
             [exact H2 | now apply Hall | now apply Hall].
        -- constructor; [exact Hs|]. apply Forall_forall. intros l Hl.
           simpl. now apply Hall.
  - apply Forall_forall. intros l Hl. rewrite Forall_forall in Hpos.
    apply assign_level_keys in Hl as [[_ ->]|[Hl|(-> & _)]];
      [exact Hq | now apply Hpos | exact Hq].
Qed.

Lemma erase_level_ok (levels : list (double * double)) (price : double) :
  side_ok before levels -> side_ok before (erase_level before levels price).
Proof.
  intros [Hs Hpos]. split.
  - clear Hpos. induction Hs as [|[p q] rest Hs IH Hall]; simpl.
    + constructor.
    + destruct (before price p); [now constructor|].
      destruct (before p price); [|exact Hs].
      constructor; [exact IH|]. apply Forall_forall. intros l Hl.
      rewrite Forall_forall in Hall. apply Hall.
      eapply erase_level_subset, Hl.
  - apply Forall_forall. intros l Hl. rewrite Forall_forall in Hpos.
    apply Hpos. eapply erase_level_subset, Hl.
Qed.

Lemma level_quantity_assign (levels : list (double * double))
    (price quantity price' : double) :
  level_quantity (assign_level before levels price quantity) price'
  = if Qeq_bool price price' then Some quantity
    else level_quantity levels price'.
Proof.
  destruct Hord as (Htrans & Heq & Hirr & Hcompat).
  induction levels as [|[p q] rest IH]; simpl; [reflexivity|].
  destruct (before price p) eqn:H1; [reflexivity|].
  destruct (before p price) eqn:H2; simpl.
  - rewrite IH. destruct (Qeq_bool p price') eqn:E1; [|reflexivity].
    destruct (Qeq_bool price price') eqn:E2; [|reflexivity].
    apply Qeq_bool_iff in E1, E2.
    assert (Hpp : p == price) by (rewrite E1, E2; reflexivity).
    destruct (Hirr _ _ Hpp) as [Hc _]. congruence.
  - pose proof (Heq _ _ H1 H2) as Hpp.
    assert (E : Qeq_bool p price' = Qeq_bool price price').
    { destruct (Qeq_bool p price') eqn:E1, (Qeq_bool price price') eqn:E2;
        try reflexivity.
      - apply Qeq_bool_iff in E1. apply Qeq_bool_neq in E2.
        exfalso. apply E2. rewrite Hpp. exact E1.
      - apply Qeq_bool_iff in E2. apply Qeq_bool_neq in E1.
        exfalso. apply E1. rewrite <- Hpp. exact E2. }
    rewrite E. now destruct (Qeq_bool price price').
Qed.

Lemma level_quantity_after (levels : list (double * double)) (p price' : double) :
  Forall (fun l => before p l.1 = true) levels ->
  p == price' \/ before price' p = true ->
  level_quantity levels price' = None.
Proof.
  destruct Hord as (Htrans & Heq & Hirr & Hcompat).
  intros Hall Hp. induction Hall as [|[p1 q1] rest H1 Hall IH]; simpl;
    [reflexivity|].
  simpl in H1. destruct (Qeq_bool p1 price') eqn:E; [|exact IH].
  apply Qeq_bool_iff in E. exfalso.
  destruct (Hcompat p1 price' p E) as [_ Hr]. rewrite Hr in H1.
  destruct Hp as [Hp|Hp].
  - destruct (Hirr _ _ Hp) as [Hc _]. congruence.
  - pose proof (Htrans _ _ _ Hp H1) as Hc.
    destruct (Hirr price' price' (Qeq_refl _)) as [Hc' _]. congruence.
Qed.

Lemma level_quantity_erase (levels : list (double * double)) (price price' : double) :
  side_ok before levels ->
  level_quantity (erase_level before levels price) price'
  = if Qeq_bool price price' then None else level_quantity levels price'.
Proof.
  pose proof Hord as (Htrans & Heq & Hirr & Hcompat).
  intros [Hs _]. induction Hs as [|[p q] rest Hs IH Hall]; simpl.
  - now destruct (Qeq_bool price price').
  - destruct (before price p) eqn:H1.
    + destruct (Qeq_bool price price') eqn:E; [|reflexivity].
      apply Qeq_bool_iff in E.
      change (level_quantity ((p, q) :: rest) price' = None).
      apply (level_quantity_after _ price); [|now left].
      constructor; [exact H1|].
      apply Forall_forall. intros l Hl. rewrite Forall_forall in Hall.
      eapply Htrans; [exact H1 | now apply Hall].
    + destruct (before p price) eqn:H2; simpl.
      * rewrite IH. destruct (Qeq_bool p price') eqn:E1; [|reflexivity].
        destruct (Qeq_bool price price') eqn:E2; [|reflexivity].
        apply Qeq_bool_iff in E1, E2.
        assert (Hpp : p == price) by (rewrite E1, E2; reflexivity).
        destruct (Hirr _ _ Hpp) as [Hc _]. congruence.
      * pose proof (Heq _ _ H1 H2) as Hpp.
        destruct (Qeq_bool price price') eqn:E2.
        -- apply Qeq_bool_iff in E2.
           apply (level_quantity_after _ p); [exact Hall|].
           left. rewrite <- Hpp. exact E2.
        -- destruct (Qeq_bool p price') eqn:E1; [|reflexivity].
           apply Qeq_bool_iff in E1. apply Qeq_bool_neq in E2.
           exfalso. apply E2. rewrite Hpp. exact E1.
Qed.

End Ladder.

Lemma run_book_op_ok (b : OrderBook.t) (op : book_op) :
  book_ok b -> book_ok (run_book_op b op).
Proof.
  intros [Hb Ha]. destruct op as [price quantity|price quantity|]; simpl.
  - unfold OrderBook.update_bid.
    destruct (Qlt_bool_spec 0 quantity) as [Hq|Hq]; split; simpl; try exact Ha.
    + now apply assign_level_ok; [apply greater_price_order| |].
    + now apply erase_level_ok.
  - unfold OrderBook.update_ask.
    destruct (Qlt_bool_spec 0 quantity) as [Hq|Hq]; split; simpl; try exact Hb.
    + now apply assign_level_ok; [apply less_price_order| |].
    + now apply erase_level_ok.
  - split; split; constructor.
Qed.

(** X17. A book that is filled by [update_bid], [update_ask] and [clear]
    alone is always in order: the bid prices are strictly descending, the
    ask prices strictly ascending, no price appears twice on a side, and
    every listed quantity is positive. *)
Theorem order_book_stays_in_order (ops : list book_op) :
  book_ok (foldl run_book_op OrderBook.empty ops).
Proof.
  assert (H0 : book_ok OrderBook.empty) by (split; split; constructor).
  revert H0. generalize OrderBook.empty.
  induction ops as [|op ops IH]; intros b Hb; simpl; [exact Hb|].
  apply IH. now apply run_book_op_ok.
Qed.

(** X18. Reading back an update: after [update_bid] on a book in order,
    the quantity listed at the updated price is the new quantity when that
    is positive and the level is gone otherwise; every other bid price
    lists what it listed before and the asks are untouched.  The same
    holds for [update_ask] with the sides exchanged. *)
Theorem order_book_update_lookup
    (b : OrderBook.t) (price quantity price' : double) :
  book_ok b ->
  let updated := if Qlt_bool 0 quantity then Some quantity else None in
  (level_quantity (OrderBook.bids_ (OrderBook.update_bid b price quantity)) price'
   = if Qeq_bool price price' then updated
     else level_quantity (OrderBook.bids_ b) price')
  /\ OrderBook.asks_ (OrderBook.update_bid b price quantity) = OrderBook.asks_ b
  /\ (level_quantity (OrderBook.asks_ (OrderBook.update_ask b price quantity)) price'
      = if Qeq_bool price price' then updated
        else level_quantity (OrderBook.asks_ b) price')
  /\ OrderBook.bids_ (OrderBook.update_ask b price quantity) = OrderBook.bids_ b.
Proof.
  intros [Hb Ha]. unfold OrderBook.update_bid, OrderBook.update_ask. cbv zeta.
  destruct (Qlt_bool 0 quantity); simpl.
  - split; [apply level_quantity_assign, greater_price_order|].
    split; [reflexivity|].
    split; [apply level_quantity_assign, less_price_order | reflexivity].
  - split; [now apply level_quantity_erase; [apply greater_price_order|]|].
    split; [reflexivity|].
    split; [now apply level_quantity_erase; [apply less_price_order|] | reflexivity].
Qed.

Lemma order_book_update_lookup_witness :
  let b := OrderBook.mk [(100, 2); (99, 1)] [(101, 3); (102, 4)] in
  let updated := if Qlt_bool 0 5 then Some 5 else None in
  (level_quantity (OrderBook.bids_ (OrderBook.update_bid b 99 5)) 99
   = if Qeq_bool 99 99 then updated
     else level_quantity (OrderBook.bids_ b) 99)
  /\ OrderBook.asks_ (OrderBook.update_bid b 99 5) = OrderBook.asks_ b
  /\ (level_quantity (OrderBook.asks_ (OrderBook.update_ask b 99 5)) 99
      = if Qeq_bool 99 99 then updated
        else level_quantity (OrderBook.asks_ b) 99)
  /\ OrderBook.bids_ (OrderBook.update_ask b 99 5) = OrderBook.bids_ b.
Proof.
  apply (order_book_update_lookup
           (OrderBook.mk [(100, 2); (99, 1)] [(101, 3); (102, 4)]) 99 5 99).
  split; split; repeat constructor.
Defined.

(** X19. On a book in order the best bid is the highest bid price and the
    best ask the lowest ask price; a side without levels reports the
    price 0, and the mid price is 0 as soon as one side is empty. *)
Theorem order_book_best_prices (b : OrderBook.t) :
  book_ok b ->
  (forall l, l ∈ OrderBook.get_bids b -> l.1 <= OrderBook.get_best_bid b)
  /\ (forall l, l ∈ OrderBook.get_asks b -> OrderBook.get_best_ask b <= l.1)
  /\ (OrderBook.bid_depth b = 0%nat -> OrderBook.get_best_bid b = 0)
  /\ (OrderBook.ask_depth b = 0%nat -> OrderBook.get_best_ask b = 0)
  /\ (OrderBook.bid_depth b = 0%nat \/ OrderBook.ask_depth b = 0%nat ->
      OrderBook.get_mid_price b = 0).
Proof.
  intros [[Hb _] [Ha _]].
  unfold OrderBook.get_bids, OrderBook.get_asks, OrderBook.get_best_bid,
    OrderBook.get_best_ask, OrderBook.get_mid_price, OrderBook.bid_depth,
    OrderBook.ask_depth, OrderBook.get_best_bid, OrderBook.get_best_ask.
  destruct b as [bids asks]. simpl in *.
  split; [|split; [|split; [|split]]].
  - intros l Hl. destruct Hb as [|[p q] rest Hs Hall]; [inversion Hl|].
    apply elem_of_cons in Hl as [->|Hl]; [apply Qle_refl|].
    rewrite Forall_forall in Hall. specialize (Hall _ Hl).
    apply Qlt_bool_iff in Hall. simpl in Hall. lra.
  - intros l Hl. destruct Ha as [|[p q] rest Hs Hall]; [inversion Hl|].
    apply elem_of_cons in Hl as [->|Hl]; [apply Qle_refl|].
    rewrite Forall_forall in Hall. specialize (Hall _ Hl).
    apply Qlt_bool_iff in Hall. simpl in Hall. lra.
  - destruct bids; [reflexivity | discriminate].
  - destruct asks; [reflexivity | discriminate].
  - intros [H|H].
    + destruct bids; [reflexivity | discriminate].
    + destruct asks; [|discriminate].
      destruct bids as [|[p q] ?]; [reflexivity|].
      simpl. now rewrite orb_true_r.
Qed.

Lemma order_book_best_prices_witness :
  let b := OrderBook.mk [(100, 2); (99, 1)] [(101, 3); (102, 4)] in
  (forall l, l ∈ OrderBook.get_bids b -> l.1 <= OrderBook.get_best_bid b)
  /\ (forall l, l ∈ OrderBook.get_asks b -> OrderBook.get_best_ask b <= l.1)
  /\ (OrderBook.bid_depth b = 0%nat -> OrderBook.get_best_bid b = 0)
  /\ (OrderBook.ask_depth b = 0%nat -> OrderBook.get_best_ask b = 0)
  /\ (OrderBook.bid_depth b = 0%nat \/ OrderBook.ask_depth b = 0%nat ->
      OrderBook.get_mid_price b = 0).
Proof.
  apply (order_book_best_prices
           (OrderBook.mk [(100, 2); (99, 1)] [(101, 3); (102, 4)])).
  split; split; repeat constructor.
Defined.

(** ** Order book imbalance: volumes and signal bounds *)

Section OBIBounds.
Import OrderBookImbalanceStrategy.

Lemma top_volume_sum (num_levels : Z) (levels : list (double * double))
    (count : Z) (volume : double) :
  top_volume num_levels levels count volume
  == volume + Qsum (map snd (take (Z.to_nat (num_levels - count)) levels)).
Proof.
  revert count volume.
  induction levels as [|[price qty] tl IH]; intros count volume.
  - cbn [top_volume]. rewrite take_nil. unfold Qsum. simpl. ring.
  - cbn [top_volume]. destruct (Z.leb_spec num_levels count) as [Hstop|Hgo].
    + replace (Z.to_nat (num_levels - count)) with 0%nat by lia.
      unfold Qsum. simpl. ring.
    + rewrite IH.
      replace (Z.to_nat (num_levels - count))
        with (S (Z.to_nat (num_levels - (count + 1)))) by lia.
      cbn [take map Qsum fold_right snd]. fold (Qsum (map snd
        (take (Z.to_nat (num_levels - (count + 1))) tl))). ring.
Qed.

(** X20. The volume that [analyze] counts on a side is the sum of the
    quantities of the first [num_levels] levels of that side, best price
    first: all levels when the side is shorter, none when [num_levels]
    is zero or negative. *)
Theorem obi_volume_is_top_levels_sum (cfg : Config) (book : OrderBook.t) :
  bid_volume cfg book
  == Qsum (map snd (take (Z.to_nat (num_levels cfg)) (OrderBook.get_bids book)))
  /\ ask_volume cfg book
     == Qsum (map snd (take (Z.to_nat (num_levels cfg)) (OrderBook.get_asks book)))
  /\ ((num_levels cfg <= 0)%Z ->
      bid_volume cfg book == 0 /\ ask_volume cfg book == 0).
Proof.
  unfold bid_volume, ask_volume.
  split; [|split].
  - rewrite top_volume_sum, Z.sub_0_r. ring.
  - rewrite top_volume_sum, Z.sub_0_r. ring.
  - intros Hn. rewrite !top_volume_sum.
    replace (Z.to_nat (num_levels cfg - 0)) with 0%nat by lia.
    rewrite !take_0. unfold Qsum. simpl. split; ring.
Qed.

Lemma top_volume_nonneg (num_levels : Z) (levels : list (double * double))
    (count : Z) (volume : double) :
  Forall (fun l => 0 < l.2) levels -> 0 <= volume ->
  0 <= top_volume num_levels levels count volume.
Proof.
  intros Hall. revert count volume.
  induction Hall as [|[price qty] tl Hq Hall IH]; intros count volume Hv.
  - exact Hv.
  - cbn [top_volume]. destruct (num_levels <=? count)%Z; [exact Hv|].
    apply IH. simpl in Hq. lra.
Qed.

Lemma imbalance_bounded (b a : Q) :
  0 <= b -> 0 <= a -> 0 < b + a ->
  - (1) <= (b - a) / (b + a) /\ (b - a) / (b + a) <= 1.
Proof.
  intros Hb Ha Ht. split.
  - apply Qle_shift_div_l; [exact Ht | lra].
  - apply Qle_shift_div_r; [exact Ht | lra].
Qed.

Lemma confidence_bounded (x : Q) :
  0 <= std_min (Qabs x / 0.7) 1 /\ std_min (Qabs x / 0.7) 1 <= 1.
Proof.
  assert (H0 : 0 <= Qabs x / 0.7).
  { apply Qle_shift_div_l; [reflexivity|]. pose proof (Qabs_nonneg x). lra. }
  unfold std_min. destruct (Qlt_bool_spec 1 (Qabs x / 0.7)) as [H|H].
  - split; [discriminate | apply Qle_refl].
  - split; [exact H0 | lra].
Qed.

(** X21. On a book whose listed quantities are positive, and with a
    positive volume threshold, every signal of [analyze] has its
    imbalance in [-1, 1] and its confidence in [0, 1]; a valid signal
    taken at a positive mid price with positive profit and stop
    distances brackets its entry: stop below and target above for BUY,
    target below and stop above for SELL. *)
Theorem analyze_signal_bounds
    (now : TimePoint) (cfg : Config) (sym : string) (book : OrderBook.t) :
  book_ok book ->
  0 < min_volume_threshold cfg ->
  let s := analyze now cfg sym book in
  (- (1) <= imbalance_ratio s /\ imbalance_ratio s <= 1)
  /\ (0 <= confidence s /\ confidence s <= 1)
  /\ (is_valid s = true ->
      0 < OrderBook.get_mid_price book ->
      0 < target_profit_bps cfg -> 0 < stop_loss_bps cfg ->
      entry_price s = OrderBook.get_mid_price book
      /\ match predicted_direction s with
         | BUY => stop_price s < entry_price s /\ entry_price s < target_price s
         | SELL => target_price s < entry_price s /\ entry_price s < stop_price s
         end).
Proof.
  intros [[_ Hbq] [_ Haq]] Hthr.
  assert (Hb : 0 <= bid_volume cfg book)
    by (apply top_volume_nonneg; [exact Hbq | apply Qle_refl]).
  assert (Ha : 0 <= ask_volume cfg book)
    by (apply top_volume_nonneg; [exact Haq | apply Qle_refl]).
  unfold analyze.
  set (b := bid_volume cfg book) in *. set (a := ask_volume cfg book) in *.
  clearbody b a. cbv zeta.
  destruct (Qlt_bool_spec (b + a) (min_volume_threshold cfg)) as [Hlow|Hvol].
  { cbn [imbalance_ratio confidence is_valid].
    split; [split; discriminate|]. split; [split; discriminate|]. discriminate. }
  assert (Ht : 0 < b + a) by lra.
  destruct (imbalance_bounded b a Hb Ha Ht) as [Hlo Hhi].
  destruct (confidence_bounded ((b - a) / (b + a))) as [Hc0 Hc1].
  set (I := (b - a) / (b + a)) in *. clearbody I.
  set (mid := OrderBook.get_mid_price book). clearbody mid.
  set (tp := target_profit_bps cfg). set (sl := stop_loss_bps cfg).
  clearbody tp sl.
  destruct (Qlt_bool (Qabs I) (imbalance_threshold cfg)).
  { cbn [imbalance_ratio confidence is_valid].
    split; [split; assumption|]. split; [split; discriminate|]. discriminate. }
  destruct (Qlt_bool (imbalance_threshold cfg) I).
  { cbn [imbalance_ratio confidence is_valid entry_price target_price
           stop_price predicted_direction].
    split; [split; assumption|]. split; [split; assumption|].
    intros _ Hmid Htp Hsl. split; [reflexivity|].
    assert (0 < mid * (tp / 10000))
      by (apply Qmult_lt_0_compat; [exact Hmid|]; apply Qlt_shift_div_l; lra).
    assert (0 < mid * (sl / 10000))
      by (apply Qmult_lt_0_compat; [exact Hmid|]; apply Qlt_shift_div_l; lra).
    split; lra. }
  destruct (Qlt_bool I (- imbalance_threshold cfg)).
  { cbn [imbalance_ratio confidence is_valid entry_price target_price
           stop_price predicted_direction].
    split; [split; assumption|]. split; [split; assumption|].
    intros _ Hmid Htp Hsl. split; [reflexivity|].
    assert (0 < mid * (tp / 10000))
      by (apply Qmult_lt_0_compat; [exact Hmid|]; apply Qlt_shift_div_l; lra).
    assert (0 < mid * (sl / 10000))
      by (apply Qmult_lt_0_compat; [exact Hmid|]; apply Qlt_shift_div_l; lra).
    split; lra. }
  cbn [imbalance_ratio confidence is_valid].
  split; [split; assumption|]. split; [split; discriminate|]. discriminate.
Qed.

End OBIBounds.

Lemma analyze_signal_bounds_witness :
  let s := OrderBookImbalanceStrategy.analyze 0 Scenario.obi_config "BTCUSDT"
             Scenario.obi_book in
  (- (1) <= OrderBookImbalanceStrategy.imbalance_ratio s
   /\ OrderBookImbalanceStrategy.imbalance_ratio s <= 1)
  /\ (0 <= OrderBookImbalanceStrategy.confidence s
      /\ OrderBookImbalanceStrategy.confidence s <= 1)
  /\ (OrderBookImbalanceStrategy.is_valid s = true ->
      0 < OrderBook.get_mid_price Scenario.obi_book ->
      0 < OrderBookImbalanceStrategy.target_profit_bps Scenario.obi_config ->
      0 < OrderBookImbalanceStrategy.stop_loss_bps Scenario.obi_config ->
      OrderBookImbalanceStrategy.entry_price s
      = OrderBook.get_mid_price Scenario.obi_book
      /\ match OrderBookImbalanceStrategy.predicted_direction s with
         | BUY => OrderBookImbalanceStrategy.stop_price s
                  < OrderBookImbalanceStrategy.entry_price s
                  /\ OrderBookImbalanceStrategy.entry_price s
                     < OrderBookImbalanceStrategy.target_price s
         | SELL => OrderBookImbalanceStrategy.target_price s
                   < OrderBookImbalanceStrategy.entry_price s
                   /\ OrderBookImbalanceStrategy.entry_price s
                      < OrderBookImbalanceStrategy.stop_price s
         end).
Proof.
  apply (analyze_signal_bounds 0 Scenario.obi_config "BTCUSDT" Scenario.obi_book).
  - vm_compute. repeat constructor.
  - reflexivity.
Defined.

(** ** Latency arbitrage: venue choice, outcome and sizing *)

Lemma std_min_le (a b : Q) : std_min a b <= a /\ std_min a b <= b.
Proof.
  unfold std_min. destruct (Qlt_bool_spec b a) as [H|H]; split; lra.
Qed.

Section ArbVenues.
Import LatencyArbOptimized.

Lemma best_buy_fold (books : list (Venue * OrderBook.t))
    (v : Venue) (p l : double) :
  let r := foldl best_buy_step (v, p, l) books in
  r.1.2 <= p
  /\ (forall e, e ∈ books -> 0 < OrderBook.get_best_ask e.2 ->
                r.1.2 <= OrderBook.get_best_ask e.2)
  /\ (r = (v, p, l)
      \/ exists e, e ∈ books /\ r.1.1 = e.1
                   /\ head (OrderBook.get_asks e.2) = Some (r.1.2, r.2)
                   /\ 0 < r.1.2 /\ r.1.2 < p).
Proof.
  revert v p l. induction books as [|e books IH]; intros v p l.
  - simpl. split; [apply Qle_refl|]. split; [|now left].
    intros e He. inversion He.
  - cbn [foldl].
    assert (Hstep :
      (best_buy_step (v, p, l) e = (v, p, l)
       /\ (0 < OrderBook.get_best_ask e.2 -> p <= OrderBook.get_best_ask e.2))
      \/ exists qty,
           best_buy_step (v, p, l) e = (e.1, OrderBook.get_best_ask e.2, qty)
           /\ head (OrderBook.get_asks e.2)
              = Some (OrderBook.get_best_ask e.2, qty)
           /\ 0 < OrderBook.get_best_ask e.2
           /\ OrderBook.get_best_ask e.2 < p).
    { unfold best_buy_step, OrderBook.get_best_ask, OrderBook.get_asks.
      destruct (OrderBook.asks_ e.2) as [|[ask qty] rest].
      - left. split; [reflexivity|]. intros H. exfalso. lra.
      - destruct (Qlt_bool_spec 0 ask) as [Hpos|Hnp]; cbn [andb].
        + destruct (Qlt_bool_spec ask p) as [Hlt|Hge].
          * right. exists qty. repeat split; assumption.
          * left. split; [reflexivity|]. intros _. lra.
        + left. split; [reflexivity|]. intros H. exfalso. lra. }
    destruct Hstep as [[-> Hkeep]|(qty & -> & Hhead & Hpos & Hlt)].
    + specialize (IH v p l). cbv zeta in IH. destruct IH as (H1 & H2 & H3).
      split; [exact H1|]. split.
      * intros e' He' Hask. apply elem_of_cons in He' as [->|He'].
        -- specialize (Hkeep Hask). lra.
        -- now apply H2.
      * destruct H3 as [H3|(e' & He' & H3)]; [now left|].
        right. exists e'. split; [now right | exact H3].
    + specialize (IH e.1 (OrderBook.get_best_ask e.2) qty). cbv zeta in IH.
      destruct IH as (H1 & H2 & H3).
      split; [lra|]. split.
      * intros e' He' Hask. apply elem_of_cons in He' as [->|He'].
        -- exact H1.
        -- now apply H2.
      * right. destruct H3 as [->|(e' & He' & Hv & Hh & Hp & Hl)].
        -- exists e. split; [left|]. cbn [fst snd].
           repeat split; assumption.
        -- exists e'. split; [now right|]. repeat split; try assumption. lra.
Qed.

Lemma best_sell_fold (books : list (Venue * OrderBook.t))
    (v : Venue) (p l : double) :
  0 <= p ->
  let r := foldl best_sell_step (v, p, l) books in
  p <= r.1.2
  /\ (forall e, e ∈ books -> OrderBook.get_best_bid e.2 <= r.1.2)
  /\ (r = (v, p, l)
      \/ exists e, e ∈ books /\ r.1.1 = e.1
                   /\ head (OrderBook.get_bids e.2) = Some (r.1.2, r.2)
                   /\ p < r.1.2).
Proof.
  revert v p l. induction books as [|e books IH]; intros v p l Hp.
  - simpl. split; [apply Qle_refl|]. split; [|now left].
    intros e He. inversion He.
  - cbn [foldl].
    assert (Hstep :
      (best_sell_step (v, p, l) e = (v, p, l)
       /\ OrderBook.get_best_bid e.2 <= p)
      \/ exists qty,
           best_sell_step (v, p, l) e = (e.1, OrderBook.get_best_bid e.2, qty)
           /\ head (OrderBook.get_bids e.2)
              = Some (OrderBook.get_best_bid e.2, qty)
           /\ p < OrderBook.get_best_bid e.2).
    { unfold best_sell_step, OrderBook.get_best_bid, OrderBook.get_bids.
      destruct (OrderBook.bids_ e.2) as [|[bid qty] rest].
      - left. destruct (Qlt_bool_spec p 0) as [Hlt|Hge]; [exfalso; lra|].
        split; [reflexivity | lra].
      - destruct (Qlt_bool_spec p bid) as [Hlt|Hge].
        + right. exists qty. split; [reflexivity|]. split; [reflexivity | exact Hlt].
        + left. split; [reflexivity | lra]. }
    destruct Hstep as [[-> Hkeep]|(qty & -> & Hhead & Hlt)].
    + specialize (IH v p l Hp). cbv zeta in IH. destruct IH as (H1 & H2 & H3).
      split; [exact H1|]. split.
      * intros e' He'. apply elem_of_cons in He' as [->|He'].
        -- lra.
        -- now apply H2.
      * destruct H3 as [H3|(e' & He' & H3)]; [now left|].
        right. exists e'. split; [now right | exact H3].
    + assert (Hp' : 0 <= OrderBook.get_best_bid e.2) by lra.
      specialize (IH e.1 (OrderBook.get_best_bid e.2) qty Hp').
      cbv zeta in IH. destruct IH as (H1 & H2 & H3).
      split; [lra|]. split.
      * intros e' He'. apply elem_of_cons in He' as [->|He'].
        -- exact H1.
        -- now apply H2.
      * right. destruct H3 as [->|(e' & He' & Hv & Hh & Hl)].
        -- exists e. split; [left|]. cbn [fst snd].
           repeat split; assumption.
        -- exists e'. split; [now right|].
           repeat split; try assumption. lra.
Qed.

(** X22. The two scans choose the best venues: the buy price is at most
    every positive best ask on offer, the sell price at least every best
    bid; each is either the starting value with the venue UNKNOWN, or
    the best price of a listed book that carries the venue's name, in
    which case the liquidity is the quantity at that book's top level. *)
Theorem find_best_venues_optimal (books : list (Venue * OrderBook.t)) :
  let buy := find_best_buy books in
  let sell := find_best_sell books in
  (forall e, e ∈ books -> 0 < OrderBook.get_best_ask e.2 ->
             buy.1.2 <= OrderBook.get_best_ask e.2)
  /\ (buy = (UNKNOWN, DBL_MAX, 0)
      \/ exists e, e ∈ books /\ buy.1.1 = e.1
                   /\ head (OrderBook.get_asks e.2) = Some (buy.1.2, buy.2)
                   /\ 0 < buy.1.2 /\ buy.1.2 < DBL_MAX)
  /\ (forall e, e ∈ books -> OrderBook.get_best_bid e.2 <= sell.1.2)
  /\ (sell = (UNKNOWN, 0, 0)
      \/ exists e, e ∈ books /\ sell.1.1 = e.1
                   /\ head (OrderBook.get_bids e.2) = Some (sell.1.2, sell.2)
                   /\ 0 < sell.1.2).
Proof.
  unfold find_best_buy, find_best_sell. cbv zeta.
  destruct (best_buy_fold books UNKNOWN DBL_MAX 0) as (_ & B2 & B3).
  destruct (best_sell_fold books UNKNOWN 0 0 (Qle_refl 0)) as (_ & S2 & S3).
  split; [exact B2|]. split; [exact B3|]. split; [exact S2 | exact S3].
Qed.

End ArbVenues.

Section ArbOutcome.
Import LatencyArbOptimized.

(** X23. Every call of [detect_global_best_opportunity] ends in one of
    three ways.  No result, or a rejected opportunity, which carries one
    of the four reasons: the strategy state is then unchanged.  Or a
    valid opportunity, with an empty reason, two different known
    venues, a net profit that is the gross profit less fees and
    slippage and is not below the dynamic threshold, found while a slot
    was free: only then is the opportunity counter incremented and the
    time of the last opportunity set. *)
Theorem detect_outcome
    (start now now_threshold end_ : TimePoint) (st : t) (sym : string)
    (books : list (Venue * OrderBook.t)) (timestamps : list (Venue * TimePoint)) :
  let result :=
    detect_global_best_opportunity start now now_threshold end_ st sym
      books timestamps in
  match result.1 with
  | None => result.2 = st
  | Some opp =>
      if is_valid opp then
        reject_reason opp = ""
        /\ buy_venue opp <> UNKNOWN /\ sell_venue opp <> UNKNOWN
        /\ buy_venue opp <> sell_venue opp
        /\ net_profit_bps opp
           = gross_profit_bps opp - fees_bps opp - slippage_bps opp
        /\ get_dynamic_threshold now_threshold st <= net_profit_bps opp
        /\ (active_arbs_ st < max_concurrent_arbs (config_ st))%Z
        /\ result.2
           = mk (config_ st) (active_arbs_ st)
                (opportunities_last_minute_ st + 1)%Z now
      else
        result.2 = st
        /\ reject_reason opp
           ∈ ["Slippage too high"; "Orderbook too stale";
              "Net profit below threshold"; "Detection too slow"]
  end.
Proof.
  unfold detect_global_best_opportunity. cbv zeta.
  destruct (Z.leb_spec (max_concurrent_arbs (config_ st)) (active_arbs_ st))
    as [Hfull|Hslot]; [reflexivity|].
  destruct (find_best_buy books) as [[bv bp] bl].
  destruct (find_best_sell books) as [[sv sp] sl].
  destruct (bool_decide (bv = UNKNOWN)) eqn:Hbv; [reflexivity|].
  destruct (bool_decide (sv = UNKNOWN)) eqn:Hsv; [reflexivity|].
  destruct (bool_decide (bv = sv)) eqn:Hbs; [reflexivity|].
  apply bool_decide_eq_false in Hbv, Hsv, Hbs. cbn [orb].
  destruct (match estimate_total_slippage_bps (config_ st) books bv sv bp with
            | Some s => Qlt_bool (max_slippage_bps (config_ st)) s
            | None => false
            end).
  { cbn. split; [reflexivity|]. set_solver. }
  destruct (max_orderbook_staleness_ms (config_ st) <? _)%Z.
  { cbn. split; [reflexivity|]. set_solver. }
  match goal with
  | |- context [Qlt_bool ?a (get_dynamic_threshold now_threshold st)] =>
      destruct (Qlt_bool_spec a (get_dynamic_threshold now_threshold st))
        as [Hlow|Hnet]
  end.
  { cbn. split; [reflexivity|]. set_solver. }
  match goal with
  | |- context [if Qlt_bool ?a ?b then _ else _] => destruct (Qlt_bool a b)
  end.
  { cbn. split; [reflexivity|]. set_solver. }
  cbn [fst snd is_valid reject_reason buy_venue sell_venue net_profit_bps
         gross_profit_bps fees_bps slippage_bps].
  split; [reflexivity|]. split; [exact Hbv|]. split; [exact Hsv|].
  split; [exact Hbs|]. split; [reflexivity|].
  split; [now apply Qnot_lt_le|]. split; [exact Hslot | reflexivity].
Qed.

(** X24. A valid opportunity is sized from what was seen: its buy
    price is positive and is, with the buy liquidity, the top level of
    the asks of a listed book of the buy venue; its sell price and sell
    liquidity are the top level of the bids of a listed book of the
    sell venue; the target notional is the smaller of the configured
    position size and the smaller of the two liquidities times the buy
    price; the quantity to execute is the target notional divided by
    the buy price, and the expected profit is the net profit in basis
    points, divided by 10 000, times the target notional. *)
Theorem detect_valid_sizing
    (start now now_threshold end_ : TimePoint) (st st' : t) (sym : string)
    (books : list (Venue * OrderBook.t)) (timestamps : list (Venue * TimePoint))
    (opp : EnhancedArbOpportunity) :
  detect_global_best_opportunity start now now_threshold end_ st sym
    books timestamps = (Some opp, st') ->
  is_valid opp = true ->
  let max_qty :=
    std_min (buy_liquidity_available opp) (sell_liquidity_available opp) in
  let target_notional :=
    std_min (position_size_usd (config_ st)) (max_qty * buy_price opp) in
  0 < buy_price opp
  /\ execute_quantity opp = target_notional / buy_price opp
  /\ expected_profit_usd opp = net_profit_bps opp / 10000 * target_notional
  /\ (exists e, e ∈ books /\ e.1 = buy_venue opp
                /\ head (OrderBook.get_asks e.2)
                   = Some (buy_price opp, buy_liquidity_available opp))
  /\ (exists e, e ∈ books /\ e.1 = sell_venue opp
                /\ head (OrderBook.get_bids e.2)
                   = Some (sell_price opp, sell_liquidity_available opp)).
Proof.
  unfold detect_global_best_opportunity. cbv zeta.
  pose proof (best_buy_fold books UNKNOWN DBL_MAX 0) as (_ & _ & Hbuy).
  pose proof (best_sell_fold books UNKNOWN 0 0 (Qle_refl 0)) as (_ & _ & Hsell).
  fold (find_best_buy books) in Hbuy. fold (find_best_sell books) in Hsell.
  destruct (find_best_buy books) as [[bv bp] bl].
  destruct (find_best_sell books) as [[sv sp] sl].
  cbn [fst snd] in Hbuy, Hsell.
  destruct (_ <=? _)%Z; [discriminate|].
  destruct (bool_decide (bv = UNKNOWN)) eqn:Hbv; [discriminate|].
  destruct (bool_decide (sv = UNKNOWN)) eqn:Hsv; [discriminate|].
  destruct (bool_decide (bv = sv)) eqn:Hbs; [discriminate|].
  apply bool_decide_eq_false in Hbv, Hsv. cbn [orb].
  destruct Hbuy as [Hbuy|(eb & Heb & Hvb & Hhb & Hposb & _)];
    [congruence|].
  destruct Hsell as [Hsell|(es & Hes & Hvs & Hhs & _)]; [congruence|].
  repeat match goal with
         | |- context [if ?c then _ else _] => destruct c
         end;
    intros Hres Hvalid; injection Hres as <- <-; try discriminate Hvalid.
  cbn [buy_price execute_quantity buy_liquidity_available
         sell_liquidity_available expected_profit_usd net_profit_bps
         buy_venue sell_venue sell_price config_].
  split; [exact Hposb|]. split; [reflexivity|]. split; [reflexivity|].
  split; [exists eb; auto | exists es; auto].
Qed.

(** BINANCE asks 1 000 for 5 units and KRAKEN bids 1 010 for 3 units:
    3 units are worth 3 000, more than the position size of 2 000, so 2
    units are to be executed. *)
Lemma detect_valid_sizing_witness :
  let opp := Scenario.arb_wide_opp in
  let max_qty :=
    std_min (buy_liquidity_available opp) (sell_liquidity_available opp) in
  let target_notional :=
    std_min (position_size_usd (config_ Scenario.arb_state))
      (max_qty * buy_price opp) in
  0 < buy_price opp
  /\ execute_quantity opp = target_notional / buy_price opp
  /\ expected_profit_usd opp = net_profit_bps opp / 10000 * target_notional
  /\ (exists e, e ∈ Scenario.arb_wide_books /\ e.1 = buy_venue opp
                /\ head (OrderBook.get_asks e.2)
                   = Some (buy_price opp, buy_liquidity_available opp))
  /\ (exists e, e ∈ Scenario.arb_wide_books /\ e.1 = sell_venue opp
                /\ head (OrderBook.get_bids e.2)
                   = Some (sell_price opp, sell_liquidity_available opp)).
Proof.
  apply (detect_valid_sizing
           Scenario.arb_now Scenario.arb_now Scenario.arb_now Scenario.arb_now
           Scenario.arb_state Scenario.arb_wide_run.2 "BTCUSDT"
           Scenario.arb_wide_books Scenario.arb_fresh_timestamps
           Scenario.arb_wide_opp).
  - vm_compute. reflexivity.
  - vm_compute. reflexivity.
Defined.

End ArbOutcome.

(** ** Pairs trading: the entry signal *)

Section PairsSignal.
Import PairsTradingStrategy.

Lemma Qabs_cases (z : Q) :
  (0 <= z /\ Qabs z == z) \/ (z <= 0 /\ Qabs z == - z).
Proof.
  destruct (Qlt_le_dec z 0) as [Hneg|Hpos].
  - right. split; [now apply Qlt_le_weak|].
    apply Qabs_neg. now apply Qlt_le_weak.
  - left. split; [exact Hpos | now apply Qabs_pos].
Qed.

(** X26. With a non-negative entry threshold, [generate_signal] gives a
    valid signal exactly when the window holds at least half the
    lookback period, the cached deviation is at least 1e-6, and the
    z-score of the current ratio exceeds the entry threshold in
    absolute value.  A valid signal sells symbol 1 and buys symbol 2
    when the ratio is above its mean and the reverse when it is below,
    enters at the current prices and targets the mean ratio.  The
    z-score is not compared with the stop: with an exit threshold not
    above the entry threshold, [should_exit] on the same prices is true
    for a fresh signal exactly when the z-score is already beyond the
    stop-loss threshold. *)
Theorem generate_signal_entry
    (now : TimePoint) (s : t double) (price1 price2 : double) :
  0 <= entry_z_score (config_ s) ->
  let signal := generate_signal now s price1 price2 in
  let z := (price1 / price2 - mean_ratio_ s) / std_ratio_ s in
  (is_valid signal = true <->
     (lookback_period (config_ s) ÷ 2
      <= Z.of_nat (CircularBuffer.size (ratio_history_ s)))%Z
     /\ 0.000001 <= std_ratio_ s
     /\ entry_z_score (config_ s) < Qabs z)
  /\ (is_valid signal = true ->
      z_score signal = z
      /\ symbol1_side signal = (if Qlt_bool 0 z then SELL else BUY)
      /\ symbol2_side signal = (if Qlt_bool 0 z then BUY else SELL)
      /\ entry_price1 signal = price1 /\ entry_price2 signal = price2
      /\ target_price1 signal = mean_ratio_ s * price2
      /\ (exit_z_score (config_ s) <= entry_z_score (config_ s) ->
          should_exit s price1 price2 signal = true
          <-> stop_loss_z_score (config_ s) < Qabs z)).
Proof.
  intros Hentry. unfold generate_signal. cbv zeta.
  destruct (Z.ltb_spec (Z.of_nat (CircularBuffer.size (ratio_history_ s)))
              (lookback_period (config_ s) ÷ 2)) as [Hfew|Hdata].
  { cbn [is_valid]. split; [|discriminate].
    split; [discriminate|]. intros (H & _). lia. }
  destruct (Qlt_bool_spec (std_ratio_ s) 0.000001) as [Hflat|Hvol].
  { cbn [is_valid]. split; [|discriminate].
    split; [discriminate|]. intros (_ & H & _). lra. }
  assert (Hstd : 0.000001 <= std_ratio_ s) by lra.
  unfold should_exit.
  set (z := (price1 / price2 - mean_ratio_ s) / std_ratio_ s).
  destruct (Qabs_cases z) as [[Hz Habs]|[Hz Habs]];
    set (entry := entry_z_score (config_ s)) in *;
    set (exit := exit_z_score (config_ s));
    set (stop := stop_loss_z_score (config_ s));
    clearbody z entry exit stop;
    destruct (Qlt_bool_spec (Qabs z) entry) as [Hsmall|Hbig];
    try (cbn [is_valid]; split; [|discriminate];
         split; [discriminate|]; intros (_ & _ & H); lra);
    (destruct (Qlt_bool_spec entry z) as [Hup|Hnup];
     [|destruct (Qlt_bool_spec z (- entry)) as [Hdn|Hndn]]);
    unfold entry_signal;
    cbn [is_valid z_score symbol1_side symbol2_side entry_price1
           entry_price2 target_price1];
    try (split; [|discriminate];
         split; [discriminate|]; intros (_ & _ & H); lra);
    try (exfalso; lra);
    (split; [split; [intros _; repeat split; try assumption; lra
                    | reflexivity]|]);
    intros _;
    (destruct (Qlt_bool_spec 0 z) as [Hp|Hn]; try (exfalso; lra));
    repeat (split; [reflexivity|]);
    intros Hexit;
    (destruct (Qlt_bool_spec (Qabs z) exit) as [Hx|Hx]; [exfalso; lra|]);
    rewrite Qlt_bool_iff; split; intros H; lra.
Qed.

(** Each leg of a pair trade is sized as the configured position size
    divided by the leg's entry price, on the side the signal names. *)
Lemma create_pair_orders_legs
    (now1 now2 : TimePoint) (s : t double) (signal : PairSignal) :
  let '(order1, order2) := create_pair_orders now1 now2 s signal in
  o_quantity order1 = position_size_usd (config_ s) / entry_price1 signal
  /\ o_quantity order2 = position_size_usd (config_ s) / entry_price2 signal
  /\ o_price order1 = entry_price1 signal
  /\ o_price order2 = entry_price2 signal
  /\ o_side order1 = symbol1_side signal
  /\ o_side order2 = symbol2_side signal
  /\ o_strategy_name order1 = "PAIRS_TRADING"
  /\ o_strategy_name order2 = "PAIRS_TRADING".
Proof. unfold create_pair_orders. repeat split. Qed.

End PairsSignal.

Lemma generate_signal_entry_witness :
  let s := Scenario.pairs_ready in
  let signal := PairsTradingStrategy.generate_signal 7 s 10 2 in
  let z := (10 / 2 - PairsTradingStrategy.mean_ratio_ s)
           / PairsTradingStrategy.std_ratio_ s in
  (PairsTradingStrategy.is_valid signal = true <->
     (PairsTradingStrategy.lookback_period (PairsTradingStrategy.config_ s) ÷ 2
      <= Z.of_nat (CircularBuffer.size (PairsTradingStrategy.ratio_history_ s)))%Z
     /\ 0.000001 <= PairsTradingStrategy.std_ratio_ s
     /\ PairsTradingStrategy.entry_z_score (PairsTradingStrategy.config_ s)
        < Qabs z)
  /\ (PairsTradingStrategy.is_valid signal = true ->
      PairsTradingStrategy.z_score signal = z
      /\ PairsTradingStrategy.symbol1_side signal
         = (if Qlt_bool 0 z then SELL else BUY)
      /\ PairsTradingStrategy.symbol2_side signal
         = (if Qlt_bool 0 z then BUY else SELL)
      /\ PairsTradingStrategy.entry_price1 signal = 10
      /\ PairsTradingStrategy.entry_price2 signal = 2
      /\ PairsTradingStrategy.target_price1 signal
         = PairsTradingStrategy.mean_ratio_ s * 2
      /\ (PairsTradingStrategy.exit_z_score (PairsTradingStrategy.config_ s)
          <= PairsTradingStrategy.entry_z_score (PairsTradingStrategy.config_ s) ->
          PairsTradingStrategy.should_exit s 10 2 signal = true
          <-> PairsTradingStrategy.stop_loss_z_score (PairsTradingStrategy.config_ s)
              < Qabs z)).
Proof.
  apply (generate_signal_entry 7 Scenario.pairs_ready 10 2).
  vm_compute. discriminate.
Defined.

(** ** Bounded ring: the remaining operations against the list *)

Section RingObservers.
Import CircularBuffer.
Context {T : Type}.
Local Open Scope nat_scope.

Lemma ring_at (b : t T) (l : list T) (i : nat) :
  ring_repr b l -> at_ b i = l !! i.
Proof.
  intros (Hlen & Hcap & Hsize & Hle & Htail & Hhead & Hdata).
  unfold at_. destruct (decide (size_ b <= i)) as [Hout|Hin].
  - symmetry. apply lookup_ge_None. lia.
  - apply Hdata. lia.
Qed.

Lemma ring_back (b : t T) (l : list T) :
  ring_repr b l -> back b = last l.
Proof.
  intros (Hlen & Hcap & Hsize & Hle & Htail & Hhead & Hdata).
  unfold back. destruct (decide (size_ b = 0)) as [Hz|Hnz].
  - destruct l; [reflexivity | simpl in Hsize; lia].
  - rewrite last_lookup, <- Hsize, <- (Hdata (pred (size_ b))) by lia.
    f_equal. cbv zeta.
    destruct (mod_cases (tail_ b + size_ b) (capacity_ b)) as [[H1 H2]|[H1 H2]];
      try lia; rewrite Hhead, H2.
    + destruct (decide (tail_ b + size_ b = 0)); [lia|].
      rewrite Nat.mod_small; lia.
    + destruct (decide (tail_ b + size_ b - capacity_ b = 0)) as [H0|H0].
      * rewrite Nat.mod_small; lia.
      * destruct (mod_cases (tail_ b + pred (size_ b)) (capacity_ b))
          as [[? ->]|[? ->]]; lia.
Qed.

Lemma ring_pop_front (b : t T) (l : list T) :
  ring_repr b l ->
  match pop_front b with
  | Some b' => l <> [] /\ ring_repr b' (drop 1 l) /\ capacity_ b' = capacity_ b
  | None => l = []
  end.
Proof.
  intros (Hlen & Hcap & Hsize & Hle & Htail & Hhead & Hdata).
  unfold pop_front. destruct (decide (size_ b = 0)) as [Hz|Hnz].
  - destruct l; [reflexivity | simpl in Hsize; lia].
  - split; [destruct l; [simpl in Hsize; lia | discriminate]|].
    split; [|reflexivity]. unfold ring_repr. simpl.
    split; [exact Hlen|]. split; [exact Hcap|].
    split; [rewrite length_drop; lia|]. split; [lia|].
    split; [now apply Nat.mod_upper_bound, Nat.neq_0_lt_0|]. split.
    + rewrite Nat.Div0.add_mod_idemp_l, Hhead. f_equal. lia.
    + intros i Hi. rewrite Nat.Div0.add_mod_idemp_l, lookup_drop.
      replace (tail_ b + 1 + i) with (tail_ b + (1 + i)) by lia.
      apply Hdata. lia.
Qed.

Lemma ring_clear (b : t T) (l : list T) :
  ring_repr b l -> ring_repr (clear b) [] /\ capacity_ (clear b) = capacity_ b.
Proof.
  intros (Hlen & Hcap & _). unfold clear, ring_repr. simpl.
  rewrite Nat.Div0.mod_0_l. repeat split; try lia.
Qed.

(** X27. A ring that holds the elements [l], oldest first, answers like
    that list: [operator[]] gives the element at the index and throws
    from the size on, [front] and [back] give the first and the last
    element and throw on the empty ring, [pop_front] throws on the empty
    ring and otherwise leaves the list without its first element, and
    [clear] leaves the empty list with the capacity unchanged. *)
Theorem ring_behaves_as_list (b : t T) (l : list T) :
  ring_repr b l ->
  (forall i, at_ b i = l !! i)
  /\ front b = head l
  /\ back b = last l
  /\ size b = length l
  /\ (empty b = true <-> l = [])
  /\ match pop_front b with
     | Some b' => l <> [] /\ ring_repr b' (drop 1 l) /\ capacity_ b' = capacity_ b
     | None => l = []
     end
  /\ ring_repr (clear b) [] /\ capacity_ (clear b) = capacity_ b.
Proof.
  intros Hrepr.
  split; [intros i; now apply ring_at|].
  split; [rewrite (ring_front _ _ Hrepr); now destruct l|].
  split; [now apply ring_back|].
  pose proof Hrepr as (_ & _ & Hsize & _).
  split; [exact Hsize|].
  split.
  { unfold empty. rewrite bool_decide_eq_true, Hsize.
    destruct l; simpl; split; intros H; try reflexivity; discriminate. }
  split; [now apply ring_pop_front|].
  now apply (ring_clear b l).
Qed.

End RingObservers.

Lemma ring_behaves_as_list_witness :
  let b := CircularBuffer.mk [4; 2; 3] 3 3 1 1 in
  let l := [2; 3; 4] in
  (forall i, CircularBuffer.at_ b i = l !! i)
  /\ CircularBuffer.front b = head l
  /\ CircularBuffer.back b = last l
  /\ CircularBuffer.size b = length l
  /\ (CircularBuffer.empty b = true <-> l = [])
  /\ match CircularBuffer.pop_front b with
     | Some b' =>
         l <> [] /\ ring_repr b' (drop 1 l)
         /\ CircularBuffer.capacity_ b' = CircularBuffer.capacity_ b
     | None => l = []
     end
  /\ ring_repr (CircularBuffer.clear b) []
  /\ CircularBuffer.capacity_ (CircularBuffer.clear b) = CircularBuffer.capacity_ b.
Proof.
  apply (ring_behaves_as_list (CircularBuffer.mk [4; 2; 3] 3 3 1 1) [2; 3; 4]).
  unfold ring_repr. simpl.
  split; [reflexivity|]. split; [lia|]. split; [reflexivity|].
  split; [lia|]. split; [lia|]. split; [reflexivity|].
  intros i Hi. destruct i as [|[|[|i]]]; try reflexivity. lia.
Defined.

(** ** Adverse selection filter: the score, the cache and the reset *)

Section ToxicityScore.
Import AdverseSelectionFilter.

Lemma count_fill_inv (fills : list FillEvent) (analyzed adverse : Z) (total : double) :
  (0 <= adverse <= analyzed)%Z -> 0 <= total ->
  let r := foldl count_fill (analyzed, adverse, total) fills in
  (0 <= r.1.2 <= r.1.1)%Z /\ 0 <= r.2.
Proof.
  revert analyzed adverse total.
  induction fills as [|fill fills IH]; intros analyzed adverse total Hc Ht.
  - simpl. split; assumption.
  - cbn [foldl].
    assert (Hstep :
      (0 <= (count_fill (analyzed, adverse, total) fill).1.2
       <= (count_fill (analyzed, adverse, total) fill).1.1)%Z
      /\ 0 <= (count_fill (analyzed, adverse, total) fill).2).
    { unfold count_fill.
      pose proof (Qabs_nonneg (adverse_move_bps fill)) as Habs.
      destruct (Qlt_bool 0 (price_after_500ms fill)), (was_adverse fill);
        cbn [fst snd]; split; try lia; lra. }
    destruct (count_fill (analyzed, adverse, total) fill) as [[a' c'] t'].
    cbn [fst snd] in Hstep. now apply IH.
Qed.

Lemma Qdiv_unit_interval (a b : Z) :
  (0 <= a <= b)%Z -> (0 < b)%Z ->
  0 <= inject_Z a / inject_Z b /\ inject_Z a / inject_Z b <= 1.
Proof.
  intros Hab Hb.
  assert (H0 : 0 < inject_Z b) by (change 0 with (inject_Z 0); now rewrite <- Zlt_Qlt).
  assert (Ha : 0 <= inject_Z a) by (change 0 with (inject_Z 0); rewrite <- Zle_Qle; lia).
  assert (Hle : inject_Z a <= inject_Z b) by (rewrite <- Zle_Qle; lia).
  split.
  - apply Qle_shift_div_l; [exact H0 | lra].
  - apply Qle_shift_div_r; [exact H0 | lra].
Qed.

Lemma score_of_bounded (ratio avg time : double) :
  0 <= ratio -> ratio <= 1 -> 0 <= avg -> 0 <= time ->
  0 <= score_of ratio avg time /\ score_of ratio avg time <= 1.
Proof.
  intros Hr0 Hr1 Ha Ht. unfold score_of. cbv zeta.
  assert (Hm : 0 <= std_min (avg / 20) 1 /\ std_min (avg / 20) 1 <= 1).
  { assert (0 <= avg / 20) by (apply Qle_shift_div_l; lra).
    unfold std_min. destruct (Qlt_bool_spec 1 (avg / 20)); split; lra. }
  assert (Hc : 0 <= std_max 0 (1 - time / 10000)
               /\ std_max 0 (1 - time / 10000) <= 1).
  { assert (0 <= time / 10000) by (apply Qle_shift_div_l; lra).
    unfold std_max. destruct (Qlt_bool_spec 0 (1 - time / 10000)); split; lra. }
  destruct Hm as [Hm0 Hm1]. destruct Hc as [Hc0 Hc1].
  set (m := std_min (avg / 20) 1) in *. clearbody m.
  set (c := std_max 0 (1 - time / 10000)) in *. clearbody c.
  split; lra.
Qed.

(** X28. When the filter recomputes, with a clock that has not gone back
    behind the last toxic fill, the toxicity score and the share of
    adverse fills lie in [0, 1], the level and the multiplier are those
    of the score's tier (below 0.3, below 0.6, or above), and the score
    and the multiplier are cached with the recalculation flag
    cleared. *)
Theorem calculate_toxicity_score_bounded (now : TimePoint) (s : t) :
  needs_recalc_ s = true ->
  (last_toxic_fill_time_ s <= now)%Z ->
  let metrics := (calculate_toxicity now s).1 in
  let s' := (calculate_toxicity now s).2 in
  (0 <= toxicity_score metrics /\ toxicity_score metrics <= 1)
  /\ (0 <= fill_adverse_ratio metrics /\ fill_adverse_ratio metrics <= 1)
  /\ (toxicity_level metrics, recommended_spread_mult metrics)
     = tier_of (config_ s) (toxicity_score metrics)
  /\ cached_toxicity_score_ s' = toxicity_score metrics
  /\ cached_spread_mult_ s' = recommended_spread_mult metrics
  /\ needs_recalc_ s' = false
  /\ fill_history_ s' = fill_history_ s.
Proof.
  intros Hflag Hclock. unfold calculate_toxicity. rewrite Hflag. cbn [negb].
  pose proof (count_fill_inv (CircularBuffer.to_list (fill_history_ s)) 0 0 0)
    as Hinv.
  destruct (foldl count_fill (0%Z, 0%Z, 0) _) as [[analyzed adverse] total].
  cbn [fst snd] in Hinv.
  destruct Hinv as [Hcount Htotal]; [lia | apply Qle_refl|].
  set (ratio := if (0 <? analyzed)%Z
                then inject_Z adverse / inject_Z analyzed else 0).
  set (avg := if (0 <? adverse)%Z then total / inject_Z adverse else 0).
  set (time := if (last_toxic_fill_time_ s =? 0)%Z then 10000
               else inject_Z (duration_cast ns_per_ms now (last_toxic_fill_time_ s))).
  assert (Hratio : 0 <= ratio /\ ratio <= 1).
  { subst ratio. destruct (Z.ltb_spec 0 analyzed) as [Hpos|Hz].
    - now apply Qdiv_unit_interval.
    - split; discriminate. }
  assert (Havg : 0 <= avg).
  { subst avg. destruct (Z.ltb_spec 0 adverse) as [Hpos|Hz]; [|apply Qle_refl].
    apply Qle_shift_div_l; [|lra].
    change 0 with (inject_Z 0). now rewrite <- Zlt_Qlt. }
  assert (Htime : 0 <= time).
  { subst time. destruct (last_toxic_fill_time_ s =? 0)%Z; [discriminate|].
    change 0 with (inject_Z 0). rewrite <- Zle_Qle.
    unfold duration_cast. apply Z.quot_pos; [lia | reflexivity]. }
  destruct Hratio as [Hr0 Hr1].
  pose proof (score_of_bounded ratio avg time Hr0 Hr1 Havg Htime) as Hscore.
  clearbody ratio avg time.
  destruct (tier_of (config_ s) (score_of ratio avg time)) as [level mult] eqn:Htier.
  cbn [fst snd toxicity_score fill_adverse_ratio toxicity_level
         recommended_spread_mult cached_toxicity_score_ cached_spread_mult_
         needs_recalc_ fill_history_].
  split; [exact Hscore|]. split; [split; assumption|].
  split; [now rewrite Htier|]. repeat split.
Qed.

(** X29. The cache outlives the data.  After any call of
    [calculate_toxicity], a later call, also one that follows [reset],
    returns the same score and multiplier without looking at the
    history, names the level "LOW" whatever the score, and changes
    nothing; [reset] has emptied the history but has left the cached
    score and the recalculation flag as they were. *)
Theorem cached_toxicity_survives_reset (now1 now2 : TimePoint) (s : t) :
  let metrics1 := (calculate_toxicity now1 s).1 in
  let s1 := (calculate_toxicity now1 s).2 in
  let metrics2 := (calculate_toxicity now2 (reset s1)).1 in
  toxicity_score metrics2 = toxicity_score metrics1
  /\ recommended_spread_mult metrics2 = recommended_spread_mult metrics1
  /\ toxicity_level metrics2 = "LOW"
  /\ (calculate_toxicity now2 (reset s1)).2 = reset s1
  /\ CircularBuffer.size (fill_history_ (reset s1)) = 0%nat
  /\ (calculate_toxicity now2 s1).1 = metrics2
  /\ (should_widen_spreads now2 (reset s1)).1
     = Qlt_bool (toxic_threshold (config_ s)) (toxicity_score metrics1).
Proof.
  cbv zeta.
  assert (H1 :
    needs_recalc_ (calculate_toxicity now1 s).2 = false
    /\ cached_toxicity_score_ (calculate_toxicity now1 s).2
       = toxicity_score (calculate_toxicity now1 s).1
    /\ cached_spread_mult_ (calculate_toxicity now1 s).2
       = recommended_spread_mult (calculate_toxicity now1 s).1
    /\ config_ (calculate_toxicity now1 s).2 = config_ s).
  { unfold calculate_toxicity. destruct (needs_recalc_ s) eqn:Hflag; cbn [negb].
    - destruct (foldl count_fill (0%Z, 0%Z, 0) _) as [[analyzed adverse] total].
      destruct (tier_of _ _) as [level mult]. repeat split.
    - cbn [fst snd toxicity_score recommended_spread_mult].
      repeat split. exact Hflag. }
  destruct H1 as (Hflag & Hscore & Hmult & Hcfg).
  set (m1 := (calculate_toxicity now1 s).1) in *.
  set (s1 := (calculate_toxicity now1 s).2) in *. clearbody m1 s1.
  unfold should_widen_spreads, calculate_toxicity, reset.
  cbn [needs_recalc_ cached_toxicity_score_ cached_spread_mult_ config_
         fill_history_].
  rewrite Hflag, Hscore, Hmult, Hcfg. cbn [negb fst snd toxicity_score
    recommended_spread_mult toxicity_level].
  repeat split.
Qed.

End ToxicityScore.

Lemma calculate_toxicity_score_bounded_witness :
  let metrics :=
    (AdverseSelectionFilter.calculate_toxicity Scenario.tox_tick
       Scenario.tox_filter).1 in
  let s' :=
    (AdverseSelectionFilter.calculate_toxicity Scenario.tox_tick
       Scenario.tox_filter).2 in
  (0 <= AdverseSelectionFilter.toxicity_score metrics
   /\ AdverseSelectionFilter.toxicity_score metrics <= 1)
  /\ (0 <= AdverseSelectionFilter.fill_adverse_ratio metrics
      /\ AdverseSelectionFilter.fill_adverse_ratio metrics <= 1)
  /\ (AdverseSelectionFilter.toxicity_level metrics,
      AdverseSelectionFilter.recommended_spread_mult metrics)
     = AdverseSelectionFilter.tier_of
         (AdverseSelectionFilter.config_ Scenario.tox_filter)
         (AdverseSelectionFilter.toxicity_score metrics)
  /\ AdverseSelectionFilter.cached_toxicity_score_ s'
     = AdverseSelectionFilter.toxicity_score metrics
  /\ AdverseSelectionFilter.cached_spread_mult_ s'
     = AdverseSelectionFilter.recommended_spread_mult metrics
  /\ AdverseSelectionFilter.needs_recalc_ s' = false
  /\ AdverseSelectionFilter.fill_history_ s'
     = AdverseSelectionFilter.fill_history_ Scenario.tox_filter.
Proof.
  apply (calculate_toxicity_score_bounded Scenario.tox_tick Scenario.tox_filter).
  - vm_compute. reflexivity.
  - vm_compute. discriminate.
Defined.

(** ** Strategy coordinator: the order of the imbalance step *)

Section CoordinatorOBI.
Import StrategyCoordinator.

(** X30. Step 1 of [process_market_update] either leaves the order
    vector as it is or appends one order: a LIMIT order tagged "OBI" on
    the symbol of the update, in the direction of the signal, priced at
    the mid price and, for a mid price other than 0, of quantity 3000
    divided by the mid price.  The risk check that admits it is made on a
    default-constructed order, so the quantity and the price of the
    order that is appended do not enter it; and the order is not one
    that the toxicity gate of step 5 removes. *)
Theorem obi_step_order
    (now_analyze now_expiry now_order : TimePoint) (enable_obi : bool)
    (obi_strategy_ : option OrderBookImbalanceStrategy.Config)
    (risk_manager_ : RiskManager) (symbol : string) (book : OrderBook.t)
    (orders : list Order) :
  let mid := OrderBook.get_mid_price book in
  let orders' :=
    obi_step now_analyze now_expiry now_order enable_obi obi_strategy_
      risk_manager_ symbol book orders in
  orders' = orders
  \/ exists cfg order,
       obi_strategy_ = Some cfg
       /\ orders' = orders ++ [order]
       /\ passed (check_order risk_manager_ Order_default mid) = true
       /\ o_symbol order = symbol
       /\ o_strategy_name order = "OBI"
       /\ o_type order = LIMIT
       /\ o_price order = mid
       /\ o_side order
          = OrderBookImbalanceStrategy.predicted_direction
              (OrderBookImbalanceStrategy.analyze now_analyze cfg symbol book)
       /\ o_created_time order = now_order
       /\ (~ mid == 0 -> o_quantity order = 3000 / mid)
       /\ is_mm order = false.
Proof.
  cbv zeta. unfold obi_step.
  destruct obi_strategy_ as [cfg|]; [|now left].
  destruct enable_obi; [|now left].
  destruct (OrderBookImbalanceStrategy.is_valid _ && _) eqn:Hsig; [|now left].
  destruct (passed (check_order risk_manager_ Order_default
                      (OrderBook.get_mid_price book))) eqn:Hrisk; [|now left].
  right. exists cfg. eexists. split; [reflexivity|]. split; [reflexivity|].
  split; [reflexivity|].
  unfold OrderBookImbalanceStrategy.create_order_from_signal,
    calculate_position_size.
  cbn [o_symbol o_strategy_name o_type o_price o_side o_created_time
         o_quantity o_order_id o_client_order_id o_venue o_filled_quantity
         o_remaining_quantity o_status o_reject_reason o_sent_time o_ack_time
         o_completed_time o_signal_id o_risk_notional].
  apply andb_true_iff in Hsig as [Hvalid _].
  assert (Hentry :
    OrderBookImbalanceStrategy.entry_price
      (OrderBookImbalanceStrategy.analyze now_analyze cfg symbol book)
    = OrderBook.get_mid_price book).
  { revert Hvalid. unfold OrderBookImbalanceStrategy.analyze. cbv zeta.
    repeat match goal with
           | |- context [if ?c then _ else _] => destruct c
           end; cbn [OrderBookImbalanceStrategy.is_valid
                       OrderBookImbalanceStrategy.entry_price];
      intros Hv; try discriminate Hv; reflexivity. }
  split; [reflexivity|]. split; [reflexivity|]. split; [reflexivity|].
  split; [exact Hentry|]. split; [reflexivity|]. split; [reflexivity|].
  split; [|reflexivity].
  intros _. reflexivity.
Qed.

End CoordinatorOBI.

(** ** Latency arbitrage and volatility arbitrage of the coordinator *)

Section ArbSlots.
Import LatencyArbitrageStrategy.

Lemma check_arb_direction_cases (cfg : Config) (sym : string)
    (bv : Venue) (bb : OrderBook.t) (sv : Venue) (sb : OrderBook.t)
    (best : ArbitrageOpportunity) :
  let r := check_arb_direction cfg sym bv bb sv sb best in
  r = best
  \/ (symbol r = symbol best /\ is_valid r = is_valid best
      /\ buy_venue r = bv /\ sell_venue r = sv
      /\ buy_price r = OrderBook.get_best_ask bb
      /\ sell_price r = OrderBook.get_best_bid sb
      /\ 0 < buy_price r /\ 0 < sell_price r
      /\ gross_profit_bps r
         = (sell_price r - buy_price r) / buy_price r * 10000
      /\ net_profit_bps r = gross_profit_bps r - fee_bps cfg
      /\ net_profit_bps best < net_profit_bps r).
Proof.
  unfold check_arb_direction. cbv zeta.
  destruct (Qle_bool (OrderBook.get_best_ask bb) 0) eqn:Ea; [now left|].
  destruct (Qle_bool (OrderBook.get_best_bid sb) 0) eqn:Eb; [now left|].
  cbn [orb].
  destruct (Qle_bool _ (net_profit_bps best)) eqn:En; [now left|].
  destruct (OrderBook.get_asks bb) as [|[ap buy_qty] ?]; [now left|].
  destruct (OrderBook.get_bids sb) as [|[bp sell_qty] ?]; [now left|].
  right. cbn [symbol is_valid buy_venue sell_venue buy_price sell_price
                gross_profit_bps net_profit_bps].
  assert (Ha : 0 < OrderBook.get_best_ask bb).
  { apply Qnot_le_lt. intros H. apply Qle_bool_iff in H. congruence. }
  assert (Hb : 0 < OrderBook.get_best_bid sb).
  { apply Qnot_le_lt. intros H. apply Qle_bool_iff in H. congruence. }
  repeat split; try assumption.
  apply Qnot_le_lt. intros H. apply Qle_bool_iff in H. congruence.
Qed.

Lemma scan_found (st : t) (sym : string) (books : list (Venue * OrderBook.t))
    (pairs : list (Venue * Venue)) (best : ArbitrageOpportunity) :
  (forall p, p ∈ pairs -> p ∈ venue_pairs_ st) ->
  symbol best = sym /\ is_valid best = false
  /\ (best = ArbitrageOpportunity_for sym \/ arb_found st sym books best) ->
  let r := foldl (pair_step (config_ st) sym books) best pairs in
  symbol r = sym /\ is_valid r = false
  /\ (r = ArbitrageOpportunity_for sym \/ arb_found st sym books r).
Proof.
  revert best. induction pairs as [|[v1 v2] pairs IH]; intros best Hin Hbest.
  - exact Hbest.
  - cbn [foldl]. apply IH; [intros p Hp; apply Hin; now right|].
    assert (Hpair : (v1, v2) ∈ venue_pairs_ st) by (apply Hin; left).
    unfold pair_step. cbn [fst snd].
    destruct (assoc_find books v1) as [book1|] eqn:E1; [|exact Hbest].
    destruct (assoc_find books v2) as [book2|] eqn:E2; [|exact Hbest].
    assert (Hfirst :
      let r := check_arb_direction (config_ st) sym v1 book1 v2 book2 best in
      symbol r = sym /\ is_valid r = false
      /\ (r = ArbitrageOpportunity_for sym \/ arb_found st sym books r)).
    { destruct (check_arb_direction_cases (config_ st) sym v1 book1 v2 book2 best)
        as [->|(Hs & Hv & Hbv & Hsv & Hbp & Hsp & Hb0 & Hs0 & Hg & Hn & _)];
        [exact Hbest|].
      destruct Hbest as (Hsym & Hval & _). cbv zeta.
      split; [congruence|]. split; [congruence|]. right.
      exists book1, book2. rewrite Hbv, Hsv.
      repeat split; try assumption. now left. }
    cbv zeta in Hfirst.
    set (best1 := check_arb_direction (config_ st) sym v1 book1 v2 book2 best) in *.
    destruct (check_arb_direction_cases (config_ st) sym v2 book2 v1 book1 best1)
      as [->|(Hs & Hv & Hbv & Hsv & Hbp & Hsp & Hb0 & Hs0 & Hg & Hn & _)];
      [exact Hfirst|].
    destruct Hfirst as (Hsym & Hval & _).
    split; [congruence|]. split; [congruence|]. right.
    exists book2, book1. rewrite Hbv, Hsv.
    repeat split; try assumption. now right.
Qed.

(** X32. What [detect_opportunity] returns is a valid opportunity for
    the symbol asked, found while an arbitrage slot was free, stamped
    with the second clock reading and with the microseconds between
    the two readings, fewer than the latency limit, and with a net
    profit of at least [min_profit_bps].  When that minimum is
    positive, the opportunity buys at the best ask of one listed venue
    and sells at the best bid of another, both prices positive, the two
    venues being a configured pair; its gross profit is their
    difference relative to the buy price in basis points and its net
    profit the gross profit less [fee_bps]. *)
Theorem detect_opportunity_valid (start end_ : TimePoint) (st : t)
    (sym : string) (books : list (Venue * OrderBook.t))
    (opp : ArbitrageOpportunity) :
  detect_opportunity start end_ st sym books = Some opp ->
  is_valid opp = true
  /\ symbol opp = sym
  /\ (active_arbs_ st < max_concurrent_arbs (config_ st))%Z
  /\ detected_at opp = end_
  /\ detection_latency_us opp = ((end_ - start) ÷ 1000)%Z
  /\ inject_Z (detection_latency_us opp) < max_execution_latency_us (config_ st)
  /\ min_profit_bps (config_ st) <= net_profit_bps opp
  /\ (0 < min_profit_bps (config_ st) -> arb_found st sym books opp).
Proof.
  unfold detect_opportunity. cbv zeta.
  destruct (Z.leb_spec (max_concurrent_arbs (config_ st)) (active_arbs_ st))
    as [|Hslot]; [discriminate|].
  pose proof (scan_found st sym books (venue_pairs_ st)
                (ArbitrageOpportunity_for sym) (fun p Hp => Hp)
                (conj eq_refl (conj eq_refl (or_introl eq_refl)))) as Hscan.
  cbv zeta in Hscan.
  set (best := foldl _ _ _) in *.
  destruct Hscan as (Hsym & _ & Hfound).
  destruct (Qle_bool (min_profit_bps (config_ st)) (net_profit_bps best)) eqn:Hnet;
    [|discriminate].
  destruct (Qlt_bool_spec
              (inject_Z (duration_cast ns_per_us end_ start))
              (max_execution_latency_us (config_ st))) as [Hlat|];
    [|discriminate].
  cbn [andb]. intros [= <-].
  cbn [is_valid symbol detected_at detection_latency_us net_profit_bps].
  apply Qle_bool_iff in Hnet.
  split; [reflexivity|]. split; [exact Hsym|]. split; [exact Hslot|].
  split; [reflexivity|]. split; [reflexivity|]. split; [exact Hlat|].
  split; [exact Hnet|]. intros Hmin.
  destruct Hfound as [Hnone|(bb & sb & Hf)].
  - exfalso. rewrite Hnone in Hnet.
    change (min_profit_bps (config_ st) <= 0) in Hnet.
    clear -Hmin Hnet. lra.
  - exists bb, sb. exact Hf.
Qed.

Lemma detect_opportunity_valid_witness :
  let opp := Scenario.las_opp in
  let st := Scenario.las_start in
  is_valid opp = true
  /\ symbol opp = "BTCUSDT"
  /\ (active_arbs_ st < max_concurrent_arbs (config_ st))%Z
  /\ detected_at opp = Scenario.coord_tick
  /\ detection_latency_us opp
     = ((Scenario.coord_tick - Scenario.coord_tick) ÷ 1000)%Z
  /\ inject_Z (detection_latency_us opp) < max_execution_latency_us (config_ st)
  /\ min_profit_bps (config_ st) <= net_profit_bps opp
  /\ (0 < min_profit_bps (config_ st) ->
      arb_found st "BTCUSDT" Scenario.las_books opp).
Proof.
  apply (detect_opportunity_valid Scenario.coord_tick Scenario.coord_tick
           Scenario.las_start "BTCUSDT" Scenario.las_books Scenario.las_opp).
  vm_compute. reflexivity.
Defined.

(** With every slot taken nothing is detected. *)
Lemma detect_opportunity_busy (start end_ : TimePoint) (st : t)
    (sym : string) (books : list (Venue * OrderBook.t)) :
  (max_concurrent_arbs (config_ st) <= active_arbs_ st)%Z ->
  detect_opportunity start end_ st sym books = None.
Proof.
  intros Hbusy. unfold detect_opportunity.
  apply Z.leb_le in Hbusy. now rewrite Hbusy.
Qed.

End ArbSlots.

Section CoordinatorArb.
Import StrategyCoordinator.

(** X31. In step 2 of [process_market_update] every detected
    opportunity takes an arbitrage slot: the two orders are built, which
    increments [active_arbs_], before the risk manager is asked, and the
    slot stays taken when a leg is refused and no order is appended.
    The orders are the IOC limit orders of [create_arb_orders], the buy
    leg checked at the buy price and the sell leg at the sell price;
    both are appended, buy first, only when both pass. *)
Theorem latency_arb_step_takes_slot (now : Readings)
    (strategy : LatencyArbitrageStrategy.t) (rm : RiskManager) (sym : string)
    (all_books : list (Venue * OrderBook.t)) (orders : list Order)
    (opp : LatencyArbitrageStrategy.ArbitrageOpportunity) :
  (1 < length all_books)%nat ->
  LatencyArbitrageStrategy.detect_opportunity (at_arb_start now) (at_arb_end now)
    strategy sym all_books = Some opp ->
  let buy_order :=
    mkOrder "" "" (LatencyArbitrageStrategy.symbol opp)
      (LatencyArbitrageStrategy.buy_venue opp) BUY LIMIT_IOC
      (LatencyArbitrageStrategy.buy_price opp)
      (LatencyArbitrageStrategy.execute_quantity opp) 0 0 PENDING ""
      (at_arb_buy now) 0 0 0 "LATENCY_ARB" 0 0 in
  let sell_order :=
    mkOrder "" "" (LatencyArbitrageStrategy.symbol opp)
      (LatencyArbitrageStrategy.sell_venue opp) SELL LIMIT_IOC
      (LatencyArbitrageStrategy.sell_price opp)
      (LatencyArbitrageStrategy.execute_quantity opp) 0 0 PENDING ""
      (at_arb_sell now) 0 0 0 "LATENCY_ARB" 0 0 in
  let r := latency_arb_step now true (Some strategy) rm sym all_books orders in
  r.2 = Some (LatencyArbitrageStrategy.mk
                (LatencyArbitrageStrategy.config_ strategy)
                (LatencyArbitrageStrategy.active_arbs_ strategy + 1)%Z
                (LatencyArbitrageStrategy.venue_pairs_ strategy))
  /\ r.1 = if passed (check_order rm buy_order
                        (LatencyArbitrageStrategy.buy_price opp))
              && passed (check_order rm sell_order
                           (LatencyArbitrageStrategy.sell_price opp))
           then orders ++ [buy_order; sell_order]
           else orders.
Proof.
  intros Hsize Hdetect. cbv zeta.
  destruct (detect_opportunity_valid _ _ _ _ _ _ Hdetect) as (Hvalid & _).
  unfold latency_arb_step. apply Nat.ltb_lt in Hsize.
  rewrite Hsize, Hdetect, Hvalid. cbn [andb].
  unfold LatencyArbitrageStrategy.create_arb_orders.
  destruct (passed _ && passed _); split; reflexivity.
Qed.

(** The risk manager is past its daily loss limit: both legs are
    refused, no order is appended, and the slot is taken. *)
Lemma latency_arb_step_takes_slot_witness :
  let r :=
    latency_arb_step Scenario.coord_readings true (Some Scenario.las_start)
      Scenario.rm_daily_loss "BTCUSDT" Scenario.las_books [] in
  r.1 = []
  /\ r.2 = Some (LatencyArbitrageStrategy.mk
                   (LatencyArbitrageStrategy.config_ Scenario.las_start)
                   (LatencyArbitrageStrategy.active_arbs_ Scenario.las_start + 1)%Z
                   (LatencyArbitrageStrategy.venue_pairs_ Scenario.las_start)).
Proof.
  pose proof (latency_arb_step_takes_slot Scenario.coord_readings
                Scenario.las_start Scenario.rm_daily_loss "BTCUSDT"
                Scenario.las_books [] Scenario.las_opp) as H.
  cbv zeta in H. destruct H as [H2 H1].
  - simpl. lia.
  - vm_compute. reflexivity.
  - split; [rewrite H1; vm_compute; reflexivity | exact H2].
Defined.

End CoordinatorArb.

Section VolSignal.
Import VolatilityArbitrageStrategy.

(** X33. A valid signal of [generate_signal] is made only with an
    average ATR of at least 0.000001 and at least [atr_period + 1]
    prices held, in a regime other than NORMAL: in the HIGH regime it
    is a "MEAN_REVERT" signal, in the LOW regime a "STRADDLE" signal to
    BUY.  It enters at the current price, expects [target_profit_bps],
    and carries the ratio of the current to the average ATR; a BUY
    signal has its target above and its stop below the entry by the
    configured basis points, a SELL signal the other way round. *)
Theorem generate_signal_valid (now : TimePoint) (s : t) (current_price : double)
    (signal : VolSignal) :
  generate_signal now s current_price = Some signal ->
  is_valid signal = true ->
  let cfg := config_ s in
  Qlt_bool (avg_atr_ s) 0.000001 = false
  /\ (atr_period cfg + 1 <= Z.of_nat (CircularBuffer.size (price_history_ s)))%Z
  /\ regime signal = detect_regime s
  /\ (regime signal = HIGH /\ strategy_type signal = "MEAN_REVERT"
      \/ regime signal = LOW /\ strategy_type signal = "STRADDLE"
         /\ primary_side signal = BUY)
  /\ entry_price signal = current_price
  /\ expected_profit_bps signal = target_profit_bps cfg
  /\ atr_ratio signal = current_atr_ s / avg_atr_ s
  /\ current_atr signal = current_atr_ s
  /\ avg_atr signal = avg_atr_ s
  /\ generated_at signal = now
  /\ match primary_side signal with
     | BUY =>
         target_price signal
         = current_price * (1 + target_profit_bps cfg / 10000)
         /\ stop_price signal
            = current_price * (1 - stop_loss_bps cfg / 10000)
     | SELL =>
         target_price signal
         = current_price * (1 - target_profit_bps cfg / 10000)
         /\ stop_price signal
            = current_price * (1 + stop_loss_bps cfg / 10000)
     end.
Proof.
  unfold generate_signal. cbv zeta.
  destruct (Qlt_bool (avg_atr_ s) 0.000001) eqn:Havg;
    [intros [= <-]; discriminate|].
  destruct (Z.ltb_spec (Z.of_nat (CircularBuffer.size (price_history_ s)))
              (atr_period (config_ s) + 1)) as [|Hsize];
    [intros [= <-]; discriminate|].
  cbn [orb].
  destruct (detect_regime s) eqn:Hregime.
  - destruct (is_recent_price_spike_up s) as [[|]|]; cbn;
      [intros [= <-] _; repeat split; auto | | discriminate].
    destruct (is_recent_price_spike_down s) as [[|]|]; cbn;
      [intros [= <-] _; repeat split; auto
      | intros [= <-]; discriminate | discriminate].
  - intros [= <-]; discriminate.
  - intros [= <-] _. repeat split; auto.
Qed.

Lemma generate_signal_valid_witness :
  let s := Scenario.vol_calm in
  let signal := Scenario.vol_signal in
  let cfg := config_ s in
  Qlt_bool (avg_atr_ s) 0.000001 = false
  /\ (atr_period cfg + 1 <= Z.of_nat (CircularBuffer.size (price_history_ s)))%Z
  /\ regime signal = detect_regime s
  /\ (regime signal = HIGH /\ strategy_type signal = "MEAN_REVERT"
      \/ regime signal = LOW /\ strategy_type signal = "STRADDLE"
         /\ primary_side signal = BUY)
  /\ entry_price signal = 102
  /\ expected_profit_bps signal = target_profit_bps cfg
  /\ atr_ratio signal = current_atr_ s / avg_atr_ s
  /\ current_atr signal = current_atr_ s
  /\ avg_atr signal = avg_atr_ s
  /\ generated_at signal = Scenario.coord_tick
  /\ match primary_side signal with
     | BUY =>
         target_price signal = 102 * (1 + target_profit_bps cfg / 10000)
         /\ stop_price signal = 102 * (1 - stop_loss_bps cfg / 10000)
     | SELL =>
         target_price signal = 102 * (1 - target_profit_bps cfg / 10000)
         /\ stop_price signal = 102 * (1 + stop_loss_bps cfg / 10000)
     end.
Proof.
  apply (generate_signal_valid Scenario.coord_tick Scenario.vol_calm 102
           Scenario.vol_signal).
  - vm_compute. reflexivity.
  - vm_compute. reflexivity.
Defined.

(** The strategy of the scenario is in the LOW regime: the last 14
    moves sum to 12, an ATR of 12/14 against an average above 1.7. *)
Example vol_calm_regime :
  Scenario.vol_run Scenario.vol_prices = Some Scenario.vol_calm
  /\ current_atr_ Scenario.vol_calm == 12 # 14
  /\ detect_regime Scenario.vol_calm = LOW
  /\ is_valid Scenario.vol_signal = true.
Proof.
  split; [vm_compute; reflexivity|]. split; [vm_compute; reflexivity|].
  split; vm_compute; reflexivity.
Qed.

End VolSignal.
